(** * BGP Prefix-SID attribute decoder (RFC 8669, SRv6 services)

    A shallow embedding of [bgp_msg::BGPPrefixSID]
    (Server/src/bgp/BGPPrefixSID.{h,cpp}) and the properties of its
    three nested TLV walks.

    Conventions of the embedding.
    - Memory is a total map from addresses to integers; an [u_char] load
      keeps the low eight bits.  Addresses are offsets from the [data]
      pointer handed to [parseBGPPrefixSIDAttr], so the attribute buffer
      of [n] bytes is the address range [0 .. n-1].
    - Every walk records, in order, the addresses it loads from.  The
      source performs plain pointer dereferences; the record is what
      lets one say whether a load fell inside the buffer.
    - [int] variables are unbounded integers; a budget moves by at most
      65538 in an iteration, which keeps it far from the limits of
      [int] ([budget_step_range]).
    - A [uint16_t] is assembled from its two object bytes the way a
      little-endian host does.
    - The three [while] loops run on fuel; [None] means the fuel ran out
      while the loop condition still held.
    - [SELF_DEBUG] diagnostics are not part of the model. *)

From Stdlib Require Import ZArith List String Ascii Bool Lia DecimalString.
Import ListNotations.

Open Scope string_scope.
Open Scope list_scope.
Open Scope Z_scope.

(** ** boost::property_tree::ptree *)

Module PTree.

(** A node holds a string and an ordered list of keyed children; keys
    may repeat. *)
#[warnings="-register-all"]
Inductive ptree : Type :=
| Node (data : string) (children : list (string * ptree)).

Definition empty : ptree := Node EmptyString [].

Definition data (t : ptree) : string :=
  match t with Node d _ => d end.

Definition children (t : ptree) : list (string * ptree) :=
  match t with Node _ cs => cs end.

(** [add_child] always appends a further child, whether or not the key
    is already present. *)
Definition add_child (key : string) (child : ptree) (t : ptree) : ptree :=
  Node (data t) (children t ++ [(key, child)]).

(** [put] sets the data of the first child with that key and creates
    the child at the end when there is none. *)
Fixpoint put_in (key value : string) (cs : list (string * ptree))
  : list (string * ptree) :=
  match cs with
  | [] => [(key, Node value [])]
  | (k, c) :: rest =>
      if String.eqb k key then (k, Node value (children c)) :: rest
      else (k, c) :: put_in key value rest
  end.

Definition put (key value : string) (t : ptree) : ptree :=
  Node (data t) (put_in key value (children t)).

(** All children stored under a key, in order. *)
Definition get_children (key : string) (t : ptree) : list ptree :=
  map snd (filter (fun kc => String.eqb (fst kc) key) (children t)).

(** [get_child]: the first child with the key. *)
Definition get_child (key : string) (t : ptree) : option ptree :=
  hd_error (get_children key t).

(** [get]: the data of the first child with the key. *)
Definition get (key : string) (t : ptree) : option string :=
  option_map data (get_child key t).

Definition keys (t : ptree) : list string := map fst (children t).

End PTree.

Import PTree.

Infix "+++" := String.append (at level 60, right associativity).

(** The stream translator prints an unsigned integer in decimal. *)
Definition dec (z : Z) : string :=
  NilZero.string_of_uint (N.to_uint (Z.to_N z)).

(** ** Endpoint behaviour names (BGPPrefixSID.h) *)

(** The [case] labels of the [switch], in source order. *)
Definition endpoint_behavior_cases : list (Z * string) :=
  [ (0, "Reserved"); (1, "End"); (2, "End with PSP"); (3, "End with USP");
    (4, "End with PSP & USP"); (5, "End.X"); (6, "End.X with PSP");
    (7, "End.X with USP"); (8, "End.X with PSP & USP"); (9, "End.T");
    (10, "End.T with PSP"); (11, "End.T with USP");
    (12, "End.T with PSP & USP"); (13, "End.B6.Insert");
    (14, "End.B6.Encaps"); (15, "End.BM"); (16, "End.DX6");
    (17, "End.DX4"); (18, "End.DT6"); (19, "End.DT4"); (20, "End.DT46");
    (21, "End.DX2"); (22, "End.DX2V"); (23, "End.DT2U"); (24, "End.DT2M");
    (25, "Reserved"); (26, "End.B6.Insert.Red"); (27, "End.B6.Encaps.Red");
    (28, "End with USD"); (29, "End with PSP & USD");
    (30, "End with USP & USD"); (31, "End with PSP, USP & USD");
    (32, "End.X with USD"); (33, "End.X with PSP & USD");
    (34, "End.X with USP & USD"); (35, "End.X with PSP, USP & USD");
    (36, "End.T with USD"); (37, "End.T with PSP & USD");
    (38, "End.T with USP & USD"); (39, "End.T with PSP, USP & USD");
    (40, "End.MAP"); (41, "End.Limit"); (42, "End with NEXT-ONLY-CSID");
    (43, "End with NEXT-CSID"); (44, "End with NEXT-CSID & PSP");
    (45, "End with NEXT-CSID & USP"); (46, "End with NEXT-CSID, PSP & USP");
    (47, "End with NEXT-CSID & USD"); (48, "End with NEXT-CSID, PSP & USD");
    (49, "End with NEXT-CSID, USP & USD");
    (50, "End with NEXT-CSID, PSP, USP & USD");
    (51, "End.X with NEXT-ONLY-CSID"); (52, "End.X with NEXT-CSID");
    (53, "End.X with NEXT-CSID & PSP"); (54, "End.X with NEXT-CSID & USP");
    (55, "End.X with NEXT-CSID, PSP & USP");
    (56, "End.X with NEXT-CSID & USD");
    (57, "End.X with NEXT-CSID, PSP & USD");
    (58, "End.X with NEXT-CSID, USP & USD");
    (59, "End.X with NEXT-CSID, PSP, USP & USD");
    (60, "End.DX6 with NEXT-CSID"); (61, "End.DX4 with NEXT-CSID");
    (62, "End.DT6 with NEXT-CSID"); (63, "End.DT4 with NEXT-CSID");
    (64, "End.DT46 with NEXT-CSID"); (65, "End.DX2 with NEXT-CSID");
    (66, "End.DX2V with NEXT-CSID"); (67, "End.DT2U with NEXT-CSID");
    (68, "End.DT2M with NEXT-CSID"); (69, "End.M.GTP6.D");
    (70, "End.M.GTP6.Di"); (71, "End.M.GTP6.E"); (72, "End.M.GTP4.E");
    (73, "End.DTM"); (74, "End.M (Mirror SID)"); (75, "End.Replicate");
    (76, "End.DTMC4"); (77, "End.DTMC6"); (78, "End.DTMC46");
    (79, "End.BXC"); (80, "End.BXC with PSP"); (81, "End.BXC with USP");
    (82, "End.BXC with USD"); (83, "End.BXC with PSP, USP & USD");
    (100, "End.PSID"); (101, "End with REPLACE-CSID");
    (102, "End with REPLACE-CSID & PSP");
    (103, "End with REPLACE-CSID & USP");
    (104, "End with REPLACE-CSID, PSP & USP");
    (105, "End.X with REPLACE-CSID");
    (106, "End.X with REPLACE-CSID & PSP");
    (107, "End.X with REPLACE-CSID & USP");
    (108, "End.X with REPLACE-CSID, PSP & USP");
    (109, "End.T with COC"); (110, "End.T with PSP&COC");
    (112, "End.T with PSP&USP&COC");
    (128, "End with REPLACE-CSID & USD");
    (129, "End with REPLACE-CSID, USP & USD");
    (130, "End with REPLACE-CSID, PSP & USD");
    (131, "End with REPLACE-CSID, PSP, USP & USD");
    (132, "End.X with REPLACE-CSID & USD");
    (133, "End.X with REPLACE-CSID, PSP & USD");
    (134, "End.X with REPLACE-CSID, USP & USD");
    (135, "End.X with REPLACE-CSID, PSP, USP & USD");
    (137, "End.T with PSP&USD&COC"); (139, "End.T with PSP&USP&USD&COC");
    (150, "End.XU"); (151, "End.XU with PSP"); (152, "End.XU with USP");
    (153, "End.XU with USD"); (154, "End.XU with PSP, USP & USD");
    (155, "End.XU with REPPLACE-CSID");
    (156, "End.XU with REPPLACE-CSID & PSP");
    (157, "End.XU with REPPLACE-CSID & PSP & USP & USD");
    (32767, "The SID defined in [RFC8754]"); (65535, "Opaque") ].

(** The [switch]: the first label equal to the code, if any. *)
Fixpoint switch_case (code : Z) (cases : list (Z * string)) : option string :=
  match cases with
  | [] => None
  | (c, name) :: rest => if code =? c then Some name else switch_case code rest
  end.

Definition endpoint_behavior_codepoint_to_name (code : Z) : string :=
  match switch_case code endpoint_behavior_cases with
  | Some name => name
  | None =>
      if (32768 <=? code) && (code <=? 34815) then "Reserved for Private Use"
      else if (34816 <=? code) && (code <=? 65534) then "Reserved"
      else "Unassigned"
  end.

(** The codes that have a [case] label of their own. *)
Definition explicitly_listed (code : Z) : bool :=
  existsb (fun c => code =? fst c) endpoint_behavior_cases.

(** ** inet_ntop(AF_INET6) *)

(** Modelled from the spec: [inet_ntop] is the C library's address
    formatting routine, which the repository calls and does not define.
    The spec asks for the canonical IPv6 text of the 16 bytes; the model
    follows the routine's usual algorithm: eight 16-bit groups in lower
    case hexadecimal without leading zeros, the longest run of two or
    more zero groups (the leftmost when tied) written [::], and the
    dotted form of the last four bytes for [::a.b.c.d] and
    [::ffff:a.b.c.d]. *)

Definition hex_digit (d : Z) : string :=
  String (nth (Z.to_nat d) (list_ascii_of_string "0123456789abcdef") "0"%char)
         EmptyString.

(** [printf("%x")] of a 16-bit group. *)
Definition hex16 (w : Z) : string :=
  if w <? 16 then hex_digit w
  else if w <? 256 then hex_digit (w / 16) +++ hex_digit (w mod 16)
  else if w <? 4096 then
    hex_digit (w / 256) +++ hex_digit (w / 16 mod 16) +++ hex_digit (w mod 16)
  else hex_digit (w / 4096) +++ hex_digit (w / 256 mod 16)
       +++ hex_digit (w / 16 mod 16) +++ hex_digit (w mod 16).

Fixpoint words_of (src : list Z) : list Z :=
  match src with
  | hi :: lo :: rest => (hi * 256 + lo) :: words_of rest
  | _ => []
  end.

(** A run of zero groups: its first index and its length; the base is
    [-1] when there is none. *)
Definition run : Type := (Z * Z)%type.

Definition better (best cur : run) : run :=
  if (fst best =? -1) || (snd cur >? snd best) then cur else best.

Fixpoint best_run (words : list Z) (i : Z) (best cur : run) : run :=
  match words with
  | [] => if fst cur =? -1 then best else better best cur
  | w :: rest =>
      if w =? 0 then
        if fst cur =? -1 then best_run rest (i + 1) best (i, 1)
        else best_run rest (i + 1) best (fst cur, snd cur + 1)
      else
        if fst cur =? -1 then best_run rest (i + 1) best cur
        else best_run rest (i + 1) (better best cur) (-1, snd cur)
  end.

Definition inet_ntop4 (src : list Z) : string :=
  dec (nth 0 src 0) +++ "." +++ dec (nth 1 src 0) +++ "."
  +++ dec (nth 2 src 0) +++ "." +++ dec (nth 3 src 0).

Fixpoint format_groups (src words : list Z) (best : run) (i : Z) (todo : nat)
  : string :=
  match todo with
  | O => EmptyString
  | S todo' =>
      if negb (fst best =? -1) && (fst best <=? i) && (i <? fst best + snd best)
      then (if i =? fst best then ":" else EmptyString)
           +++ format_groups src words best (i + 1) todo'
      else
        (if i =? 0 then EmptyString else ":")
        +++ (if (i =? 6) && (fst best =? 0)
                && ((snd best =? 6)
                    || ((snd best =? 5) && (nth 5 words 0 =? 65535)))
             then inet_ntop4 (skipn 12 src)
             else hex16 (nth (Z.to_nat i) words 0)
                  +++ format_groups src words best (i + 1) todo')
  end.

Definition inet_ntop6 (src : list Z) : string :=
  let words := words_of src in
  let found := best_run words 0 (-1, 0) (-1, 0) in
  let best :=
    if negb (fst found =? -1) && (snd found <? 2) then (-1, snd found)
    else found in
  format_groups src words best 0 8
  +++ (if negb (fst best =? -1) && (fst best + snd best =? 8) then ":"
       else EmptyString).

(** ** Memory and readData (BGPPrefixSID.cpp) *)

Definition memory : Type := Z -> Z.

(** [*p] for an [u_char *p]. *)
Definition load (mem : memory) (a : Z) : Z := mem a mod 256.

(** A buffer laid out from address 0, with zero bytes around it. *)
Definition buffer_mem (buf : list Z) : memory :=
  fun a => if a <? 0 then 0 else nth (Z.to_nat a) buf 0.

(** [for(int i=size-1; i>=0; i--) field[j++] = data[i];] with [n] the
    number of indices still to visit: the addresses loaded, in order. *)
Fixpoint readData_down (data : Z) (n : nat) : list Z :=
  match n with
  | O => []
  | S i => (data + Z.of_nat i) :: readData_down data i
  end.

(** [for(int i=0; i<size; i++) field[j++] = data[i];] from index [i]
    with [n] indices still to visit. *)
Fixpoint readData_up (data : Z) (i : Z) (n : nat) : list Z :=
  match n with
  | O => []
  | S k => (data + i) :: readData_up data (i + 1) k
  end.

Definition readData_loads (data : Z) (size : nat) (host_byte_order : bool)
  : list Z :=
  if host_byte_order then readData_down data size else readData_up data 0 size.

(** The bytes written to [field[0]], [field[1]], ... *)
Definition readData (mem : memory) (data : Z) (size : nat)
  (host_byte_order : bool) : list Z :=
  map (load mem) (readData_loads data size host_byte_order).

(** The value of a [uint8_t] and of a [uint16_t] whose object bytes are
    [field] (little-endian host). *)
Definition uint8_of (field : list Z) : Z := nth 0 field 0.
Definition uint16_of (field : list Z) : Z := nth 0 field 0 + 256 * nth 1 field 0.

(** ** TLV headers *)

Definition BGP_PREFIX_SID_TLV_TYPE_SRV6_L3_SERVICE_TLV : Z := 5.
Definition SRV6_SID_INFORMATION_SUB_TLV : Z := 1.
Definition SRV6_SID_STRUCTURE_SUB_SUB_TLV : Z := 1.

Record generic_tlv : Type := mk_tlv { type : Z; len : Z; reserved : Z }.

(** [readData(&tlv.type, data, 1); data++; readData(&tlv.len, data, 2);
    data+=2; readData(&tlv.reserved, data, 1); data++;] *)
Definition read_header (mem : memory) (data : Z) : generic_tlv :=
  {| type := uint8_of (readData mem data 1 true);
     len := uint16_of (readData mem (data + 1) 2 true);
     reserved := uint8_of (readData mem (data + 3) 1 true) |}.

Definition header_loads (data : Z) : list Z :=
  readData_loads data 1 true ++ readData_loads (data + 1) 2 true
  ++ readData_loads (data + 3) 1 true.

(** ** Loops *)

(** [while (cond) { body }]: the body reports whether it left through
    [break]. *)
Fixpoint while_do {St : Type} (cond : St -> bool) (body : St -> St * bool)
  (fuel : nat) (s : St) : option St :=
  if cond s then
    match fuel with
    | O => None
    | S fuel' =>
        let (s', stop) := body s in
        if stop then Some s' else while_do cond body fuel' s'
    end
  else Some s.

(** The loop run with the given fuel; the state is returned unchanged
    should the fuel not suffice. *)
Definition run_loop {St : Type} (cond : St -> bool) (body : St -> St * bool)
  (fuel : nat) (s : St) : St :=
  match while_do cond body fuel s with
  | Some s' => s'
  | None => s
  end.

(** ** The sub-sub-TLV walk (inner loop of parseSRv6L3ServiceTLV) *)

Record srv6_sid_structure_sub_sub_tlv : Type := mk_sid_structure {
  locator_block_length : Z;
  locator_node_length : Z;
  function_length : Z;
  argument_length : Z;
  transposition_length : Z;
  transposition_offset : Z }.

(** Six times [... = *subsub_data++;]. *)
Definition read_sid_structure (mem : memory) (subsub_data : Z)
  : srv6_sid_structure_sub_sub_tlv :=
  {| locator_block_length := load mem subsub_data;
     locator_node_length := load mem (subsub_data + 1);
     function_length := load mem (subsub_data + 2);
     argument_length := load mem (subsub_data + 3);
     transposition_length := load mem (subsub_data + 4);
     transposition_offset := load mem (subsub_data + 5) |}.

Definition sid_structure_loads (subsub_data : Z) : list Z :=
  [subsub_data; subsub_data + 1; subsub_data + 2; subsub_data + 3;
   subsub_data + 4; subsub_data + 5].

Definition sid_structure_pt (s : srv6_sid_structure_sub_sub_tlv) : ptree :=
  put "transposition_offset" (dec (transposition_offset s))
    (put "transposition_length" (dec (transposition_length s))
      (put "argument_length" (dec (argument_length s))
        (put "function_length" (dec (function_length s))
          (put "locator_node_length" (dec (locator_node_length s))
            (put "locator_block_length" (dec (locator_block_length s))
               empty))))).

(** The variables live across the inner loop; [outer_tlv_cnt] is the
    enclosing loop's [tlv_cnt], which the inner loop increments. *)
Record subtlv_walk : Type := mk_subtlv_walk {
  subtlv_len : Z;
  sub_data : Z;
  subtlv_cnt : Z;
  outer_tlv_cnt : Z;
  sub_pt : ptree;
  sub_loads : list Z }.

Definition subtlv_cond (s : subtlv_walk) : bool := subtlv_len s >? 0.

Definition subtlv_body (mem : memory) (s : subtlv_walk) : subtlv_walk * bool :=
  let subsubtlv := read_header mem (sub_data s) in
  let sub_data' := sub_data s + 4 in
  let subsub_data := sub_data' in
  let '(sub_pt', loads') :=
    if type subsubtlv =? SRV6_SID_STRUCTURE_SUB_SUB_TLV then
      (add_child "sid_structure"
         (sid_structure_pt (read_sid_structure mem subsub_data)) (sub_pt s),
       sid_structure_loads subsub_data)
    else (sub_pt s, []) in
  let sub_data'' := sub_data' + (len subsubtlv - 1) in
  let subtlv_len' := subtlv_len s - (len subsubtlv + 3) in
  let subtlv_cnt' := subtlv_cnt s + 1 in
  let loads := sub_loads s ++ header_loads (sub_data s) ++ loads' in
  if subtlv_cnt' >? 3 then
    let tlv_cnt' := outer_tlv_cnt s + 1 in
    (mk_subtlv_walk subtlv_len' sub_data'' subtlv_cnt' tlv_cnt' sub_pt' loads,
     tlv_cnt' >? 3)
  else
    (mk_subtlv_walk subtlv_len' sub_data'' subtlv_cnt' (outer_tlv_cnt s)
       sub_pt' loads,
     false).

Definition subtlv_loop (mem : memory) (fuel : nat) (s : subtlv_walk)
  : option subtlv_walk :=
  while_do subtlv_cond (subtlv_body mem) fuel s.

(** ** The sub-TLV walk: parseSRv6L3ServiceTLV *)

Record srv6_sid_information_sub_tlv : Type := mk_sid_information {
  sid_value : list Z;
  service_sid_flags : Z;
  endpoint_behavior : Z;
  sid_reserved : Z }.

Definition read_sid_information (mem : memory) (sub_data : Z)
  : srv6_sid_information_sub_tlv :=
  {| sid_value := readData mem sub_data 16 false;
     service_sid_flags := uint8_of (readData mem (sub_data + 16) 1 true);
     endpoint_behavior := uint16_of (readData mem (sub_data + 17) 2 true);
     sid_reserved := uint8_of (readData mem (sub_data + 19) 1 true) |}.

Definition sid_information_loads (sub_data : Z) : list Z :=
  readData_loads sub_data 16 false ++ readData_loads (sub_data + 16) 1 true
  ++ readData_loads (sub_data + 17) 2 true
  ++ readData_loads (sub_data + 19) 1 true.

Definition sid_information_pt (i : srv6_sid_information_sub_tlv) : ptree :=
  put "endpoint_behavior"
      (endpoint_behavior_codepoint_to_name (endpoint_behavior i))
    (put "endpoint_behavior_codepoint" (dec (endpoint_behavior i))
      (put "service_sid_flags" (dec (service_sid_flags i))
        (put "sid_value" (inet_ntop6 (sid_value i)) empty))).

Record tlv_walk : Type := mk_tlv_walk {
  tlv_len : Z;
  tlv_data : Z;
  tlv_cnt : Z;
  tlv_pt : ptree;
  tlv_loads : list Z }.

Definition tlv_cond (s : tlv_walk) : bool := negb (tlv_len s =? 0).

(** The fuel of the inner loop: [subtlv_len] falls by at least 3 in
    every iteration. *)
Definition subtlv_fuel (subtlv_len : Z) : nat := Z.to_nat ((subtlv_len + 2) / 3).

(** The case [SRV6_SID_INFORMATION_SUB_TLV] up to the end of its inner
    loop: the fixed fields are read and put into [sub_pt], then the
    sub-sub-TLVs are walked with [subtlv_len = subtlv.len-21] and
    [subtlv_cnt = 0]. *)
Definition inner_walk (mem : memory) (subtlv : generic_tlv) (sub_data : Z)
  (tlv_cnt : Z) : subtlv_walk :=
  let srv6_sid_information := read_sid_information mem sub_data in
  let sub_data' := sub_data + 20 in
  let sub_pt0 := sid_information_pt srv6_sid_information in
  let subtlv_len := len subtlv - 21 in
  run_loop subtlv_cond (subtlv_body mem) (subtlv_fuel subtlv_len)
    (mk_subtlv_walk subtlv_len sub_data' 0 tlv_cnt sub_pt0 []).

Definition tlv_body (mem : memory) (s : tlv_walk) : tlv_walk * bool :=
  let subtlv := read_header mem (tlv_data s) in
  let data' := tlv_data s + 4 in
  let sub_data := data' in
  let '(pt', tlv_cnt', loads') :=
    if type subtlv =? SRV6_SID_INFORMATION_SUB_TLV then
      let inner := inner_walk mem subtlv sub_data (tlv_cnt s) in
      (add_child "sid_information" (sub_pt inner) (tlv_pt s),
       outer_tlv_cnt inner,
       sid_information_loads sub_data ++ sub_loads inner)
    else (tlv_pt s, tlv_cnt s, []) in
  let data'' := data' + (len subtlv - 1) in
  let tlv_len' := tlv_len s - (len subtlv + 3) in
  let tlv_cnt'' := tlv_cnt' + 1 in
  (mk_tlv_walk tlv_len' data'' tlv_cnt'' pt'
     (tlv_loads s ++ header_loads (tlv_data s) ++ loads'),
   tlv_cnt'' >? 3).

Definition tlv_loop (mem : memory) (fuel : nat) (s : tlv_walk)
  : option tlv_walk :=
  while_do tlv_cond (tlv_body mem) fuel s.

(** What a walk hands back: the tree and the addresses it loaded. *)
Record decoded : Type := mk_decoded { tree : ptree; loads : list Z }.

(** [tlv_cnt] ends the loop after four iterations at the latest. *)
Definition parseSRv6L3ServiceTLV (mem : memory) (tlv_len : Z) (data : Z)
  : decoded :=
  let s := run_loop tlv_cond (tlv_body mem) 4
             (mk_tlv_walk tlv_len data 0 empty []) in
  {| tree := tlv_pt s; loads := tlv_loads s |}.

(** ** The top-level walk: parseBGPPrefixSIDAttr *)

Record attr_walk : Type := mk_attr_walk {
  attr_len : Z;
  attr_data : Z;
  attr_pt : ptree;
  attr_loads : list Z }.

Definition attr_cond (s : attr_walk) : bool := attr_len s >? 0.

Definition attr_body (mem : memory) (s : attr_walk) : attr_walk * bool :=
  let tlv := read_header mem (attr_data s) in
  let data' := attr_data s + 4 in
  let tlv_len := len tlv - 1 in
  let '(pt', loads') :=
    if type tlv =? BGP_PREFIX_SID_TLV_TYPE_SRV6_L3_SERVICE_TLV then
      let sub := parseSRv6L3ServiceTLV mem tlv_len data' in
      (add_child "srv6_l3_service" (tree sub) (attr_pt s), loads sub)
    else (attr_pt s, []) in
  (mk_attr_walk (attr_len s - (len tlv + 3)) (data' + (len tlv - 1)) pt'
     (attr_loads s ++ header_loads (attr_data s) ++ loads'),
   false).

Definition attr_loop (mem : memory) (fuel : nat) (s : attr_walk)
  : option attr_walk :=
  while_do attr_cond (attr_body mem) fuel s.

(** [attr_len] falls by at least 3 in every iteration. *)
Definition attr_fuel (attr_len : Z) : nat := Z.to_nat ((attr_len + 2) / 3).

Definition decode_attr (mem : memory) (attr_len : Z) (data : Z) : decoded :=
  let s := run_loop attr_cond (attr_body mem) (attr_fuel attr_len)
             (mk_attr_walk attr_len data empty []) in
  {| tree := attr_pt s; loads := attr_loads s |}.

(** [UpdateMsg::parsed_update_data] is declared in UpdateMsg.h; the
    decoder uses one member, [attr_prefix_sid], and the others are kept
    as a parameter. *)
Record parsed_update_data (Others : Type) : Type := mk_parsed_update_data {
  attr_prefix_sid : ptree;
  other_members : Others }.

Arguments mk_parsed_update_data {Others} _ _.
Arguments attr_prefix_sid {Others} _.
Arguments other_members {Others} _.

(** [parsed_data.attr_prefix_sid = pt;] *)
Definition parseBGPPrefixSIDAttr {Others : Type} (mem : memory)
  (attr_len : Z) (data : Z) (parsed_data : parsed_update_data Others)
  : parsed_update_data Others :=
  mk_parsed_update_data (tree (decode_attr mem attr_len data))
    (other_members parsed_data).

(** ** Wire images used in the statements *)

(** A TLV of any level on the wire: type, 16-bit length in network
    order counting the reserved byte and the value, reserved, value. *)
Definition wire_tlv (type reserved : Z) (value : list Z) : list Z :=
  let len := 1 + Z.of_nat (List.length value) in
  type :: len / 256 :: len mod 256 :: reserved :: value.

Definition is_byte (b : Z) : Prop := 0 <= b < 256.

(** Two memories that hold the same bytes at the given addresses. *)
Definition agree (mem mem' : memory) (addrs : list Z) : Prop :=
  Forall (fun a => load mem' a = load mem a) addrs.


(** ** Complete attributes *)

(** The elements of an attribute whose declared lengths are consistent:
    every element lies wholly inside its parent and the children of an
    element fill its value. *)
Inductive sub_sub_tlv : Type :=
| SubSubTlv (type reserved : Z) (value : list Z).

Inductive sub_tlv : Type :=
| SidInformation (reserved : Z) (fixed : list Z) (subsubs : list sub_sub_tlv)
| OtherSubTlv (type reserved : Z) (value : list Z).

Inductive top_tlv : Type :=
| L3Service (reserved : Z) (subs : list sub_tlv)
| OtherTlv (type reserved : Z) (value : list Z).

Definition wire_sub_sub (t : sub_sub_tlv) : list Z :=
  match t with SubSubTlv type reserved value => wire_tlv type reserved value end.

Definition wire_sub (t : sub_tlv) : list Z :=
  match t with
  | SidInformation reserved fixed subsubs =>
      wire_tlv SRV6_SID_INFORMATION_SUB_TLV reserved
        (fixed ++ flat_map wire_sub_sub subsubs)
  | OtherSubTlv type reserved value => wire_tlv type reserved value
  end.

Definition wire_top (t : top_tlv) : list Z :=
  match t with
  | L3Service reserved subs =>
      wire_tlv BGP_PREFIX_SID_TLV_TYPE_SRV6_L3_SERVICE_TLV reserved
        (flat_map wire_sub subs)
  | OtherTlv type reserved value => wire_tlv type reserved value
  end.

Definition wire_attr (tlvs : list top_tlv) : list Z := flat_map wire_top tlvs.

(** The 16-bit length field can hold the length of the value. *)
Definition fits (value : list Z) : Prop :=
  1 + Z.of_nat (List.length value) <= 65535.

(** A SID Structure sub-sub-TLV carries its six bytes. *)
Definition complete_sub_sub (t : sub_sub_tlv) : Prop :=
  match t with
  | SubSubTlv type reserved value =>
      is_byte type /\ fits value
      /\ (type = SRV6_SID_STRUCTURE_SUB_SUB_TLV ->
          (6 <= List.length value)%nat)
  end.

(** A SID Information sub-TLV carries its 20 fixed bytes (SID, flags,
    endpoint behaviour, reserved) before the sub-sub-TLVs. *)
Definition complete_sub (t : sub_tlv) : Prop :=
  match t with
  | SidInformation reserved fixed subsubs =>
      List.length fixed = 20%nat /\ Forall complete_sub_sub subsubs
      /\ fits (fixed ++ flat_map wire_sub_sub subsubs)
  | OtherSubTlv type reserved value =>
      is_byte type /\ type <> SRV6_SID_INFORMATION_SUB_TLV /\ fits value
  end.

Definition complete_top (t : top_tlv) : Prop :=
  match t with
  | L3Service reserved subs =>
      Forall complete_sub subs /\ fits (flat_map wire_sub subs)
  | OtherTlv type reserved value =>
      is_byte type /\ type <> BGP_PREFIX_SID_TLV_TYPE_SRV6_L3_SERVICE_TLV
      /\ fits value
  end.

(** The memory cells from [data] on hold the given bytes. *)
Definition holds (mem : memory) (data : Z) (bytes : list Z) : Prop :=
  forall i, (i < List.length bytes)%nat ->
            mem (data + Z.of_nat i) = nth i bytes 0.

(** An address inside the buffer [lo .. hi-1]. *)
Definition within (lo hi a : Z) : Prop := lo <= a < hi.


(** What stays true at the head of each loop while it walks a complete
    region ending at [hi]: the cursor and the remaining length cover
    exactly the elements still to come, and every load so far fell in
    [lo .. hi-1]. *)
Definition subtlv_inv (mem : memory) (lo hi : Z) (s : subtlv_walk) : Prop :=
  lo <= sub_data s /\ Forall (within lo hi) (sub_loads s)
  /\ exists rest, Forall complete_sub_sub rest
       /\ holds mem (sub_data s) (flat_map wire_sub_sub rest)
       /\ subtlv_len s = Z.of_nat (List.length (flat_map wire_sub_sub rest))
       /\ sub_data s + subtlv_len s = hi.

Definition tlv_inv (mem : memory) (lo hi : Z) (s : tlv_walk) : Prop :=
  lo <= tlv_data s /\ Forall (within lo hi) (tlv_loads s)
  /\ exists rest, Forall complete_sub rest
       /\ holds mem (tlv_data s) (flat_map wire_sub rest)
       /\ tlv_len s = Z.of_nat (List.length (flat_map wire_sub rest))
       /\ tlv_data s + tlv_len s = hi.

Definition attr_inv (mem : memory) (lo hi : Z) (s : attr_walk) : Prop :=
  lo <= attr_data s /\ Forall (within lo hi) (attr_loads s)
  /\ exists rest, Forall complete_top rest
       /\ holds mem (attr_data s) (wire_attr rest)
       /\ attr_len s = Z.of_nat (List.length (wire_attr rest))
       /\ attr_data s + attr_len s = hi.


(** ** Sample attributes *)

(** 2001:db8::1 *)
Definition sample_sid : list Z := [32; 1; 13; 184; 0; 0; 0; 0; 0; 0; 0; 0; 0; 0; 0; 1].

(** One SRv6 L3 Service TLV with one SID Information sub-TLV (flags 0,
    endpoint behaviour 18) and one SID Structure sub-sub-TLV
    (32, 16, 16, 0, 0, 0): 38 bytes. *)
Definition sample_tlvs : list top_tlv :=
  [L3Service 0
     [SidInformation 0 (sample_sid ++ [0; 0; 18; 0])
        [SubSubTlv SRV6_SID_STRUCTURE_SUB_SUB_TLV 0 [32; 16; 16; 0; 0; 0]]]].

Definition sample_attr : list Z := wire_attr sample_tlvs.

(** The same attribute cut after the header of the sub-sub-TLV. *)
Definition truncated_attr : list Z := firstn 32 sample_attr.

(** Five SRv6 L3 Service TLVs without sub-TLVs: 20 bytes. *)
Definition five_tlvs : list Z := wire_attr (repeat (L3Service 0 []) 5).

(** A SID Information sub-TLV followed by eight SID Structure
    sub-sub-TLVs, in one SRv6 L3 Service TLV. *)
Definition eight_structures : list Z :=
  wire_attr
    [L3Service 0
       [SidInformation 0 (sample_sid ++ [0; 0; 18; 0])
          (map (fun b => SubSubTlv SRV6_SID_STRUCTURE_SUB_SUB_TLV 0
                           [b; 0; 0; 0; 0; 0])
               [1; 2; 3; 4; 5; 6; 7; 8])]].

(** An SRv6 L3 Service TLV of length 5 whose only sub-TLV (type 2)
    declares length 25, that is 28 bytes against a budget of 4; then a
    TLV of type 9 whose value holds, after 20 filler bytes, the image of
    a SID Information sub-TLV and two empty sub-TLVs of type 0. *)
Definition overlong_sub_tlv : list Z :=
  [5; 0; 5; 0; 2; 0; 25; 0]
  ++ wire_tlv 9 0
       (repeat 0 20 ++ wire_tlv 1 0 (sample_sid ++ [0; 0; 18; 0])
        ++ [0; 0; 1; 0] ++ [0; 0; 1; 0]).


(** The attribute of the shape above for arbitrary field values. *)
Definition single_sid_attr (r1 r2 : Z) (sid : list Z)
  (flags eb_hi eb_lo r3 r4 : Z) (structure : list Z) : list Z :=
  wire_attr
    [L3Service r1
       [SidInformation r2 (sid ++ [flags; eb_hi; eb_lo; r3])
          [SubSubTlv SRV6_SID_STRUCTURE_SUB_SUB_TLV r4 structure]]].

(** A node that only holds a value. *)
Definition leaf (value : string) : ptree := Node value [].

(** A top-level TLV of a type the decoder does not know. *)
Definition unrecognized (t : top_tlv) : Prop :=
  match t with
  | L3Service _ _ => False
  | OtherTlv _ _ _ => True
  end.


(** Two SRv6 L3 Service TLVs; the first holds two SID Information
    sub-TLVs (behaviours 18 and 19), the first of which holds two SID
    Structure sub-sub-TLVs (block lengths 1 and 2). *)
Definition two_of_each : list Z :=
  wire_attr
    [L3Service 0
       [SidInformation 0 (sample_sid ++ [0; 0; 18; 0])
          [SubSubTlv SRV6_SID_STRUCTURE_SUB_SUB_TLV 0 [1; 0; 0; 0; 0; 0];
           SubSubTlv SRV6_SID_STRUCTURE_SUB_SUB_TLV 0 [2; 0; 0; 0; 0; 0]];
        SidInformation 0 (sample_sid ++ [0; 0; 19; 0]) []];
     L3Service 0 []].


(** ** Auxiliary notions for further properties *)

(** Keys in strictly increasing order. *)
Fixpoint increasing (keys : list Z) : bool :=
  match keys with
  | [] => true
  | k :: rest => forallb (Z.ltb k) rest && increasing rest
  end.


(** The children the top-level walk is to produce for a complete
    attribute laid out from [data]: for every SRv6 L3 Service TLV, in
    order, the result of parseSRv6L3ServiceTLV on its value. *)
Fixpoint top_children (mem : memory) (data : Z) (tlvs : list top_tlv)
  : list (string * ptree) :=
  match tlvs with
  | [] => []
  | t :: rest =>
      match t with
      | L3Service _ subs =>
          [("srv6_l3_service",
            tree (parseSRv6L3ServiceTLV mem
                    (Z.of_nat (List.length (flat_map wire_sub subs)))
                    (data + 4)))]
      | OtherTlv _ _ _ => []
      end
      ++ top_children mem (data + Z.of_nat (List.length (wire_top t))) rest
  end.

Definition is_l3_service (t : top_tlv) : bool :=
  match t with L3Service _ _ => true | OtherTlv _ _ _ => false end.


(** The keys of the two kinds of record nodes, in the order of the
    [put] calls. *)
Definition sid_information_keys : list string :=
  ["sid_value"; "service_sid_flags"; "endpoint_behavior_codepoint";
   "endpoint_behavior"].

Definition sid_structure_keys : list string :=
  ["locator_block_length"; "locator_node_length"; "function_length";
   "argument_length"; "transposition_length"; "transposition_offset"].

(** A [sid_structure] child: six valued entries. *)
Definition structure_child (kc : string * ptree) : Prop :=
  fst kc = "sid_structure" /\ keys (snd kc) = sid_structure_keys.

(** A [sid_information] node: the four valued entries, then at most
    seven [sid_structure] children. *)
Definition sid_information_shape (t : ptree) : Prop :=
  exists scalars structures,
    children t = scalars ++ structures
    /\ map fst scalars = sid_information_keys
    /\ Forall (fun kc => children (snd kc) = []) scalars
    /\ Forall structure_child structures
    /\ (List.length structures <= 7)%nat.

Definition information_child (kc : string * ptree) : Prop :=
  fst kc = "sid_information" /\ sid_information_shape (snd kc).


(** ** The tree a complete attribute stands for *)

(** The low eight bits, what an [u_char] load sees of a memory cell. *)
Definition byte_of (z : Z) : Z := z mod 256.

Definition structure_node (value : list Z) : ptree :=
  Node EmptyString
    [("locator_block_length", leaf (dec (byte_of (nth 0 value 0))));
     ("locator_node_length", leaf (dec (byte_of (nth 1 value 0))));
     ("function_length", leaf (dec (byte_of (nth 2 value 0))));
     ("argument_length", leaf (dec (byte_of (nth 3 value 0))));
     ("transposition_length", leaf (dec (byte_of (nth 4 value 0))));
     ("transposition_offset", leaf (dec (byte_of (nth 5 value 0))))].

Definition structure_children (subsubs : list sub_sub_tlv)
  : list (string * ptree) :=
  flat_map
    (fun t =>
       match t with
       | SubSubTlv type _ value =>
           if type =? SRV6_SID_STRUCTURE_SUB_SUB_TLV
           then [("sid_structure", structure_node value)] else []
       end)
    subsubs.

(** [fixed]: the 16 SID bytes, the flags, the two bytes of the endpoint
    behaviour (high byte first) and a reserved byte. *)
Definition information_node (fixed : list Z) (subsubs : list sub_sub_tlv)
  : ptree :=
  let behavior :=
    byte_of (nth 17 fixed 0) * 256 + byte_of (nth 18 fixed 0) in
  Node EmptyString
    ([("sid_value", leaf (inet_ntop6 (map byte_of (firstn 16 fixed))));
      ("service_sid_flags", leaf (dec (byte_of (nth 16 fixed 0))));
      ("endpoint_behavior_codepoint", leaf (dec behavior));
      ("endpoint_behavior",
       leaf (endpoint_behavior_codepoint_to_name behavior))]
     ++ structure_children subsubs).

Definition information_children (subs : list sub_tlv)
  : list (string * ptree) :=
  flat_map
    (fun t =>
       match t with
       | SidInformation _ fixed subsubs =>
           [("sid_information", information_node fixed subsubs)]
       | OtherSubTlv _ _ _ => []
       end)
    subs.

Definition service_children (tlvs : list top_tlv) : list (string * ptree) :=
  flat_map
    (fun t =>
       match t with
       | L3Service _ subs =>
           [("srv6_l3_service", Node EmptyString (information_children subs))]
       | OtherTlv _ _ _ => []
       end)
    tlvs.

(** Within the reach of the sibling counters: at most three
    sub-sub-TLVs in a SID Information sub-TLV, at most four sub-TLVs in
    an SRv6 L3 Service TLV. *)
Definition few_subsubs (t : sub_tlv) : Prop :=
  match t with
  | SidInformation _ _ subsubs => (List.length subsubs <= 3)%nat
  | OtherSubTlv _ _ _ => True
  end.

Definition few_subs (t : top_tlv) : Prop :=
  match t with
  | L3Service _ subs => (List.length subs <= 4)%nat /\ Forall few_subsubs subs
  | OtherTlv _ _ _ => True
  end.

(** ** Notions for whole attributes *)

(** The memory seen from [d] bytes further on. *)
Definition moved (d : Z) (mem : memory) : memory := fun a => mem (a + d).

(** Two walks in step, the second [d] bytes further on than the first. *)
Definition subtlv_moved (d : Z) (s s' : subtlv_walk) : Prop :=
  subtlv_len s' = subtlv_len s /\ sub_data s' = sub_data s + d
  /\ subtlv_cnt s' = subtlv_cnt s /\ outer_tlv_cnt s' = outer_tlv_cnt s
  /\ sub_pt s' = sub_pt s
  /\ sub_loads s' = map (fun a => a + d) (sub_loads s).

Definition tlv_moved (d : Z) (s s' : tlv_walk) : Prop :=
  tlv_len s' = tlv_len s /\ tlv_data s' = tlv_data s + d
  /\ tlv_cnt s' = tlv_cnt s /\ tlv_pt s' = tlv_pt s
  /\ tlv_loads s' = map (fun a => a + d) (tlv_loads s).

Definition attr_moved (d : Z) (s s' : attr_walk) : Prop :=
  attr_len s' = attr_len s /\ attr_data s' = attr_data s + d
  /\ attr_pt s' = attr_pt s
  /\ attr_loads s' = map (fun a => a + d) (attr_loads s).

Definition is_sid_information (t : sub_tlv) : bool :=
  match t with SidInformation _ _ _ => true | OtherSubTlv _ _ _ => false end.

Definition is_sid_structure (t : sub_sub_tlv) : bool :=
  match t with
  | SubSubTlv type _ _ => type =? SRV6_SID_STRUCTURE_SUB_SUB_TLV
  end.

(** The node of a SID Structure sub-sub-TLV. *)
Definition structure_of (t : sub_sub_tlv) : ptree :=
  match t with SubSubTlv _ _ value => structure_node value end.

(** A [sid_information] node beside the sub-TLV it was made from: it
    carries the fields of that sub-TLV and, after them, one
    [sid_structure] child for each of its SID Structure sub-sub-TLVs,
    in their order. *)
Definition information_siblings (node : ptree) (t : sub_tlv) : Prop :=
  match t with
  | SidInformation _ fixed subsubs =>
      node = information_node fixed subsubs
      /\ keys node
         = sid_information_keys
           ++ repeat "sid_structure"
                (List.length (filter is_sid_structure subsubs))
      /\ get_children "sid_structure" node
         = map structure_of (filter is_sid_structure subsubs)
  | OtherSubTlv _ _ _ => False
  end.

(** An [srv6_l3_service] node beside the TLV it was made from: one
    [sid_information] child for each of its SID Information sub-TLVs,
    in their order. *)
Definition service_siblings (node : ptree) (t : top_tlv) : Prop :=
  match t with
  | L3Service _ subs =>
      keys node
      = repeat "sid_information"
          (List.length (filter is_sid_information subs))
      /\ Forall2 information_siblings (get_children "sid_information" node)
           (filter is_sid_information subs)
  | OtherTlv _ _ _ => False
  end.

(** One SRv6 L3 Service TLV with five SID Information sub-TLVs, of
    endpoint behaviours 1 to 5: 124 bytes. *)
Definition five_informations : list top_tlv :=
  [L3Service 0
     (map (fun b => SidInformation 0 (sample_sid ++ [0; 0; b; 0]) [])
        [1; 2; 3; 4; 5])].

(** An SRv6 L3 Service TLV with four SID Information sub-TLVs of three
    SID Structure sub-sub-TLVs each, and an empty one: 224 bytes. *)
Definition four_by_three : list top_tlv :=
  [L3Service 0
     (map (fun b =>
             SidInformation 0 (sample_sid ++ [0; 0; b; 0])
               (map (fun k => SubSubTlv SRV6_SID_STRUCTURE_SUB_SUB_TLV 0
                                [k; 0; 0; 0; 0; 0])
                    [1; 2; 3]))
        [1; 2; 3; 4]);
   L3Service 0 []].

(** * Properties *)

(** ** Loops on fuel *)

Section WhileDo.

Context {St : Type}.
Variable cond : St -> bool.
Variable body : St -> St * bool.

Lemma while_do_exit (fuel : nat) (s : St) :
  cond s = false -> while_do cond body fuel s = Some s.
Proof. intros H. destruct fuel; simpl; rewrite H; reflexivity. Qed.

Lemma while_do_unfold (fuel : nat) (s : St) :
  cond s = true ->
  while_do cond body (S fuel) s =
  if snd (body s) then Some (fst (body s))
  else while_do cond body fuel (fst (body s)).
Proof. intros H. simpl. rewrite H. destruct (body s); reflexivity. Qed.

(** More fuel does not change a result. *)
Lemma while_do_more_fuel (fuel : nat) :
  forall (s r : St) (fuel' : nat),
    while_do cond body fuel s = Some r -> (fuel <= fuel')%nat ->
    while_do cond body fuel' s = Some r.
Proof.
  induction fuel as [|fuel IH]; intros s r fuel' H Hle.
  - simpl in H. destruct (cond s) eqn:Hc; [discriminate|].
    rewrite while_do_exit; assumption.
  - destruct (cond s) eqn:Hc.
    + destruct fuel' as [|fuel']; [lia|].
      rewrite while_do_unfold in * by assumption.
      destruct (snd (body s)); [assumption|].
      apply IH; [assumption | lia].
    + rewrite while_do_exit in * by assumption. assumption.
Qed.

(** A property kept by the body holds when the loop is left. *)
Lemma while_do_invariant (I : St -> Prop) :
  (forall s, I s -> cond s = true -> I (fst (body s))) ->
  forall (fuel : nat) (s r : St),
    I s -> while_do cond body fuel s = Some r -> I r.
Proof.
  intros Hstep. induction fuel as [|fuel IH]; intros s r Hs H.
  - simpl in H. destruct (cond s); [discriminate|].
    injection H as <-. assumption.
  - destruct (cond s) eqn:Hc.
    + rewrite while_do_unfold in H by assumption.
      specialize (Hstep s Hs Hc).
      destruct (snd (body s)).
      * injection H as <-. assumption.
      * exact (IH _ _ Hstep H).
    + rewrite while_do_exit in H by assumption.
      injection H as <-. assumption.
Qed.

Lemma run_loop_invariant (I : St -> Prop) :
  (forall s, I s -> cond s = true -> I (fst (body s))) ->
  forall (fuel : nat) (s : St), I s -> I (run_loop cond body fuel s).
Proof.
  intros Hstep fuel s Hs. unfold run_loop.
  destruct (while_do cond body fuel s) eqn:H; [|assumption].
  eapply while_do_invariant; eassumption.
Qed.

(** Termination: under an invariant, every iteration that does not
    leave through [break] lowers a measure that is positive whenever the
    condition holds. *)
Lemma while_do_terminates (I : St -> Prop) (mu : St -> nat) :
  (forall s, I s -> cond s = true -> (0 < mu s)%nat) ->
  (forall s, I s -> cond s = true ->
     snd (body s) = true
     \/ (I (fst (body s)) /\ (mu (fst (body s)) < mu s)%nat)) ->
  forall (fuel : nat) (s : St),
    I s -> (mu s <= fuel)%nat -> exists r, while_do cond body fuel s = Some r.
Proof.
  intros Hpos Hstep. induction fuel as [|fuel IH]; intros s Hs Hmu.
  - destruct (cond s) eqn:Hc.
    + specialize (Hpos s Hs Hc). lia.
    + exists s. apply while_do_exit; assumption.
  - destruct (cond s) eqn:Hc.
    + rewrite while_do_unfold by assumption.
      destruct (Hstep s Hs Hc) as [Hb | [Hi Hlt]].
      * rewrite Hb. eauto.
      * destruct (snd (body s)); [eauto|].
        apply IH; [assumption | lia].
    + exists s. apply while_do_exit; assumption.
Qed.

(** With enough fuel, [run_loop] does not depend on the fuel. *)
Lemma run_loop_more_fuel (fuel fuel' : nat) (s : St) :
  (exists r, while_do cond body fuel s = Some r) -> (fuel <= fuel')%nat ->
  run_loop cond body fuel' s = run_loop cond body fuel s.
Proof.
  intros [r H] Hle. unfold run_loop.
  rewrite (while_do_more_fuel fuel s r fuel' H Hle), H. reflexivity.
Qed.

End WhileDo.

(** ** Headers *)

Lemma load_byte (mem : memory) (a : Z) : 0 <= load mem a < 256.
Proof. unfold load. apply Z.mod_pos_bound. lia. Qed.

Lemma read_header_eq (mem : memory) (data : Z) :
  read_header mem data =
  mk_tlv (load mem data) (load mem (data + 1) * 256 + load mem (data + 2))
         (load mem (data + 3)).
Proof.
  unfold read_header, readData, uint8_of, uint16_of.
  cbn -[Z.mul Z.add load].
  rewrite !Z.add_0_r. replace (data + 1 + 1) with (data + 2) by lia.
  f_equal. lia.
Qed.

Lemma header_loads_eq (data : Z) :
  header_loads data = [data; data + 2; data + 1; data + 3].
Proof.
  unfold header_loads. cbn -[Z.add]. rewrite !Z.add_0_r.
  replace (data + 1 + 1) with (data + 2) by lia. reflexivity.
Qed.

(** A 16-bit length is never negative. *)
Lemma len_range (mem : memory) (data : Z) :
  0 <= len (read_header mem data) <= 65535.
Proof.
  rewrite read_header_eq. simpl.
  pose proof (load_byte mem (data + 1)). pose proof (load_byte mem (data + 2)).
  lia.
Qed.

Lemma type_range (mem : memory) (data : Z) :
  0 <= type (read_header mem data) <= 255.
Proof.
  rewrite read_header_eq. simpl. pose proof (load_byte mem data). lia.
Qed.

(** ** One iteration of each loop *)

Lemma attr_body_len (mem : memory) (s : attr_walk) :
  attr_len (fst (attr_body mem s)) =
  attr_len s - (len (read_header mem (attr_data s)) + 3).
Proof. unfold attr_body. destruct (type _ =? _); reflexivity. Qed.

Lemma attr_body_data (mem : memory) (s : attr_walk) :
  attr_data (fst (attr_body mem s)) =
  attr_data s + (len (read_header mem (attr_data s)) + 3).
Proof. unfold attr_body. destruct (type _ =? _); simpl; lia. Qed.

Lemma attr_body_no_break (mem : memory) (s : attr_walk) :
  snd (attr_body mem s) = false.
Proof. unfold attr_body. destruct (type _ =? _); reflexivity. Qed.

Lemma subtlv_body_len (mem : memory) (s : subtlv_walk) :
  subtlv_len (fst (subtlv_body mem s)) =
  subtlv_len s - (len (read_header mem (sub_data s)) + 3).
Proof.
  unfold subtlv_body.
  destruct (type _ =? _); destruct (subtlv_cnt s + 1 >? 3); reflexivity.
Qed.

Lemma subtlv_body_data (mem : memory) (s : subtlv_walk) :
  sub_data (fst (subtlv_body mem s)) =
  sub_data s + (len (read_header mem (sub_data s)) + 3).
Proof.
  unfold subtlv_body.
  destruct (type _ =? _); destruct (subtlv_cnt s + 1 >? 3); simpl; lia.
Qed.

Lemma subtlv_body_cnt (mem : memory) (s : subtlv_walk) :
  subtlv_cnt (fst (subtlv_body mem s)) = subtlv_cnt s + 1.
Proof.
  unfold subtlv_body.
  destruct (type _ =? _); destruct (subtlv_cnt s + 1 >? 3); reflexivity.
Qed.

(** The inner loop never lowers the enclosing loop's counter. *)
Lemma subtlv_body_outer_cnt (mem : memory) (s : subtlv_walk) :
  outer_tlv_cnt s <= outer_tlv_cnt (fst (subtlv_body mem s)).
Proof.
  unfold subtlv_body.
  destruct (type _ =? _); destruct (subtlv_cnt s + 1 >? 3); simpl; lia.
Qed.

Lemma subtlv_run_outer_cnt (mem : memory) (fuel : nat) (s : subtlv_walk) :
  outer_tlv_cnt s <=
  outer_tlv_cnt (run_loop subtlv_cond (subtlv_body mem) fuel s).
Proof.
  apply (run_loop_invariant subtlv_cond (subtlv_body mem)
           (fun r => outer_tlv_cnt s <= outer_tlv_cnt r)); [|lia].
  intros r Hr _. pose proof (subtlv_body_outer_cnt mem r). lia.
Qed.

Lemma tlv_body_len (mem : memory) (s : tlv_walk) :
  tlv_len (fst (tlv_body mem s)) =
  tlv_len s - (len (read_header mem (tlv_data s)) + 3).
Proof. unfold tlv_body. destruct (type _ =? _); reflexivity. Qed.

Lemma tlv_body_data (mem : memory) (s : tlv_walk) :
  tlv_data (fst (tlv_body mem s)) =
  tlv_data s + (len (read_header mem (tlv_data s)) + 3).
Proof. unfold tlv_body. destruct (type _ =? _); simpl; lia. Qed.

(** Every iteration of the sub-TLV loop raises [tlv_cnt], by one or by
    one more than the inner loop added. *)
Lemma tlv_body_cnt (mem : memory) (s : tlv_walk) :
  tlv_cnt s + 1 <= tlv_cnt (fst (tlv_body mem s)).
Proof.
  unfold tlv_body. destruct (type _ =? _); cbn [fst tlv_cnt]; [|lia].
  unfold inner_walk.
  match goal with
  | |- context [run_loop subtlv_cond (subtlv_body mem) ?f ?s0] =>
      pose proof (subtlv_run_outer_cnt mem f s0) as H
  end.
  cbn [outer_tlv_cnt] in H. lia.
Qed.

Lemma tlv_body_break (mem : memory) (s : tlv_walk) :
  snd (tlv_body mem s) = (tlv_cnt (fst (tlv_body mem s)) >? 3).
Proof. unfold tlv_body. destruct (type _ =? _); reflexivity. Qed.

(** Every iteration lowers its budget by at least 3 and at most 65538,
    so from a 32-bit start the budgets stay within [int]. *)
Lemma budget_step_range (mem : memory) :
  (forall s, attr_len s - 65538 <= attr_len (fst (attr_body mem s))
             <= attr_len s - 3)
  /\ (forall s, tlv_len s - 65538 <= tlv_len (fst (tlv_body mem s))
                <= tlv_len s - 3)
  /\ (forall s, subtlv_len s - 65538 <= subtlv_len (fst (subtlv_body mem s))
                <= subtlv_len s - 3).
Proof.
  split; [|split]; intros s.
  - rewrite attr_body_len. pose proof (len_range mem (attr_data s)). lia.
  - rewrite tlv_body_len. pose proof (len_range mem (tlv_data s)). lia.
  - rewrite subtlv_body_len. pose proof (len_range mem (sub_data s)). lia.
Qed.

(** ** Termination *)

Lemma fuel_step (n k : Z) :
  0 < n -> 3 <= k ->
  (Z.to_nat ((n - k + 2) / 3) < Z.to_nat ((n + 2) / 3))%nat.
Proof.
  intros Hn Hk.
  assert (H1 : (n - k + 2) / 3 <= (n - 3 + 2) / 3)
    by (apply Z.div_le_mono; lia).
  replace (n - 3 + 2) with (n + 2 + (-1) * 3) in H1 by lia.
  rewrite Z.div_add in H1 by lia.
  assert (H2 : 1 <= (n + 2) / 3) by (apply Z.div_le_lower_bound; lia).
  lia.
Qed.

Lemma fuel_pos (n : Z) : 0 < n -> (0 < Z.to_nat ((n + 2) / 3))%nat.
Proof.
  intros Hn.
  assert (H2 : 1 <= (n + 2) / 3) by (apply Z.div_le_lower_bound; lia).
  lia.
Qed.

Lemma attr_loop_terminates (mem : memory) (fuel : nat) (s : attr_walk) :
  (attr_fuel (attr_len s) <= fuel)%nat ->
  exists r, attr_loop mem fuel s = Some r.
Proof.
  intros Hf. unfold attr_loop.
  apply (while_do_terminates attr_cond (attr_body mem) (fun _ => True)
           (fun s => attr_fuel (attr_len s))); trivial.
  - intros s0 _ Hc. unfold attr_cond in Hc. apply fuel_pos. lia.
  - intros s0 _ Hc. right. split; [exact I|].
    unfold attr_cond in Hc. rewrite attr_body_len. unfold attr_fuel.
    pose proof (len_range mem (attr_data s0)).
    apply fuel_step; lia.
Qed.

Lemma subtlv_loop_terminates (mem : memory) (fuel : nat) (s : subtlv_walk) :
  (subtlv_fuel (subtlv_len s) <= fuel)%nat ->
  exists r, subtlv_loop mem fuel s = Some r.
Proof.
  intros Hf. unfold subtlv_loop.
  apply (while_do_terminates subtlv_cond (subtlv_body mem) (fun _ => True)
           (fun s => subtlv_fuel (subtlv_len s))); trivial.
  - intros s0 _ Hc. unfold subtlv_cond in Hc. apply fuel_pos. lia.
  - intros s0 _ Hc. right. split; [exact I|].
    unfold subtlv_cond in Hc. rewrite subtlv_body_len. unfold subtlv_fuel.
    pose proof (len_range mem (sub_data s0)).
    apply fuel_step; lia.
Qed.

(** From a counter between 0 and 3 the sub-TLV loop needs at most
    [4 - tlv_cnt] iterations, whatever [tlv_len] is. *)
Lemma tlv_loop_terminates (mem : memory) (fuel : nat) (s : tlv_walk) :
  tlv_cnt s <= 3 -> (Z.to_nat (4 - tlv_cnt s) <= fuel)%nat ->
  exists r, tlv_loop mem fuel s = Some r.
Proof.
  intros Hc Hf. unfold tlv_loop.
  apply (while_do_terminates tlv_cond (tlv_body mem)
           (fun s => tlv_cnt s <= 3) (fun s => Z.to_nat (4 - tlv_cnt s)));
    trivial.
  - intros s0 H0 _. lia.
  - intros s0 H0 _. rewrite tlv_body_break.
    pose proof (tlv_body_cnt mem s0).
    destruct (tlv_cnt (fst (tlv_body mem s0)) >? 3) eqn:E; [left; reflexivity|].
    right. split; lia.
Qed.

(** C9: both decode functions terminate on every input.  Each top-level
    iteration lowers [attr_len] by at least 3, and ceil(attr_len/3)
    iterations suffice for the top-level loop; the sub-TLV loop of
    parseSRv6L3ServiceTLV needs at most 4 iterations for every
    [tlv_len], negative ones included, although its condition only
    tests for non-zero; each iteration of the sub-sub-TLV loop lowers
    [subtlv_len] by at least 3 and ceil(subtlv_len/3) iterations
    suffice. *)
Theorem decode_loops_terminate (mem : memory) :
  (forall s, attr_len (fst (attr_body mem s)) <= attr_len s - 3)
  /\ (forall attr_len data pt loads, exists r,
        attr_loop mem (Z.to_nat ((attr_len + 2) / 3))
          (mk_attr_walk attr_len data pt loads) = Some r)
  /\ (forall s, tlv_cond s = negb (tlv_len s =? 0))
  /\ (forall tlv_len data pt loads, exists r,
        tlv_loop mem 4 (mk_tlv_walk tlv_len data 0 pt loads) = Some r)
  /\ (forall s, subtlv_cond s = (subtlv_len s >? 0))
  /\ (forall s, subtlv_len (fst (subtlv_body mem s)) <= subtlv_len s - 3)
  /\ (forall s, exists r,
        subtlv_loop mem (Z.to_nat ((subtlv_len s + 2) / 3)) s = Some r).
Proof.
  repeat split.
  - intros s. rewrite attr_body_len.
    pose proof (len_range mem (attr_data s)). lia.
  - intros n data pt loads. apply attr_loop_terminates. simpl. reflexivity.
  - intros n data pt loads. apply tlv_loop_terminates; simpl; lia.
  - intros s. rewrite subtlv_body_len.
    pose proof (len_range mem (sub_data s)). lia.
  - intros s. apply subtlv_loop_terminates. reflexivity.
Qed.

(** ** Endpoint behaviour names *)

Lemma switch_case_unlisted (code : Z) (cases : list (Z * string)) :
  existsb (fun c => code =? fst c) cases = false ->
  switch_case code cases = None.
Proof.
  induction cases as [|[c name] rest IH]; simpl; [reflexivity|].
  intros H. apply orb_false_elim in H as [H1 H2].
  rewrite H1. apply IH. exact H2.
Qed.

Lemma listed_small (code : Z) :
  explicitly_listed code = true ->
  code <= 157 \/ code = 32767 \/ code = 65535.
Proof.
  unfold explicitly_listed. intros H.
  apply existsb_exists in H as [[c name] [Hin Heq]].
  apply Z.eqb_eq in Heq. simpl in Heq. subst c.
  assert (Hall : forallb (fun c => (fst c <=? 157) || (fst c =? 32767)
                                   || (fst c =? 65535))
                   endpoint_behavior_cases = true) by reflexivity.
  rewrite forallb_forall in Hall. specialize (Hall _ Hin). simpl in Hall.
  apply orb_true_iff in Hall as [Hall | Hall];
    [apply orb_true_iff in Hall as [Hall | Hall]|]; lia.
Qed.

Lemma unlisted_name (code : Z) :
  explicitly_listed code = false ->
  endpoint_behavior_codepoint_to_name code =
  if (32768 <=? code) && (code <=? 34815) then "Reserved for Private Use"
  else if (34816 <=? code) && (code <=? 65534) then "Reserved"
  else "Unassigned".
Proof.
  intros H. unfold endpoint_behavior_codepoint_to_name.
  rewrite switch_case_unlisted by exact H. reflexivity.
Qed.

Lemma range_unlisted (code : Z) :
  32768 <= code <= 65534 -> explicitly_listed code = false.
Proof.
  intros H. destruct (explicitly_listed code) eqn:E; [|reflexivity].
  apply listed_small in E. lia.
Qed.

(** C4: the name lookup is a function defined on every 16-bit code;
    1 is "End", 20 is "End.DT46", the codes 32768..34815 (33000 among
    them) are "Reserved for Private Use", the codes 34816..65534 (40000
    among them) are "Reserved", and a code that has no case label and
    lies in neither range (9999 for one) is "Unassigned". *)
Theorem endpoint_behavior_codepoint_to_name_spec :
  endpoint_behavior_codepoint_to_name 1 = "End"
  /\ endpoint_behavior_codepoint_to_name 20 = "End.DT46"
  /\ endpoint_behavior_codepoint_to_name 33000 = "Reserved for Private Use"
  /\ endpoint_behavior_codepoint_to_name 40000 = "Reserved"
  /\ endpoint_behavior_codepoint_to_name 9999 = "Unassigned"
  /\ (forall code, 32768 <= code <= 34815 ->
        endpoint_behavior_codepoint_to_name code = "Reserved for Private Use")
  /\ (forall code, 34816 <= code <= 65534 ->
        endpoint_behavior_codepoint_to_name code = "Reserved")
  /\ (forall code, 0 <= code <= 65535 ->
        explicitly_listed code = false ->
        ~ 32768 <= code <= 65534 ->
        endpoint_behavior_codepoint_to_name code = "Unassigned")
  /\ (forall code, 0 <= code <= 65535 ->
        exists name, endpoint_behavior_codepoint_to_name code = name
                     /\ name <> EmptyString).
Proof.
  repeat match goal with |- _ /\ _ => split end; try reflexivity.
  - intros code H. rewrite unlisted_name by (apply range_unlisted; lia).
    replace (32768 <=? code) with true by (symmetry; apply Z.leb_le; lia).
    replace (code <=? 34815) with true by (symmetry; apply Z.leb_le; lia).
    reflexivity.
  - intros code H. rewrite unlisted_name by (apply range_unlisted; lia).
    replace (code <=? 34815) with false by (symmetry; apply Z.leb_gt; lia).
    replace (34816 <=? code) with true by (symmetry; apply Z.leb_le; lia).
    replace (code <=? 65534) with true by (symmetry; apply Z.leb_le; lia).
    rewrite andb_false_r. reflexivity.
  - intros code H Hl Hr. rewrite unlisted_name by exact Hl.
    destruct (Z.leb_spec 32768 code) as [Hge | Hlt]; simpl.
    + assert (code = 65535) by lia. subst code. discriminate Hl.
    + replace (34816 <=? code) with false by (symmetry; apply Z.leb_gt; lia).
      reflexivity.
  - intros code _. eexists. split; [reflexivity|].
    unfold endpoint_behavior_codepoint_to_name.
    destruct (switch_case code endpoint_behavior_cases) as [name|] eqn:E.
    + assert (Hall : forallb (fun c => negb (String.eqb (snd c) EmptyString))
                       endpoint_behavior_cases = true) by reflexivity.
      rewrite forallb_forall in Hall.
      assert (Hin : exists c, In (c, name) endpoint_behavior_cases).
      { clear Hall. induction endpoint_behavior_cases as [|[c n] rest IH];
          simpl in E; [discriminate|].
        destruct (code =? c).
        - injection E as ->. exists c. left. reflexivity.
        - destruct (IH E) as [c' Hc']. exists c'. right. exact Hc'. }
      destruct Hin as [c Hin]. specialize (Hall _ Hin). simpl in Hall.
      intros ->. discriminate.
    + destruct ((32768 <=? code) && (code <=? 34815)); [discriminate|].
      destruct ((34816 <=? code) && (code <=? 65534)); discriminate.
Qed.

Lemma endpoint_behavior_codepoint_to_name_spec_witness :
  endpoint_behavior_codepoint_to_name 32768 = "Reserved for Private Use"
  /\ endpoint_behavior_codepoint_to_name 65534 = "Reserved"
  /\ endpoint_behavior_codepoint_to_name 84 = "Unassigned".
Proof.
  pose proof endpoint_behavior_codepoint_to_name_spec
    as (_ & _ & _ & _ & _ & Hp & Hr & Hu & _).
  split; [apply Hp; lia|]. split; [apply Hr; lia|].
  apply Hu; [lia | reflexivity | lia].
Defined.

(** ** readData *)

Lemma readData_down_length (data : Z) (n : nat) :
  List.length (readData_down data n) = n.
Proof. induction n; simpl; congruence. Qed.

Lemma readData_up_length (data i : Z) (n : nat) :
  List.length (readData_up data i n) = n.
Proof. revert i. induction n; intros i; simpl; congruence. Qed.

Lemma readData_down_nth (data : Z) (n : nat) :
  forall j, (j < n)%nat ->
    nth j (readData_down data n) 0 = data + Z.of_nat (n - 1 - j).
Proof.
  induction n as [|i IH]; intros j Hj; [lia|].
  destruct j as [|j]; cbn [readData_down nth].
  - do 2 f_equal. lia.
  - rewrite IH by lia. do 2 f_equal. lia.
Qed.

Lemma readData_up_nth (data : Z) (n : nat) :
  forall i j, (j < n)%nat ->
    nth j (readData_up data i n) 0 = data + (i + Z.of_nat j).
Proof.
  induction n as [|k IH]; intros i j Hj; [lia|].
  destruct j as [|j]; simpl readData_up; cbn [nth].
  - f_equal. lia.
  - rewrite IH by lia. f_equal. lia.
Qed.

Lemma readData_loads_length (data : Z) (size : nat) (order : bool) :
  List.length (readData_loads data size order) = size.
Proof.
  destruct order; simpl;
    [apply readData_down_length | apply readData_up_length].
Qed.

Lemma readData_nth (mem : memory) (data : Z) (size : nat) (order : bool)
  (j : nat) :
  (j < size)%nat ->
  nth j (readData mem data size order) 0 =
  load mem (nth j (readData_loads data size order) 0).
Proof.
  intros Hj. unfold readData.
  rewrite (nth_indep _ 0 (load mem 0))
    by (rewrite length_map, readData_loads_length; exact Hj).
  apply map_nth.
Qed.

(** C7: with [host_byte_order] set, readData stores the source bytes in
    reverse, field[j] = data[size-1-j]; for one byte that is the plain
    copy; with the flag cleared it copies in order, field[j] = data[j].
    The sub-TLV decoder reads the 16-byte SID in order, and the two-byte
    length and endpoint behaviour reversed, which on the little-endian
    host gives the big-endian value of the two wire bytes. *)
Theorem readData_byte_order (mem : memory) (data : Z) :
  (forall size j, (j < size)%nat ->
     nth j (readData mem data size true) 0 =
     load mem (data + Z.of_nat (size - 1 - j)))
  /\ readData mem data 1 true = readData mem data 1 false
  /\ (forall size j, (j < size)%nat ->
        nth j (readData mem data size false) 0 = load mem (data + Z.of_nat j))
  /\ sid_value (read_sid_information mem data) =
     map (fun i => load mem (data + Z.of_nat i)) (seq 0 16)
  /\ readData mem (data + 17) 2 true =
     [load mem (data + 18); load mem (data + 17)]
  /\ endpoint_behavior (read_sid_information mem data) =
     load mem (data + 17) * 256 + load mem (data + 18)
  /\ readData mem (data + 1) 2 true = [load mem (data + 2); load mem (data + 1)]
  /\ len (read_header mem data) = load mem (data + 1) * 256 + load mem (data + 2).
Proof.
  repeat match goal with |- _ /\ _ => split end.
  - intros size j Hj. rewrite readData_nth by exact Hj.
    simpl. rewrite readData_down_nth by exact Hj. reflexivity.
  - unfold readData. simpl. reflexivity.
  - intros size j Hj. rewrite readData_nth by exact Hj.
    simpl. rewrite readData_up_nth by exact Hj. reflexivity.
  - unfold read_sid_information, readData. cbn -[Z.add load].
    repeat (f_equal; [f_equal; lia|]). reflexivity.
  - unfold readData. cbn -[Z.add load]. rewrite Z.add_0_r.
    replace (data + 17 + 1) with (data + 18) by lia. reflexivity.
  - unfold read_sid_information, readData, uint16_of. cbn -[Z.add Z.mul load].
    rewrite Z.add_0_r. replace (data + 17 + 1) with (data + 18) by lia. lia.
  - unfold readData. cbn -[Z.add load]. rewrite Z.add_0_r.
    replace (data + 1 + 1) with (data + 2) by lia. reflexivity.
  - rewrite read_header_eq. reflexivity.
Qed.

Lemma readData_byte_order_witness :
  nth 0 (readData (buffer_mem [7; 8; 9]) 0 3 true) 0 = 9
  /\ nth 2 (readData (buffer_mem [7; 8; 9]) 0 3 false) 0 = 9.
Proof.
  pose proof (readData_byte_order (buffer_mem [7; 8; 9]) 0)
    as (Hrev & _ & Hfwd & _).
  split.
  - rewrite (Hrev 3%nat 0%nat) by lia. reflexivity.
  - rewrite (Hfwd 3%nat 2%nat) by lia. reflexivity.
Defined.

(** ** What a walk depends on *)

Lemma agree_app (mem mem' : memory) (l1 l2 : list Z) :
  agree mem mem' (l1 ++ l2) <-> agree mem mem' l1 /\ agree mem mem' l2.
Proof. apply Forall_app. Qed.

Lemma readData_agree (mem mem' : memory) (data : Z) (size : nat)
  (order : bool) :
  agree mem mem' (readData_loads data size order) ->
  readData mem' data size order = readData mem data size order.
Proof.
  unfold readData, agree. intros H. apply map_ext_in.
  rewrite Forall_forall in H. exact H.
Qed.

Lemma read_header_agree (mem mem' : memory) (data : Z) :
  agree mem mem' (header_loads data) ->
  read_header mem' data = read_header mem data.
Proof.
  unfold header_loads, read_header. intros H.
  apply agree_app in H as [H1 H]. apply agree_app in H as [H2 H3].
  rewrite !(readData_agree mem mem') by assumption. reflexivity.
Qed.

Lemma read_sid_structure_agree (mem mem' : memory) (data : Z) :
  agree mem mem' (sid_structure_loads data) ->
  read_sid_structure mem' data = read_sid_structure mem data.
Proof.
  unfold sid_structure_loads, read_sid_structure, agree. intros H.
  repeat match goal with
         | H : Forall _ (_ :: _) |- _ => inversion_clear H
         end.
  congruence.
Qed.

Lemma read_sid_information_agree (mem mem' : memory) (data : Z) :
  agree mem mem' (sid_information_loads data) ->
  read_sid_information mem' data = read_sid_information mem data.
Proof.
  unfold sid_information_loads, read_sid_information. intros H.
  apply agree_app in H as [H1 H]. apply agree_app in H as [H2 H].
  apply agree_app in H as [H3 H4].
  rewrite !(readData_agree mem mem') by assumption. reflexivity.
Qed.

Section Footprint.

Context {St : Type}.
Variable cond : St -> bool.
Variable body : memory -> St -> St * bool.
Variable lds : St -> list Z.

Hypothesis body_extends :
  forall mem s, exists e, lds (fst (body mem s)) = lds s ++ e.
Hypothesis body_agree :
  forall mem mem' s,
    agree mem mem' (lds (fst (body mem s))) -> body mem' s = body mem s.

Lemma while_do_extends (mem : memory) (fuel : nat) (s r : St) :
  while_do cond (body mem) fuel s = Some r -> exists e, lds r = lds s ++ e.
Proof.
  apply (while_do_invariant cond (body mem)
           (fun r => exists e, lds r = lds s ++ e)).
  - intros s0 [e He] _. destruct (body_extends mem s0) as [e' He'].
    exists (e ++ e'). rewrite He', He, app_assoc. reflexivity.
  - exists []. rewrite app_nil_r. reflexivity.
Qed.

Lemma run_loop_extends (mem : memory) (fuel : nat) (s : St) :
  exists e, lds (run_loop cond (body mem) fuel s) = lds s ++ e.
Proof.
  unfold run_loop. destruct (while_do cond (body mem) fuel s) eqn:H.
  - eapply while_do_extends. exact H.
  - exists []. rewrite app_nil_r. reflexivity.
Qed.

Lemma while_do_agree (mem mem' : memory) (fuel : nat) :
  forall s r,
    while_do cond (body mem) fuel s = Some r -> agree mem mem' (lds r) ->
    while_do cond (body mem') fuel s = Some r.
Proof.
  induction fuel as [|fuel IH]; intros s r H Ha.
  - simpl in *. destruct (cond s); [discriminate | exact H].
  - destruct (cond s) eqn:Hc.
    + rewrite while_do_unfold in * by assumption.
      assert (Hb : body mem' s = body mem s).
      { apply body_agree. destruct (snd (body mem s)).
        - injection H as <-. exact Ha.
        - apply while_do_extends in H as [e He]. rewrite He in Ha.
          apply agree_app in Ha. tauto. }
      rewrite Hb. destruct (snd (body mem s)); [exact H|].
      apply IH; assumption.
    + rewrite while_do_exit in * by assumption. exact H.
Qed.

Lemma run_loop_agree (mem mem' : memory) (fuel : nat) (s : St) :
  (exists r, while_do cond (body mem) fuel s = Some r) ->
  agree mem mem' (lds (run_loop cond (body mem) fuel s)) ->
  run_loop cond (body mem') fuel s = run_loop cond (body mem) fuel s.
Proof.
  intros [r Hr]. unfold run_loop. rewrite Hr. intros Ha.
  rewrite (while_do_agree mem mem' fuel s r Hr Ha). reflexivity.
Qed.

End Footprint.

Lemma subtlv_body_loads (mem : memory) (s : subtlv_walk) :
  sub_loads (fst (subtlv_body mem s)) =
  sub_loads s ++ header_loads (sub_data s)
  ++ (if type (read_header mem (sub_data s)) =? SRV6_SID_STRUCTURE_SUB_SUB_TLV
      then sid_structure_loads (sub_data s + 4) else []).
Proof.
  unfold subtlv_body.
  destruct (type _ =? _); destruct (subtlv_cnt s + 1 >? 3); reflexivity.
Qed.

Lemma subtlv_body_extends (mem : memory) (s : subtlv_walk) :
  exists e, sub_loads (fst (subtlv_body mem s)) = sub_loads s ++ e.
Proof. rewrite subtlv_body_loads. eauto. Qed.

Lemma subtlv_body_agree (mem mem' : memory) (s : subtlv_walk) :
  agree mem mem' (sub_loads (fst (subtlv_body mem s))) ->
  subtlv_body mem' s = subtlv_body mem s.
Proof.
  rewrite subtlv_body_loads. intros H.
  apply agree_app in H as [_ H]. apply agree_app in H as [Hh H].
  unfold subtlv_body. rewrite (read_header_agree mem mem') by exact Hh.
  destruct (type _ =? _); [|reflexivity].
  rewrite (read_sid_structure_agree mem mem') by exact H. reflexivity.
Qed.

Lemma tlv_body_loads (mem : memory) (s : tlv_walk) :
  tlv_loads (fst (tlv_body mem s)) =
  tlv_loads s ++ header_loads (tlv_data s)
  ++ (if type (read_header mem (tlv_data s)) =? SRV6_SID_INFORMATION_SUB_TLV
      then sid_information_loads (tlv_data s + 4)
           ++ sub_loads (inner_walk mem (read_header mem (tlv_data s))
                           (tlv_data s + 4) (tlv_cnt s))
      else []).
Proof. unfold tlv_body. destruct (type _ =? _); reflexivity. Qed.

Lemma tlv_body_extends (mem : memory) (s : tlv_walk) :
  exists e, tlv_loads (fst (tlv_body mem s)) = tlv_loads s ++ e.
Proof. rewrite tlv_body_loads. eauto. Qed.

Lemma tlv_body_agree (mem mem' : memory) (s : tlv_walk) :
  agree mem mem' (tlv_loads (fst (tlv_body mem s))) ->
  tlv_body mem' s = tlv_body mem s.
Proof.
  rewrite tlv_body_loads. intros H.
  apply agree_app in H as [_ H]. apply agree_app in H as [Hh H].
  unfold tlv_body. rewrite (read_header_agree mem mem') by exact Hh.
  destruct (type _ =? _); [|reflexivity].
  apply agree_app in H as [Hi Hs]. unfold inner_walk in *. cbv zeta in *.
  rewrite (read_sid_information_agree mem mem') by exact Hi.
  rewrite (run_loop_agree subtlv_cond subtlv_body sub_loads
             subtlv_body_extends subtlv_body_agree mem mem');
    [reflexivity | | exact Hs].
  apply subtlv_loop_terminates. reflexivity.
Qed.

Lemma parseSRv6L3ServiceTLV_agree (mem mem' : memory) (tlv_len data : Z) :
  agree mem mem' (loads (parseSRv6L3ServiceTLV mem tlv_len data)) ->
  parseSRv6L3ServiceTLV mem' tlv_len data =
  parseSRv6L3ServiceTLV mem tlv_len data.
Proof.
  unfold parseSRv6L3ServiceTLV. cbn [loads]. intros H.
  rewrite (run_loop_agree tlv_cond tlv_body tlv_loads
             tlv_body_extends tlv_body_agree mem mem');
    [reflexivity | | exact H].
  apply (tlv_loop_terminates mem 4 (mk_tlv_walk tlv_len data 0 empty []));
    simpl; lia.
Qed.

Lemma attr_body_loads (mem : memory) (s : attr_walk) :
  attr_loads (fst (attr_body mem s)) =
  attr_loads s ++ header_loads (attr_data s)
  ++ (if type (read_header mem (attr_data s))
         =? BGP_PREFIX_SID_TLV_TYPE_SRV6_L3_SERVICE_TLV
      then loads (parseSRv6L3ServiceTLV mem
                    (len (read_header mem (attr_data s)) - 1)
                    (attr_data s + 4))
      else []).
Proof. unfold attr_body. destruct (type _ =? _); reflexivity. Qed.

Lemma attr_body_extends (mem : memory) (s : attr_walk) :
  exists e, attr_loads (fst (attr_body mem s)) = attr_loads s ++ e.
Proof. rewrite attr_body_loads. eauto. Qed.

Lemma attr_body_agree (mem mem' : memory) (s : attr_walk) :
  agree mem mem' (attr_loads (fst (attr_body mem s))) ->
  attr_body mem' s = attr_body mem s.
Proof.
  rewrite attr_body_loads. intros H.
  apply agree_app in H as [_ H]. apply agree_app in H as [Hh H].
  unfold attr_body. rewrite (read_header_agree mem mem') by exact Hh.
  destruct (type _ =? _); [|reflexivity].
  rewrite (parseSRv6L3ServiceTLV_agree mem mem') by exact H. reflexivity.
Qed.

Lemma decode_attr_agree (mem mem' : memory) (attr_len data : Z) :
  agree mem mem' (loads (decode_attr mem attr_len data)) ->
  decode_attr mem' attr_len data = decode_attr mem attr_len data.
Proof.
  unfold decode_attr. cbn [loads]. intros H.
  rewrite (run_loop_agree attr_cond attr_body attr_loads
             attr_body_extends attr_body_agree mem mem');
    [reflexivity | | exact H].
  apply attr_loop_terminates. reflexivity.
Qed.

(** ** Complete attributes are decoded inside the buffer *)

Lemma holds_app_l (mem : memory) (data : Z) (a b : list Z) :
  holds mem data (a ++ b) -> holds mem data a.
Proof.
  intros H i Hi. rewrite H by (rewrite length_app; lia).
  apply app_nth1. exact Hi.
Qed.

Lemma holds_app_r (mem : memory) (data : Z) (a b : list Z) :
  holds mem data (a ++ b) -> holds mem (data + Z.of_nat (List.length a)) b.
Proof.
  intros H i Hi.
  replace (data + Z.of_nat (List.length a) + Z.of_nat i)
    with (data + Z.of_nat (List.length a + i)) by lia.
  rewrite H by (rewrite length_app; lia).
  apply app_nth2_plus.
Qed.

Lemma holds_buffer (buf : list Z) : holds (buffer_mem buf) 0 buf.
Proof.
  intros i Hi. unfold buffer_mem. simpl.
  destruct (Z.ltb_spec (Z.of_nat i) 0); [lia|].
  rewrite Nat2Z.id. reflexivity.
Qed.

Lemma wire_tlv_length (type reserved : Z) (value : list Z) :
  List.length (wire_tlv type reserved value) = (4 + List.length value)%nat.
Proof. reflexivity. Qed.

Lemma holds_header (mem : memory) (data type0 reserved0 : Z)
  (value rest : list Z) :
  holds mem data (wire_tlv type0 reserved0 value ++ rest) ->
  is_byte type0 -> fits value ->
  type (read_header mem data) = type0
  /\ len (read_header mem data) = 1 + Z.of_nat (List.length value).
Proof.
  intros H Ht Hf. apply holds_app_l in H.
  pose proof (H 0%nat) as H0. pose proof (H 1%nat) as H1.
  pose proof (H 2%nat) as H2.
  rewrite wire_tlv_length in H0, H1, H2.
  unfold wire_tlv in H0, H1, H2. cbn [nth] in H0, H1, H2.
  change (Z.of_nat 0) with 0 in H0. rewrite Z.add_0_r in H0.
  change (Z.of_nat 1) with 1 in H1. change (Z.of_nat 2) with 2 in H2.
  rewrite read_header_eq. unfold load. cbn [type len].
  rewrite H0, H1, H2 by lia.
  unfold is_byte in Ht. unfold fits in Hf.
  set (n := 1 + Z.of_nat (List.length value)) in *.
  split; [apply Z.mod_small; lia|].
  rewrite Z.mod_mod by lia.
  rewrite (Z.mod_small (n / 256))
    by (split; [apply Z.div_pos; lia | apply Z.div_lt_upper_bound; lia]).
  pose proof (Z.div_mod n 256). lia.
Qed.

Lemma holds_value (mem : memory) (data type0 reserved0 : Z)
  (value rest : list Z) :
  holds mem data (wire_tlv type0 reserved0 value ++ rest) ->
  holds mem (data + 4) value.
Proof.
  intros H i Hi. apply holds_app_l in H.
  replace (data + 4 + Z.of_nat i) with (data + Z.of_nat (4 + i)) by lia.
  rewrite H by (rewrite wire_tlv_length; lia). reflexivity.
Qed.

Lemma within_weaken (lo hi lo' hi' : Z) (l : list Z) :
  Forall (within lo hi) l -> lo' <= lo -> hi <= hi' ->
  Forall (within lo' hi') l.
Proof.
  intros H Hlo Hhi. eapply Forall_impl; [|exact H].
  unfold within. intros a Ha. lia.
Qed.

Lemma header_loads_within (data : Z) :
  Forall (within data (data + 4)) (header_loads data).
Proof.
  rewrite header_loads_eq. unfold within.
  repeat constructor; lia.
Qed.

Lemma sid_structure_loads_within (data : Z) :
  Forall (within data (data + 6)) (sid_structure_loads data).
Proof. unfold sid_structure_loads, within. repeat constructor; lia. Qed.

Lemma readData_down_within (data : Z) (n : nat) :
  Forall (within data (data + Z.of_nat n)) (readData_down data n).
Proof.
  induction n as [|i IH]; simpl readData_down; constructor.
  - unfold within. lia.
  - eapply within_weaken; [exact IH | lia | lia].
Qed.

Lemma readData_up_within (data : Z) (n : nat) :
  forall i, 0 <= i ->
    Forall (within data (data + i + Z.of_nat n)) (readData_up data i n).
Proof.
  induction n as [|k IH]; intros i Hi; simpl readData_up; constructor.
  - unfold within. lia.
  - eapply within_weaken; [apply (IH (i + 1)); lia | lia | lia].
Qed.

Lemma readData_loads_within (data : Z) (size : nat) (order : bool) :
  Forall (within data (data + Z.of_nat size)) (readData_loads data size order).
Proof.
  destruct order; simpl.
  - apply readData_down_within.
  - eapply within_weaken; [apply (readData_up_within data size 0); lia | |];
      lia.
Qed.

Lemma sid_information_loads_within (data : Z) :
  Forall (within data (data + 20)) (sid_information_loads data).
Proof.
  unfold sid_information_loads.
  repeat (apply Forall_app; split);
    (eapply within_weaken; [apply readData_loads_within | |]); simpl; lia.
Qed.

Lemma subtlv_inv_step (mem : memory) (lo hi : Z) (s : subtlv_walk) :
  subtlv_inv mem lo hi s -> subtlv_cond s = true ->
  subtlv_inv mem lo hi (fst (subtlv_body mem s)).
Proof.
  intros (Hlo & Hl & rest & Hc & Hh & Hlen & Hhi) Hcond.
  unfold subtlv_cond in Hcond.
  destruct rest as [|[ty r v] rest']; [simpl in Hlen; lia|].
  cbn [flat_map wire_sub_sub] in Hh, Hlen.
  inversion_clear Hc as [|? ? Hx Hc']. destruct Hx as (Hty & Hfit & Hsix).
  destruct (holds_header _ _ _ _ _ _ Hh Hty Hfit) as [Etype Elen].
  rewrite length_app, wire_tlv_length in Hlen.
  unfold subtlv_inv.
  rewrite subtlv_body_data, subtlv_body_len, subtlv_body_loads, Elen, Etype.
  split; [lia|]. split.
  - apply Forall_app; split; [exact Hl|]. apply Forall_app; split.
    + eapply within_weaken; [apply header_loads_within | lia | lia].
    + destruct (ty =? SRV6_SID_STRUCTURE_SUB_SUB_TLV) eqn:E; [|constructor].
      apply Z.eqb_eq in E. specialize (Hsix E).
      eapply within_weaken; [apply sid_structure_loads_within | lia | lia].
  - exists rest'. split; [exact Hc'|]. split.
    + apply holds_app_r in Hh. rewrite wire_tlv_length in Hh.
      replace (sub_data s + (1 + Z.of_nat (List.length v) + 3))
        with (sub_data s + Z.of_nat (4 + List.length v)) by lia.
      exact Hh.
    + split; lia.
Qed.

Lemma tlv_inv_step (mem : memory) (lo hi : Z) (s : tlv_walk) :
  tlv_inv mem lo hi s -> tlv_cond s = true ->
  tlv_inv mem lo hi (fst (tlv_body mem s)).
Proof.
  intros (Hlo & Hl & rest & Hc & Hh & Hlen & Hhi) Hcond.
  unfold tlv_cond in Hcond. apply negb_true_iff, Z.eqb_neq in Hcond.
  destruct rest as [|x rest']; [simpl in Hlen; lia|].
  cbn [flat_map] in Hh, Hlen.
  inversion_clear Hc as [|? ? Hx Hc'].
  assert (Hw : exists ty r v,
             wire_sub x = wire_tlv ty r v /\ is_byte ty /\ fits v
             /\ (ty = SRV6_SID_INFORMATION_SUB_TLV ->
                 exists fixed subsubs,
                   v = fixed ++ flat_map wire_sub_sub subsubs
                   /\ List.length fixed = 20%nat
                   /\ Forall complete_sub_sub subsubs)).
  { destruct x as [r fixed subsubs | ty r v]; simpl in Hx.
    - exists SRV6_SID_INFORMATION_SUB_TLV, r,
        (fixed ++ flat_map wire_sub_sub subsubs).
      split; [reflexivity|]. split; [unfold is_byte, SRV6_SID_INFORMATION_SUB_TLV; lia|].
      split; [tauto|]. intros _. exists fixed, subsubs. tauto.
    - exists ty, r, v. split; [reflexivity|]. split; [tauto|].
      split; [tauto|]. intros E. tauto. }
  destruct Hw as (ty & r & v & Ew & Hty & Hfit & Hinfo). rewrite Ew in Hh, Hlen.
  destruct (holds_header _ _ _ _ _ _ Hh Hty Hfit) as [Etype Elen].
  rewrite length_app, wire_tlv_length in Hlen.
  unfold tlv_inv.
  rewrite tlv_body_data, tlv_body_len, tlv_body_loads, Elen, Etype.
  split; [lia|]. split.
  - apply Forall_app; split; [exact Hl|]. apply Forall_app; split.
    + eapply within_weaken; [apply header_loads_within | lia | lia].
    + destruct (ty =? SRV6_SID_INFORMATION_SUB_TLV) eqn:E; [|constructor].
      apply Z.eqb_eq in E.
      destruct (Hinfo E) as (fixed & subsubs & Ev & Hfix & Hss).
      assert (Hv : List.length v
                   = (20 + List.length (flat_map wire_sub_sub subsubs))%nat)
        by (rewrite Ev, length_app, Hfix; reflexivity).
      apply Forall_app; split.
      * eapply within_weaken;
          [apply sid_information_loads_within | lia | lia].
      * unfold inner_walk. rewrite Elen.
        set (s0 := mk_subtlv_walk _ _ _ _ _ _).
        assert (Hinv : subtlv_inv mem (tlv_data s + 24)
                         (tlv_data s + 4 + Z.of_nat (List.length v)) s0).
        { unfold subtlv_inv, s0. cbn [sub_data sub_loads subtlv_len].
          split; [lia|]. split; [constructor|].
          exists subsubs. split; [exact Hss|]. split; [|split; lia].
          apply holds_value in Hh. rewrite Ev in Hh.
          apply holds_app_r in Hh. rewrite Hfix in Hh. exact Hh. }
        pose proof (run_loop_invariant subtlv_cond (subtlv_body mem)
                      (subtlv_inv mem (tlv_data s + 24)
                         (tlv_data s + 4 + Z.of_nat (List.length v)))
                      (subtlv_inv_step mem _ _)
                      (subtlv_fuel (1 + Z.of_nat (List.length v) - 21))
                      s0 Hinv) as (_ & Hin & _).
        eapply within_weaken; [exact Hin | lia | lia].
  - exists rest'. split; [exact Hc'|]. split.
    + apply holds_app_r in Hh. rewrite wire_tlv_length in Hh.
      replace (tlv_data s + (1 + Z.of_nat (List.length v) + 3))
        with (tlv_data s + Z.of_nat (4 + List.length v)) by lia.
      exact Hh.
    + split; lia.
Qed.

Lemma attr_inv_step (mem : memory) (lo hi : Z) (s : attr_walk) :
  attr_inv mem lo hi s -> attr_cond s = true ->
  attr_inv mem lo hi (fst (attr_body mem s)).
Proof.
  intros (Hlo & Hl & rest & Hc & Hh & Hlen & Hhi) Hcond.
  unfold attr_cond in Hcond.
  destruct rest as [|x rest']; [simpl in Hlen; lia|].
  unfold wire_attr in Hh, Hlen. cbn [flat_map] in Hh, Hlen.
  inversion_clear Hc as [|? ? Hx Hc'].
  assert (Hw : exists ty r v,
             wire_top x = wire_tlv ty r v /\ is_byte ty /\ fits v
             /\ (ty = BGP_PREFIX_SID_TLV_TYPE_SRV6_L3_SERVICE_TLV ->
                 exists subs,
                   v = flat_map wire_sub subs /\ Forall complete_sub subs)).
  { destruct x as [r subs | ty r v]; simpl in Hx.
    - exists BGP_PREFIX_SID_TLV_TYPE_SRV6_L3_SERVICE_TLV, r,
        (flat_map wire_sub subs).
      split; [reflexivity|].
      split; [unfold is_byte, BGP_PREFIX_SID_TLV_TYPE_SRV6_L3_SERVICE_TLV; lia|].
      split; [tauto|]. intros _. exists subs. tauto.
    - exists ty, r, v. split; [reflexivity|]. split; [tauto|].
      split; [tauto|]. intros E. tauto. }
  destruct Hw as (ty & r & v & Ew & Hty & Hfit & Hl3). rewrite Ew in Hh, Hlen.
  destruct (holds_header _ _ _ _ _ _ Hh Hty Hfit) as [Etype Elen].
  rewrite length_app, wire_tlv_length in Hlen.
  unfold attr_inv.
  rewrite attr_body_data, attr_body_len, attr_body_loads, Elen, Etype.
  split; [lia|]. split.
  - apply Forall_app; split; [exact Hl|]. apply Forall_app; split.
    + eapply within_weaken; [apply header_loads_within | lia | lia].
    + destruct (ty =? BGP_PREFIX_SID_TLV_TYPE_SRV6_L3_SERVICE_TLV) eqn:E;
        [|constructor].
      apply Z.eqb_eq in E. destruct (Hl3 E) as (subs & Ev & Hsubs).
      unfold parseSRv6L3ServiceTLV. cbn [loads].
      set (s0 := mk_tlv_walk _ _ _ _ _).
      assert (Hinv : tlv_inv mem (attr_data s + 4)
                       (attr_data s + 4 + Z.of_nat (List.length v)) s0).
      { unfold tlv_inv, s0. cbn [tlv_data tlv_loads tlv_len].
        split; [lia|]. split; [constructor|].
        exists subs. split; [exact Hsubs|]. rewrite <- Ev.
        split; [|split; lia].
        apply holds_value in Hh. exact Hh. }
      pose proof (run_loop_invariant tlv_cond (tlv_body mem)
                    (tlv_inv mem (attr_data s + 4)
                       (attr_data s + 4 + Z.of_nat (List.length v)))
                    (tlv_inv_step mem _ _) 4 s0 Hinv) as (_ & Hin & _).
      eapply within_weaken; [exact Hin | lia | lia].
  - exists rest'. split; [exact Hc'|]. split.
    + apply holds_app_r in Hh. rewrite wire_tlv_length in Hh.
      replace (attr_data s + (1 + Z.of_nat (List.length v) + 3))
        with (attr_data s + Z.of_nat (4 + List.length v)) by lia.
      exact Hh.
    + unfold wire_attr. split; lia.
Qed.

Lemma readData_loads_exact (data : Z) (size : nat) (order : bool) (a : Z) :
  In a (readData_loads data size order) <-> data <= a < data + Z.of_nat size.
Proof.
  split.
  - intros H. pose proof (readData_loads_within data size order) as Hw.
    rewrite Forall_forall in Hw. exact (Hw a H).
  - intros H.
    assert (Hj : (Z.to_nat (a - data) < size)%nat) by lia.
    destruct order; simpl.
    + pose proof (readData_down_nth data size (size - 1 - Z.to_nat (a - data))
                    ltac:(lia)) as Hn.
      replace (data + Z.of_nat (size - 1 - (size - 1 - Z.to_nat (a - data))))
        with a in Hn by lia.
      rewrite <- Hn. apply nth_In. rewrite readData_down_length. lia.
    + pose proof (readData_up_nth data size 0 (Z.to_nat (a - data)) Hj) as Hn.
      replace (data + (0 + Z.of_nat (Z.to_nat (a - data)))) with a in Hn by lia.
      rewrite <- Hn. apply nth_In. rewrite readData_up_length. lia.
Qed.

(** Against C1 as stated.  On a buffer cut short the decoder loads past
    the end: the attribute of 38 bytes cut to 32, decoded with the
    length 32, has the six bytes of the SID Structure read from the
    addresses 32 to 37; the tree shows a [sid_structure] that the buffer
    does not contain, and its values are whatever lies behind the
    buffer. *)
Lemma truncated_attr_overread :
  ~ Forall (within 0 (Z.of_nat (List.length truncated_attr)))
      (loads (decode_attr (buffer_mem truncated_attr) 32 0))
  /\ In 37 (loads (decode_attr (buffer_mem truncated_attr) 32 0))
  /\ option_map keys
       (get_child "sid_structure"
          (hd empty
             (get_children "sid_information"
                (hd empty
                   (get_children "srv6_l3_service"
                      (tree (decode_attr (buffer_mem truncated_attr) 32 0)))))))
     = Some ["locator_block_length"; "locator_node_length"; "function_length";
             "argument_length"; "transposition_length";
             "transposition_offset"]
  /\ tree (decode_attr (buffer_mem (truncated_attr ++ [7; 7; 7; 7; 7; 7])) 32 0)
     <> tree (decode_attr (buffer_mem truncated_attr) 32 0).
Proof.
  assert (Hin : In 37 (loads (decode_attr (buffer_mem truncated_attr) 32 0)))
    by (vm_compute; tauto).
  split; [|split; [exact Hin | split; [reflexivity|]]].
  - intros H. rewrite Forall_forall in H. specialize (H 37 Hin).
    unfold within in H. vm_compute in H. destruct H as [_ H]. discriminate H.
  - intros H. vm_compute in H. discriminate H.
Qed.

Lemma decode_attr_loads_within (tlvs : list top_tlv) (mem : memory)
  (data : Z) :
  Forall complete_top tlvs ->
  holds mem data (wire_attr tlvs) ->
  Forall (within data (data + Z.of_nat (List.length (wire_attr tlvs))))
    (loads (decode_attr mem (Z.of_nat (List.length (wire_attr tlvs))) data)).
Proof.
  intros Hc Hh. unfold decode_attr. cbn [loads].
  set (n := Z.of_nat (List.length (wire_attr tlvs))).
  assert (Hinv : attr_inv mem data (data + n) (mk_attr_walk n data empty [])).
  { unfold attr_inv. cbn [attr_data attr_loads attr_len].
    split; [lia|]. split; [constructor|].
    exists tlvs. split; [exact Hc|]. split; [exact Hh|]. split; reflexivity. }
  pose proof (run_loop_invariant attr_cond (attr_body mem)
                (attr_inv mem data (data + n)) (attr_inv_step mem _ _)
                (attr_fuel n) _ Hinv) as (_ & Hin & _).
  exact Hin.
Qed.

(** C1, as the code has it: readData makes no bounds check and cannot
    fail, it loads exactly the [size] addresses from [data] on; and when
    the buffer holds a complete attribute (every element wholly inside
    its parent, with the length the parent leaves for it) decoded with
    its own length, every load falls inside the buffer. *)
Theorem complete_attr_loads_within :
  (forall data size order a,
     In a (readData_loads data size order)
     <-> data <= a < data + Z.of_nat size)
  /\ (forall (tlvs : list top_tlv) (mem : memory) (data : Z),
        Forall complete_top tlvs ->
        holds mem data (wire_attr tlvs) ->
        Forall (within data (data + Z.of_nat (List.length (wire_attr tlvs))))
          (loads (decode_attr mem (Z.of_nat (List.length (wire_attr tlvs)))
                    data))).
Proof.
  split; [exact readData_loads_exact | exact decode_attr_loads_within].
Qed.

Lemma sample_tlvs_complete : Forall complete_top sample_tlvs.
Proof.
  unfold sample_tlvs, complete_top, complete_sub, complete_sub_sub, fits,
    is_byte, SRV6_SID_STRUCTURE_SUB_SUB_TLV.
  repeat constructor; simpl; lia.
Qed.

Lemma complete_attr_loads_within_witness :
  Forall (within 0 38) (loads (decode_attr (buffer_mem sample_attr) 38 0)).
Proof.
  exact (proj2 complete_attr_loads_within sample_tlvs (buffer_mem sample_attr)
           0 sample_tlvs_complete (holds_buffer sample_attr)).
Defined.

(** ** One SID Information with one SID Structure *)

(** C5: for every attribute made of one SRv6 L3 Service TLV holding one
    SID Information sub-TLV followed by one SID Structure sub-sub-TLV,
    with consistent lengths, the tree is
    srv6_l3_service / sid_information with [sid_value] the IPv6 text of
    the 16 SID bytes, the flags, the endpoint behaviour code and its
    name, and a [sid_structure] child with exactly the six one-byte
    fields, equal to the payload bytes. *)
Theorem single_sid_information_decoded (r1 r2 r3 r4 : Z) (sid : list Z)
  (flags eb_hi eb_lo b1 b2 b3 b4 b5 b6 : Z) :
  List.length sid = 16%nat ->
  Forall is_byte sid ->
  Forall is_byte [flags; eb_hi; eb_lo; b1; b2; b3; b4; b5; b6] ->
  tree (decode_attr
          (buffer_mem (single_sid_attr r1 r2 sid flags eb_hi eb_lo r3 r4
                         [b1; b2; b3; b4; b5; b6]))
          38 0) =
  Node EmptyString
    [("srv6_l3_service",
      Node EmptyString
        [("sid_information",
          Node EmptyString
            [("sid_value", leaf (inet_ntop6 sid));
             ("service_sid_flags", leaf (dec flags));
             ("endpoint_behavior_codepoint", leaf (dec (eb_hi * 256 + eb_lo)));
             ("endpoint_behavior",
              leaf (endpoint_behavior_codepoint_to_name (eb_hi * 256 + eb_lo)));
             ("sid_structure",
              Node EmptyString
                [("locator_block_length", leaf (dec b1));
                 ("locator_node_length", leaf (dec b2));
                 ("function_length", leaf (dec b3));
                 ("argument_length", leaf (dec b4));
                 ("transposition_length", leaf (dec b5));
                 ("transposition_offset", leaf (dec b6))])])])].
Proof.
  intros Hlen Hsid Hb.
  do 17 (destruct sid as [|? sid]; try discriminate Hlen). clear Hlen.
  repeat match goal with
         | H : Forall is_byte (_ :: _) |- _ => inversion_clear H
         | H : Forall is_byte [] |- _ => clear H
         end.
  unfold is_byte in *.
  with_strategy opaque [inet_ntop6 dec endpoint_behavior_codepoint_to_name]
    simpl.
  unfold read_sid_structure, read_sid_information, sid_structure_pt,
    sid_information_pt, readData, uint8_of, uint16_of, load, buffer_mem.
  with_strategy opaque
    [inet_ntop6 dec endpoint_behavior_codepoint_to_name Z.mul] simpl.
  rewrite !Z.mod_small by assumption.
  replace (eb_lo + 256 * eb_hi) with (eb_hi * 256 + eb_lo) by lia.
  reflexivity.
Qed.

Lemma sample_bytes : Forall is_byte sample_sid
  /\ Forall is_byte [0; 0; 18; 32; 16; 16; 0; 0; 0].
Proof. unfold sample_sid, is_byte. split; repeat constructor; lia. Qed.

(** The attribute for 2001:db8::1 with behaviour 18 and block 32. *)
Lemma single_sid_information_decoded_witness :
  tree (decode_attr (buffer_mem sample_attr) 38 0) =
  Node EmptyString
    [("srv6_l3_service",
      Node EmptyString
        [("sid_information",
          Node EmptyString
            [("sid_value", leaf "2001:db8::1");
             ("service_sid_flags", leaf "0");
             ("endpoint_behavior_codepoint", leaf "18");
             ("endpoint_behavior", leaf "End.DT6");
             ("sid_structure",
              Node EmptyString
                [("locator_block_length", leaf "32");
                 ("locator_node_length", leaf "16");
                 ("function_length", leaf "16");
                 ("argument_length", leaf "0");
                 ("transposition_length", leaf "0");
                 ("transposition_offset", leaf "0")])])])].
Proof.
  exact (single_sid_information_decoded 0 0 0 0 sample_sid 0 0 18
           32 16 16 0 0 0 eq_refl (proj1 sample_bytes) (proj2 sample_bytes)).
Defined.

(** ** Top-level TLVs *)

Lemma attr_body_skip (mem : memory) (s : attr_walk) :
  type (read_header mem (attr_data s))
  <> BGP_PREFIX_SID_TLV_TYPE_SRV6_L3_SERVICE_TLV ->
  attr_pt (fst (attr_body mem s)) = attr_pt s
  /\ attr_loads (fst (attr_body mem s)) =
     attr_loads s ++ header_loads (attr_data s).
Proof.
  intros H. apply Z.eqb_neq in H. unfold attr_body. rewrite H.
  cbn [fst attr_pt attr_loads]. rewrite app_nil_r. split; reflexivity.
Qed.

(** ** Siblings under one key *)

Lemma attr_body_l3_service (mem : memory) (s : attr_walk) :
  type (read_header mem (attr_data s))
  = BGP_PREFIX_SID_TLV_TYPE_SRV6_L3_SERVICE_TLV ->
  attr_pt (fst (attr_body mem s)) =
  add_child "srv6_l3_service"
    (tree (parseSRv6L3ServiceTLV mem
             (len (read_header mem (attr_data s)) - 1) (attr_data s + 4)))
    (attr_pt s).
Proof.
  intros H. apply Z.eqb_eq in H. unfold attr_body. rewrite H. reflexivity.
Qed.

Lemma attr_body_keeps (mem : memory) (s : attr_walk) :
  exists added,
    children (attr_pt (fst (attr_body mem s))) = children (attr_pt s) ++ added.
Proof.
  unfold attr_body. destruct (type _ =? _); cbn [fst attr_pt].
  - eexists. reflexivity.
  - exists []. rewrite app_nil_r. reflexivity.
Qed.

Lemma attr_body_appends (mem : memory) (s : attr_walk) :
  exists added,
    children (attr_pt (fst (attr_body mem s))) = children (attr_pt s) ++ added
    /\ Forall (fun kc => fst kc = "srv6_l3_service") added.
Proof.
  unfold attr_body. destruct (type _ =? _); cbn [fst attr_pt].
  - eexists. split; [reflexivity|]. repeat constructor.
  - exists []. rewrite app_nil_r. split; [reflexivity | constructor].
Qed.

Lemma tlv_body_appends (mem : memory) (s : tlv_walk) :
  exists added,
    children (tlv_pt (fst (tlv_body mem s))) = children (tlv_pt s) ++ added
    /\ Forall (fun kc => fst kc = "sid_information") added.
Proof.
  unfold tlv_body. destruct (type _ =? _); cbn [fst tlv_pt].
  - eexists. split; [reflexivity|]. repeat constructor.
  - exists []. rewrite app_nil_r. split; [reflexivity | constructor].
Qed.

Lemma subtlv_body_appends (mem : memory) (s : subtlv_walk) :
  exists added,
    children (sub_pt (fst (subtlv_body mem s))) = children (sub_pt s) ++ added
    /\ Forall (fun kc => fst kc = "sid_structure") added.
Proof.
  unfold subtlv_body.
  destruct (type _ =? _); destruct (subtlv_cnt s + 1 >? 3); cbn [fst sub_pt];
    first [ exists []; rewrite app_nil_r; split; [reflexivity | constructor]
          | eexists; split; [reflexivity|]; repeat constructor ].
Qed.

Section Appends.

Context {St : Type}.
Variable cond : St -> bool.
Variable body : St -> St * bool.
Variable pt_of : St -> ptree.
Variable key : string.

Hypothesis body_appends :
  forall s, exists added,
    children (pt_of (fst (body s))) = children (pt_of s) ++ added
    /\ Forall (fun kc => fst kc = key) added.

(** A loop whose body only appends children under a key only appends
    children under that key. *)
Lemma while_do_appends (fuel : nat) (s r : St) :
  while_do cond body fuel s = Some r ->
  exists added,
    children (pt_of r) = children (pt_of s) ++ added
    /\ Forall (fun kc => fst kc = key) added.
Proof.
  apply (while_do_invariant cond body
           (fun r => exists added,
                children (pt_of r) = children (pt_of s) ++ added
                /\ Forall (fun kc => fst kc = key) added)).
  - intros s0 (a & Ha & Hk) _. destruct (body_appends s0) as (a' & Ha' & Hk').
    exists (a ++ a'). rewrite Ha', Ha, app_assoc. split; [reflexivity|].
    apply Forall_app. split; assumption.
  - exists []. rewrite app_nil_r. split; [reflexivity | constructor].
Qed.

End Appends.

(** ** The sibling counters *)

(** Against C3 as stated.  Five TLVs at the top level are all
    processed: four iterations do not finish the loop, and the tree has
    five children. *)
Lemma five_tlvs_all_processed :
  attr_loop (buffer_mem five_tlvs) 4 (mk_attr_walk 20 0 empty []) = None
  /\ keys (tree (decode_attr (buffer_mem five_tlvs) 20 0))
     = ["srv6_l3_service"; "srv6_l3_service"; "srv6_l3_service";
        "srv6_l3_service"; "srv6_l3_service"]
  /\ ~ (forall (mem : memory) (attr_len data : Z),
          exists r, attr_loop mem 4 (mk_attr_walk attr_len data empty [])
                    = Some r).
Proof.
  assert (H : attr_loop (buffer_mem five_tlvs) 4 (mk_attr_walk 20 0 empty [])
              = None) by (vm_compute; reflexivity).
  split; [exact H|]. split; [vm_compute; reflexivity|].
  intros Hall. destruct (Hall (buffer_mem five_tlvs) 20 0) as [r Hr].
  rewrite H in Hr. discriminate Hr.
Qed.

(** Inside one SID Information sub-TLV the inner loop goes through seven
    sub-sub-TLVs before it stops: its own counter passes 3 at the
    fourth, and from then on it is the enclosing loop's [tlv_cnt] that
    is raised and tested. *)
Lemma eight_structures_seven_decoded :
  map (get "locator_block_length")
    (get_children "sid_structure"
       (hd empty
          (get_children "sid_information"
             (hd empty
                (get_children "srv6_l3_service"
                   (tree (decode_attr (buffer_mem eight_structures)
                            (Z.of_nat (List.length eight_structures)) 0)))))))
  = [Some "1"; Some "2"; Some "3"; Some "4"; Some "5"; Some "6"; Some "7"].
Proof. vm_compute. reflexivity. Qed.

(** C3, as the code has it: in parseSRv6L3ServiceTLV every sub-TLV
    processed raises [tlv_cnt] by at least one, the loop is left as soon
    as [tlv_cnt] exceeds 3, and so a call processes at most four
    sub-TLVs; the top-level loop has no counter, it never breaks and
    ends only when [attr_len] is used up, after at most ceil(attr_len/3)
    TLVs. *)
Theorem sub_tlv_walk_bounded (mem : memory) :
  (forall s, tlv_cnt s + 1 <= tlv_cnt (fst (tlv_body mem s)))
  /\ (forall s, snd (tlv_body mem s) = (tlv_cnt (fst (tlv_body mem s)) >? 3))
  /\ (forall tlv_len data, exists r,
        tlv_loop mem 4 (mk_tlv_walk tlv_len data 0 empty []) = Some r
        /\ tree (parseSRv6L3ServiceTLV mem tlv_len data) = tlv_pt r)
  /\ (forall s, snd (attr_body mem s) = false)
  /\ (forall attr_len data, exists r,
        attr_loop mem (Z.to_nat ((attr_len + 2) / 3))
          (mk_attr_walk attr_len data empty []) = Some r
        /\ tree (decode_attr mem attr_len data) = attr_pt r).
Proof.
  split; [|split; [|split; [|split]]].
  - apply tlv_body_cnt.
  - apply tlv_body_break.
  - intros n data.
    destruct (tlv_loop_terminates mem 4 (mk_tlv_walk n data 0 empty []))
      as [r Hr]; [simpl; lia | simpl; lia |].
    exists r. split; [exact Hr|].
    unfold parseSRv6L3ServiceTLV, run_loop. unfold tlv_loop in Hr.
    rewrite Hr. reflexivity.
  - apply attr_body_no_break.
  - intros n data.
    destruct (attr_loop_terminates mem (attr_fuel n)
                (mk_attr_walk n data empty [])) as [r Hr]; [reflexivity|].
    exists r. split; [exact Hr|].
    unfold decode_attr, run_loop. unfold attr_loop in Hr.
    rewrite Hr. reflexivity.
Qed.

(** ** A sub-TLV longer than its budget *)

(** Where the budget is tested for being positive, an element that
    declares more than what is left ends the loop. *)
Lemma positive_budget_loops_stop (mem : memory) :
  (forall s, attr_len s < len (read_header mem (attr_data s)) + 3 ->
             attr_cond (fst (attr_body mem s)) = false)
  /\ (forall s, subtlv_len s < len (read_header mem (sub_data s)) + 3 ->
                subtlv_cond (fst (subtlv_body mem s)) = false).
Proof.
  split; intros s H.
  - unfold attr_cond. rewrite attr_body_len, Z.gtb_ltb. apply Z.ltb_ge. lia.
  - unfold subtlv_cond. rewrite subtlv_body_len, Z.gtb_ltb.
    apply Z.ltb_ge. lia.
Qed.

(** C2 at the sub-TLV level: the sub-TLV of 28 declared bytes against a
    budget of 4 leaves [tlv_len] at -24; the loop, which tests for
    non-zero, goes on for three more iterations, all of them past the
    end of the SRv6 L3 Service TLV, and decodes a SID Information out of
    the value of the next top-level TLV. *)
Lemma overlong_sub_tlv_walk_continues :
  let mem := buffer_mem overlong_sub_tlv in
  let first := fst (tlv_body mem (mk_tlv_walk 4 4 0 empty [])) in
  List.length overlong_sub_tlv = 64%nat
  /\ len (read_header mem 4) + 3 = 28
  /\ tlv_len first = -24
  /\ tlv_cond first = true
  /\ tlv_loop mem 3 (mk_tlv_walk 4 4 0 empty []) = None
  /\ map keys (get_children "srv6_l3_service" (tree (decode_attr mem 64 0)))
     = [["sid_information"]]
  /\ Forall (within 0 64) (loads (decode_attr mem 64 0))
  /\ ~ Forall (within 4 8) (loads (parseSRv6L3ServiceTLV mem 4 4)).
Proof.
  cbv zeta.
  split; [reflexivity|]. split; [reflexivity|]. split; [reflexivity|].
  split; [reflexivity|]. split; [vm_compute; reflexivity|].
  split; [vm_compute; reflexivity|]. split.
  - apply Forall_forall. intros a Ha. vm_compute in Ha. unfold within.
    repeat (destruct Ha as [Ha | Ha]; [subst a; lia |]). contradiction.
  - intros H. rewrite Forall_forall in H. specialize (H 32).
    unfold within in H.
    assert (Hin : In 32 (loads (parseSRv6L3ServiceTLV
                                  (buffer_mem overlong_sub_tlv) 4 4)))
      by (vm_compute; tauto).
    specialize (H Hin). lia.
Qed.

(** * Further properties *)

(** ** readData: the two orders *)

Lemma readData_up_snoc (data : Z) (n : nat) :
  forall i,
    readData_up data i (S n) =
    readData_up data i n ++ [data + (i + Z.of_nat n)].
Proof.
  induction n as [|n IH]; intros i.
  - simpl. rewrite Z.add_0_r. reflexivity.
  - change (readData_up data i (S (S n)))
      with ((data + i) :: readData_up data (i + 1) (S n)).
    rewrite IH. simpl readData_up. rewrite <- app_comm_cons.
    do 3 f_equal. lia.
Qed.

Lemma readData_down_rev (data : Z) (n : nat) :
  readData_down data n = rev (readData_up data 0 n).
Proof.
  induction n as [|n IH]; [reflexivity|].
  rewrite readData_up_snoc, rev_app_distr. simpl. rewrite IH. reflexivity.
Qed.

(** X1: for every size, what readData stores with [host_byte_order] set
    is the reverse of what it stores with the flag cleared; either way
    it stores exactly [size] bytes, none for size 0. *)
Theorem readData_orders_reverse (mem : memory) (data : Z) (size : nat) :
  readData mem data size true = rev (readData mem data size false)
  /\ rev (readData mem data size true) = readData mem data size false
  /\ (forall order, List.length (readData mem data size order) = size)
  /\ (forall order, readData mem data 0 order = []).
Proof.
  assert (H : readData mem data size true = rev (readData mem data size false)).
  { unfold readData, readData_loads. rewrite readData_down_rev, map_rev.
    reflexivity. }
  split; [exact H|]. split; [rewrite H; apply rev_involutive|]. split.
  - intros order. unfold readData.
    rewrite length_map. apply readData_loads_length.
  - intros []; reflexivity.
Qed.

(** ** The case labels *)

Lemma increasing_head (k : Z) (rest : list Z) :
  increasing (k :: rest) = true -> forall x, In x rest -> k < x.
Proof.
  simpl. intros H x Hx. apply andb_true_iff in H as [H _].
  rewrite forallb_forall in H. apply Z.ltb_lt. exact (H x Hx).
Qed.

Lemma increasing_NoDup (keys : list Z) :
  increasing keys = true -> NoDup keys.
Proof.
  induction keys as [|k rest IH]; intros H; constructor.
  - intros Hin. pose proof (increasing_head k rest H k Hin). lia.
  - apply IH. simpl in H. apply andb_true_iff in H. tauto.
Qed.

Lemma switch_case_found (cases : list (Z * string)) :
  increasing (map fst cases) = true ->
  forall c name, In (c, name) cases -> switch_case c cases = Some name.
Proof.
  induction cases as [|[c0 n0] rest IH]; intros Hinc c name Hin; [contradiction|].
  simpl. destruct Hin as [Heq | Hin].
  - injection Heq as -> ->. rewrite Z.eqb_refl. reflexivity.
  - assert (Hlt : c0 < c).
    { apply (increasing_head c0 (map fst rest) Hinc).
      change c with (fst (c, name)). apply in_map. exact Hin. }
    replace (c =? c0) with false by (symmetry; apply Z.eqb_neq; lia).
    apply IH; [|exact Hin].
    simpl in Hinc. apply andb_true_iff in Hinc. tauto.
Qed.

Lemma listed_has_case (code : Z) :
  explicitly_listed code = true ->
  exists name, In (code, name) endpoint_behavior_cases.
Proof.
  unfold explicitly_listed. intros H.
  apply existsb_exists in H as [[c name] [Hin Heq]].
  apply Z.eqb_eq in Heq. simpl in Heq. subst c. exists name. exact Hin.
Qed.

(** X2: the case labels of the switch are pairwise distinct, every
    label gives the name written beside it, and among the 16-bit codes
    "Unassigned" is the answer exactly for those below 32768 that have
    no label. *)
Theorem endpoint_behavior_cases_lookup :
  NoDup (map fst endpoint_behavior_cases)
  /\ (forall code name,
        In (code, name) endpoint_behavior_cases ->
        endpoint_behavior_codepoint_to_name code = name)
  /\ (forall code,
        0 <= code <= 65535 ->
        (endpoint_behavior_codepoint_to_name code = "Unassigned"
         <-> explicitly_listed code = false /\ code < 32768)).
Proof.
  assert (Hinc : increasing (map fst endpoint_behavior_cases) = true)
    by reflexivity.
  split; [apply increasing_NoDup; exact Hinc|]. split.
  - intros code name Hin. unfold endpoint_behavior_codepoint_to_name.
    rewrite (switch_case_found _ Hinc code name Hin). reflexivity.
  - intros code Hr. split.
    + intros Hu. destruct (explicitly_listed code) eqn:El.
      * destruct (listed_has_case code El) as [name Hin].
        assert (Hall : forallb (fun c => negb (String.eqb (snd c) "Unassigned"))
                         endpoint_behavior_cases = true) by reflexivity.
        rewrite forallb_forall in Hall. specialize (Hall _ Hin).
        unfold endpoint_behavior_codepoint_to_name in Hu.
        rewrite (switch_case_found _ Hinc code name Hin) in Hu.
        simpl in Hall. rewrite Hu in Hall. discriminate Hall.
      * split; [reflexivity|]. rewrite unlisted_name in Hu by exact El.
        destruct (Z.ltb_spec code 32768) as [Hlt | Hge]; [exact Hlt|].
        assert (code <> 65535) by (intros ->; discriminate El).
        replace (32768 <=? code) with true in Hu
          by (symmetry; apply Z.leb_le; lia).
        destruct (code <=? 34815) eqn:E1; simpl in Hu; [discriminate Hu|].
        apply Z.leb_gt in E1.
        replace (34816 <=? code) with true in Hu
          by (symmetry; apply Z.leb_le; lia).
        replace (code <=? 65534) with true in Hu
          by (symmetry; apply Z.leb_le; lia).
        discriminate Hu.
    + intros [El Hlt]. rewrite unlisted_name by exact El.
      replace (32768 <=? code) with false by (symmetry; apply Z.leb_gt; lia).
      replace (34816 <=? code) with false by (symmetry; apply Z.leb_gt; lia).
      reflexivity.
Qed.

Lemma endpoint_behavior_cases_lookup_witness :
  endpoint_behavior_codepoint_to_name 157
  = "End.XU with REPPLACE-CSID & PSP & USP & USD"
  /\ endpoint_behavior_codepoint_to_name 111 = "Unassigned".
Proof.
  pose proof endpoint_behavior_cases_lookup as (_ & Hl & Hu).
  split.
  - apply Hl. unfold endpoint_behavior_cases.
    repeat (try (left; reflexivity); right).
  - apply (Hu 111); [lia|]. split; [reflexivity | lia].
Defined.

(** ** More on loops *)

Section WhileDoMore.

Context {St : Type}.
Variable cond : St -> bool.
Variable body : St -> St * bool.

(** An invariant of the iterations that go on, with a conclusion for
    the state in which the loop is left, by [break] or by its
    condition. *)
Lemma while_do_post (I Q : St -> Prop) :
  (forall s, I s -> cond s = true ->
     if snd (body s) then Q (fst (body s)) else I (fst (body s))) ->
  (forall s, I s -> cond s = false -> Q s) ->
  forall (fuel : nat) (s r : St),
    I s -> while_do cond body fuel s = Some r -> Q r.
Proof.
  intros Hstep Hexit. induction fuel as [|fuel IH]; intros s r Hs H.
  - simpl in H. destruct (cond s) eqn:Hc; [discriminate|].
    injection H as <-. apply Hexit; assumption.
  - destruct (cond s) eqn:Hc.
    + rewrite while_do_unfold in H by assumption.
      specialize (Hstep s Hs Hc). destruct (snd (body s)).
      * injection H as <-. exact Hstep.
      * exact (IH _ _ Hstep H).
    + rewrite while_do_exit in H by assumption.
      injection H as <-. apply Hexit; assumption.
Qed.

(** A loop without [break] is left with its condition false. *)
Lemma while_do_no_break (fuel : nat) (s r : St) :
  (forall s, snd (body s) = false) ->
  while_do cond body fuel s = Some r -> cond r = false.
Proof.
  intros Hnb. apply (while_do_post (fun _ => True) (fun r => cond r = false));
    trivial.
  intros s0 _ _. rewrite Hnb. exact I.
Qed.

(** Two runs from related states stay related. *)
Lemma while_do_sim (R : St -> St -> Prop) :
  (forall s s', R s s' -> cond s = cond s') ->
  (forall s s', R s s' ->
     R (fst (body s)) (fst (body s')) /\ snd (body s) = snd (body s')) ->
  forall (fuel : nat) (s s' r : St),
    R s s' -> while_do cond body fuel s = Some r ->
    exists r', while_do cond body fuel s' = Some r' /\ R r r'.
Proof.
  intros Hcond Hbody. induction fuel as [|fuel IH]; intros s s' r HR H.
  - simpl in *. rewrite <- (Hcond s s' HR).
    destruct (cond s); [discriminate|]. injection H as <-. eauto.
  - destruct (cond s) eqn:Hc.
    + rewrite while_do_unfold in H by assumption.
      rewrite while_do_unfold by (rewrite <- (Hcond s s' HR); assumption).
      destruct (Hbody s s' HR) as [HR' Hsnd]. rewrite <- Hsnd.
      destruct (snd (body s)).
      * injection H as <-. eauto.
      * exact (IH _ _ _ HR' H).
    + rewrite while_do_exit in H by assumption.
      rewrite while_do_exit by (rewrite <- (Hcond s s' HR); assumption).
      injection H as <-. eauto.
Qed.

End WhileDoMore.

(** ** Cursor and budget *)

(** X3: at each of the three levels the cursor and the remaining
    length move in step, their sum staying what it was when the loop
    was entered, and the cursor never moves back over a whole loop;
    the top-level loop, which has no [break], is left with
    [attr_len <= 0], that is with the cursor at or past the declared
    end, and past it by less than 65538 bytes when it started with a
    positive length. *)
Theorem cursor_and_budget_in_step (mem : memory) :
  (forall fuel s r,
     attr_loop mem fuel s = Some r ->
     attr_data r + attr_len r = attr_data s + attr_len s
     /\ attr_data s <= attr_data r
     /\ attr_len r <= 0
     /\ (0 < attr_len s -> -65538 < attr_len r))
  /\ (forall fuel s r,
        tlv_loop mem fuel s = Some r ->
        tlv_data r + tlv_len r = tlv_data s + tlv_len s
        /\ tlv_data s <= tlv_data r)
  /\ (forall fuel s r,
        subtlv_loop mem fuel s = Some r ->
        sub_data r + subtlv_len r = sub_data s + subtlv_len s
        /\ sub_data s <= sub_data r).
Proof.
  split; [|split]; intros fuel s r H.
  - assert (H1 : attr_data r + attr_len r = attr_data s + attr_len s
                 /\ attr_data s <= attr_data r
                 /\ (0 < attr_len s -> -65538 < attr_len r)).
    { revert H.
      apply (while_do_invariant attr_cond (attr_body mem)
               (fun r => attr_data r + attr_len r = attr_data s + attr_len s
                         /\ attr_data s <= attr_data r
                         /\ (0 < attr_len s -> -65538 < attr_len r)));
        [|lia].
      intros s0 (Hsum & Hle & Hlow) Hc. unfold attr_cond in Hc.
      rewrite attr_body_data, attr_body_len.
      pose proof (len_range mem (attr_data s0)). lia. }
    apply (while_do_no_break attr_cond (attr_body mem) fuel s r
             (attr_body_no_break mem)) in H.
    unfold attr_cond in H. rewrite Z.gtb_ltb in H. apply Z.ltb_ge in H. lia.
  - revert H.
    apply (while_do_invariant tlv_cond (tlv_body mem)
             (fun r => tlv_data r + tlv_len r = tlv_data s + tlv_len s
                       /\ tlv_data s <= tlv_data r)); [|lia].
    intros s0 (Hsum & Hle) _. rewrite tlv_body_data, tlv_body_len.
    pose proof (len_range mem (tlv_data s0)). lia.
  - revert H.
    apply (while_do_invariant subtlv_cond (subtlv_body mem)
             (fun r => sub_data r + subtlv_len r = sub_data s + subtlv_len s
                       /\ sub_data s <= sub_data r)); [|lia].
    intros s0 (Hsum & Hle) _. rewrite subtlv_body_data, subtlv_body_len.
    pose proof (len_range mem (sub_data s0)). lia.
Qed.

Lemma cursor_and_budget_in_step_witness :
  exists r, attr_loop (buffer_mem sample_attr) 13 (mk_attr_walk 38 0 empty [])
            = Some r
            /\ attr_data r = 38 /\ attr_len r = 0.
Proof.
  destruct (attr_loop (buffer_mem sample_attr) 13 (mk_attr_walk 38 0 empty []))
    as [r|] eqn:E; [|vm_compute in E; discriminate E].
  exists r. split; [reflexivity|].
  pose proof (proj1 (cursor_and_budget_in_step (buffer_mem sample_attr))
                13%nat (mk_attr_walk 38 0 empty []) r E) as (Hs & _ & Hle & _).
  assert (Hd : attr_data r = 38)
    by (vm_compute in E; injection E as <-; reflexivity).
  cbn [attr_data attr_len] in Hs. lia.
Defined.

(** ** No load before the cursor *)

Lemma within_ge (lo hi : Z) (l : list Z) (lo' : Z) :
  Forall (within lo hi) l -> lo' <= lo -> Forall (Z.le lo') l.
Proof.
  intros H Hle. eapply Forall_impl; [|exact H].
  unfold within. intros a Ha. lia.
Qed.

Lemma ge_weaken (lo lo' : Z) (l : list Z) :
  Forall (Z.le lo) l -> lo' <= lo -> Forall (Z.le lo') l.
Proof.
  intros H Hle. eapply Forall_impl; [|exact H]. intros a Ha. lia.
Qed.

Lemma subtlv_loads_ge (mem : memory) (lo : Z) (fuel : nat) (s : subtlv_walk) :
  lo <= sub_data s -> Forall (Z.le lo) (sub_loads s) ->
  Forall (Z.le lo) (sub_loads (run_loop subtlv_cond (subtlv_body mem) fuel s)).
Proof.
  intros Hlo Hl.
  apply (run_loop_invariant subtlv_cond (subtlv_body mem)
           (fun r => lo <= sub_data r /\ Forall (Z.le lo) (sub_loads r)));
    [|tauto].
  intros s0 [H0 H1] _. rewrite subtlv_body_data, subtlv_body_loads.
  pose proof (len_range mem (sub_data s0)). split; [lia|].
  apply Forall_app; split; [exact H1|]. apply Forall_app; split.
  - eapply within_ge; [apply header_loads_within | lia].
  - destruct (type _ =? _); [|constructor].
    eapply within_ge; [apply sid_structure_loads_within | lia].
Qed.

Lemma tlv_loads_ge (mem : memory) (lo : Z) (fuel : nat) (s : tlv_walk) :
  lo <= tlv_data s -> Forall (Z.le lo) (tlv_loads s) ->
  Forall (Z.le lo) (tlv_loads (run_loop tlv_cond (tlv_body mem) fuel s)).
Proof.
  intros Hlo Hl.
  apply (run_loop_invariant tlv_cond (tlv_body mem)
           (fun r => lo <= tlv_data r /\ Forall (Z.le lo) (tlv_loads r)));
    [|tauto].
  intros s0 [H0 H1] _. rewrite tlv_body_data, tlv_body_loads.
  pose proof (len_range mem (tlv_data s0)). split; [lia|].
  apply Forall_app; split; [exact H1|]. apply Forall_app; split.
  - eapply within_ge; [apply header_loads_within | lia].
  - destruct (type _ =? _); [|constructor]. apply Forall_app; split.
    + eapply within_ge; [apply sid_information_loads_within | lia].
    + unfold inner_walk. cbv zeta.
      eapply ge_weaken;
        [apply (subtlv_loads_ge mem (tlv_data s0 + 4 + 20));
           cbn [sub_data sub_loads]; [lia | constructor]
        | lia].
Qed.

Lemma attr_loads_ge (mem : memory) (lo : Z) (fuel : nat) (s : attr_walk) :
  lo <= attr_data s -> Forall (Z.le lo) (attr_loads s) ->
  Forall (Z.le lo) (attr_loads (run_loop attr_cond (attr_body mem) fuel s)).
Proof.
  intros Hlo Hl.
  apply (run_loop_invariant attr_cond (attr_body mem)
           (fun r => lo <= attr_data r /\ Forall (Z.le lo) (attr_loads r)));
    [|tauto].
  intros s0 [H0 H1] _. rewrite attr_body_data, attr_body_loads.
  pose proof (len_range mem (attr_data s0)). split; [lia|].
  apply Forall_app; split; [exact H1|]. apply Forall_app; split.
  - eapply within_ge; [apply header_loads_within | lia].
  - destruct (type _ =? _); [|constructor].
    unfold parseSRv6L3ServiceTLV. cbn [loads].
    eapply ge_weaken;
      [apply (tlv_loads_ge mem (attr_data s0 + 4));
         cbn [tlv_data tlv_loads]; [lia | constructor]
      | lia].
Qed.

(** X4: whatever the bytes and the lengths, neither decode function
    loads from an address before the [data] pointer it was given, even
    though a declared length of 0 moves a cursor back by one byte
    ([data += len-1]). *)
Theorem no_load_before_data (mem : memory) :
  (forall attr_len data,
     Forall (Z.le data) (loads (decode_attr mem attr_len data)))
  /\ (forall tlv_len data,
        Forall (Z.le data) (loads (parseSRv6L3ServiceTLV mem tlv_len data)))
  /\ (forall s,
        attr_data (fst (attr_body mem s)) = attr_data s + 3
        <-> len (read_header mem (attr_data s)) = 0).
Proof.
  split; [|split].
  - intros n data. unfold decode_attr. cbn [loads].
    apply attr_loads_ge; cbn [attr_data attr_loads]; [lia | constructor].
  - intros n data. unfold parseSRv6L3ServiceTLV. cbn [loads].
    apply tlv_loads_ge; cbn [tlv_data tlv_loads]; [lia | constructor].
  - intros s. rewrite attr_body_data. lia.
Qed.

(** ** The decoder as a recursion over the TLVs *)

Lemma node_eta (t : ptree) : t = Node (PTree.data t) (children t).
Proof. destruct t; reflexivity. Qed.

Lemma attr_walk_eta (s : attr_walk) :
  s = mk_attr_walk (attr_len s) (attr_data s) (attr_pt s) (attr_loads s).
Proof. destruct s; reflexivity. Qed.

(** What the loop yields from a node and a load record already begun is
    what it yields from the empty ones, put behind them. *)
Lemma attr_run_prefix (mem : memory) (fuel : nat) (n d : Z) (pt : ptree)
  (l : list Z) :
  (attr_fuel n <= fuel)%nat ->
  let r := run_loop attr_cond (attr_body mem) fuel (mk_attr_walk n d pt l) in
  let r' := run_loop attr_cond (attr_body mem) fuel
              (mk_attr_walk n d empty []) in
  children (attr_pt r) = children pt ++ children (attr_pt r')
  /\ attr_loads r = l ++ attr_loads r'
  /\ PTree.data (attr_pt r) = PTree.data pt.
Proof.
  intros Hf r r'. subst r r'. unfold run_loop.
  destruct (attr_loop_terminates mem fuel (mk_attr_walk n d pt l) Hf)
    as [r Hr].
  unfold attr_loop in Hr. rewrite Hr.
  destruct (while_do_sim attr_cond (attr_body mem)
              (fun s s' =>
                 attr_len s = attr_len s' /\ attr_data s = attr_data s'
                 /\ children (attr_pt s) = children pt ++ children (attr_pt s')
                 /\ attr_loads s = l ++ attr_loads s'
                 /\ PTree.data (attr_pt s) = PTree.data pt)) with
    (fuel := fuel) (s := mk_attr_walk n d pt l)
    (s' := mk_attr_walk n d empty []) (r := r) as [r' [Hr' HR]].
  - intros s s' (Hl & _). unfold attr_cond. rewrite Hl. reflexivity.
  - intros s s' (Hl & Hd & Hc & Hlo & Hda).
    rewrite !attr_body_no_break, !attr_body_len, !attr_body_data,
      !attr_body_loads, Hl, Hd.
    split; [|reflexivity]. split; [reflexivity|]. split; [reflexivity|].
    split; [|split].
    + unfold attr_body. rewrite Hd.
      destruct (type _ =? _); cbn [fst attr_pt]; [|exact Hc].
      unfold add_child. cbn [children]. rewrite Hc, app_assoc. reflexivity.
    + rewrite Hlo, <- app_assoc. reflexivity.
    + unfold attr_body. destruct (type _ =? _); cbn [fst attr_pt];
        [|exact Hda].
      unfold add_child. cbn [PTree.data]. exact Hda.
  - cbn [attr_len attr_data attr_pt attr_loads children empty].
    rewrite !app_nil_r. repeat split; reflexivity.
  - exact Hr.
  - rewrite Hr'. tauto.
Qed.

Lemma decode_attr_unfold (mem : memory) (n d : Z) :
  0 < n ->
  let s1 := fst (attr_body mem (mk_attr_walk n d empty [])) in
  let rest := decode_attr mem (attr_len s1) (attr_data s1) in
  tree (decode_attr mem n d)
  = Node EmptyString (children (attr_pt s1) ++ children (tree rest))
  /\ loads (decode_attr mem n d) = attr_loads s1 ++ loads rest.
Proof.
  intros Hn s1 rest. subst rest. unfold decode_attr at 1 3.
  cbn [tree loads].
  assert (Hlt : (attr_fuel (attr_len s1) < attr_fuel n)%nat).
  { subst s1. rewrite attr_body_len. cbn [attr_len attr_data].
    pose proof (len_range mem d). apply fuel_step; lia. }
  destruct (attr_fuel n) as [|k] eqn:Ek; [lia|].
  assert (Hstep : run_loop attr_cond (attr_body mem) (S k)
                    (mk_attr_walk n d empty [])
                  = run_loop attr_cond (attr_body mem) k s1).
  { unfold run_loop. rewrite while_do_unfold
      by (unfold attr_cond; cbn [attr_len]; apply Z.gtb_lt; lia).
    rewrite attr_body_no_break. fold s1.
    destruct (attr_loop_terminates mem k s1 ltac:(lia)) as [r Hr].
    unfold attr_loop in Hr. rewrite Hr. reflexivity. }
  rewrite Hstep.
  assert (Hk : run_loop attr_cond (attr_body mem) k
                 (mk_attr_walk (attr_len s1) (attr_data s1) empty [])
               = run_loop attr_cond (attr_body mem) (attr_fuel (attr_len s1))
                   (mk_attr_walk (attr_len s1) (attr_data s1) empty [])).
  { apply run_loop_more_fuel; [|lia].
    apply (attr_loop_terminates mem). reflexivity. }
  unfold decode_attr. cbn [tree loads]. rewrite <- Hk.
  destruct (attr_run_prefix mem k (attr_len s1) (attr_data s1) (attr_pt s1)
              (attr_loads s1) ltac:(lia)) as (Hc & Hl & Hd).
  rewrite <- (attr_walk_eta s1) in Hc, Hl, Hd.
  split; [|exact Hl].
  rewrite (node_eta (attr_pt (run_loop _ _ _ _))), Hc, Hd.
  f_equal. subst s1. unfold attr_body.
  destruct (type _ =? _); reflexivity.
Qed.

(** X5: the tree of an attribute with a positive length is what its
    first TLV contributes — one [srv6_l3_service] child holding the
    result of parseSRv6L3ServiceTLV when the type is 5, nothing
    otherwise — followed by the tree of the rest, decoded from
    [length+3] bytes further with the length lowered by as much; the
    loads follow the same pattern.  With a length of 0 or less the tree
    is empty and nothing is loaded. *)
Theorem decode_attr_first_and_rest (mem : memory) (n data : Z) :
  (0 < n ->
   let tlv := read_header mem data in
   let first :=
     if type tlv =? BGP_PREFIX_SID_TLV_TYPE_SRV6_L3_SERVICE_TLV
     then Some (parseSRv6L3ServiceTLV mem (len tlv - 1) (data + 4))
     else None in
   let rest :=
     decode_attr mem (n - (len tlv + 3)) (data + (len tlv + 3)) in
   tree (decode_attr mem n data)
   = Node EmptyString
       (match first with
        | Some sub => [("srv6_l3_service", tree sub)]
        | None => []
        end ++ children (tree rest))
   /\ loads (decode_attr mem n data)
      = header_loads data
        ++ match first with Some sub => loads sub | None => [] end
        ++ loads rest)
  /\ (n <= 0 ->
      decode_attr mem n data = mk_decoded empty []).
Proof.
  split.
  - intros Hn. cbv zeta.
    destruct (decode_attr_unfold mem n data Hn) as [Ht Hl].
    cbv zeta in Ht, Hl. rewrite attr_body_len, attr_body_data in Ht, Hl.
    cbn [attr_len attr_data] in Ht, Hl. rewrite Ht, Hl.
    rewrite attr_body_loads. unfold attr_body. cbn [attr_data attr_pt attr_loads].
    destruct (type _ =? _); cbn [fst attr_pt]; split; reflexivity.
  - intros Hn. unfold decode_attr, run_loop.
    rewrite while_do_exit; [reflexivity|].
    unfold attr_cond. cbn [attr_len]. rewrite Z.gtb_ltb. apply Z.ltb_ge. lia.
Qed.

Lemma decode_attr_first_and_rest_witness :
  tree (decode_attr (buffer_mem two_of_each) 76 0)
  = Node EmptyString
      ([("srv6_l3_service",
         tree (parseSRv6L3ServiceTLV (buffer_mem two_of_each) 68 4))]
       ++ children (tree (decode_attr (buffer_mem two_of_each) 4 72)))
  /\ decode_attr (buffer_mem two_of_each) 0 76 = mk_decoded empty [].
Proof.
  split.
  - exact (proj1 (proj1 (decode_attr_first_and_rest (buffer_mem two_of_each)
                          76 0) ltac:(lia))).
  - exact (proj2 (decode_attr_first_and_rest (buffer_mem two_of_each) 0 76)
             ltac:(lia)).
Defined.

(** ** Every top-level TLV of a complete attribute is decoded *)

Lemma top_children_length (mem : memory) (tlvs : list top_tlv) :
  forall data,
    List.length (top_children mem data tlvs)
    = List.length (filter is_l3_service tlvs).
Proof.
  induction tlvs as [|t rest IH]; intros data; [reflexivity|].
  cbn [top_children filter]. rewrite length_app, IH.
  destruct t; reflexivity.
Qed.

Lemma top_children_keys (mem : memory) (tlvs : list top_tlv) :
  forall data,
    Forall (fun kc => fst kc = "srv6_l3_service") (top_children mem data tlvs).
Proof.
  induction tlvs as [|t rest IH]; intros data; [constructor|].
  cbn [top_children]. apply Forall_app; split; [|apply IH].
  destruct t; repeat constructor.
Qed.

Lemma decode_complete_attr (mem : memory) (tlvs : list top_tlv) :
  forall data,
    Forall complete_top tlvs ->
    holds mem data (wire_attr tlvs) ->
    tree (decode_attr mem (Z.of_nat (List.length (wire_attr tlvs))) data)
    = Node EmptyString (top_children mem data tlvs).
Proof.
  induction tlvs as [|t rest IH]; intros data Hc Hh.
  - reflexivity.
  - inversion_clear Hc as [|? ? Ht Hrest].
    unfold wire_attr in *. cbn [flat_map] in *.
    assert (Hw : exists ty r v,
               wire_top t = wire_tlv ty r v /\ is_byte ty /\ fits v
               /\ (ty =? BGP_PREFIX_SID_TLV_TYPE_SRV6_L3_SERVICE_TLV)
                  = is_l3_service t
               /\ match t with
                  | L3Service _ subs => v = flat_map wire_sub subs
                  | OtherTlv _ _ _ => True
                  end).
    { destruct t as [r subs | ty r v]; simpl in Ht.
      - exists BGP_PREFIX_SID_TLV_TYPE_SRV6_L3_SERVICE_TLV, r,
          (flat_map wire_sub subs).
        split; [reflexivity|].
        split; [unfold is_byte, BGP_PREFIX_SID_TLV_TYPE_SRV6_L3_SERVICE_TLV;
                lia|].
        split; [tauto|]. split; reflexivity.
      - exists ty, r, v. split; [reflexivity|]. split; [tauto|].
        split; [tauto|]. split; [|exact I].
        apply Z.eqb_neq. tauto. }
    destruct Hw as (ty & r & v & Ew & Hty & Hfit & Eis & Hv).
    rewrite Ew in Hh.
    destruct (holds_header _ _ _ _ _ _ Hh Hty Hfit) as [Etype Elen].
    assert (Hn : 0 < Z.of_nat (List.length (wire_top t ++ flat_map wire_top rest)))
      by (rewrite Ew, length_app, wire_tlv_length; lia).
    destruct (decode_attr_unfold mem _ data Hn) as [Htree _].
    cbv zeta in Htree. rewrite attr_body_len, attr_body_data in Htree.
    cbn [attr_len attr_data] in Htree. rewrite Htree. clear Htree.
    rewrite Elen. f_equal. cbn [top_children].
    replace (Z.of_nat (List.length (wire_top t ++ flat_map wire_top rest))
             - (1 + Z.of_nat (List.length v) + 3))
      with (Z.of_nat (List.length (flat_map wire_top rest)))
      by (rewrite Ew, length_app, wire_tlv_length; lia).
    replace (data + (1 + Z.of_nat (List.length v) + 3))
      with (data + Z.of_nat (List.length (wire_top t)))
      by (rewrite Ew, wire_tlv_length; lia).
    rewrite IH; [|exact Hrest|].
    + cbn [children]. f_equal.
      unfold attr_body. cbn [attr_data attr_pt]. rewrite Etype, Elen, Eis.
      destruct t as [r0 subs | ty0 r0 v0]; cbn [is_l3_service fst attr_pt].
      * subst v. unfold add_child. cbn [children empty app PTree.data].
        do 4 f_equal. lia.
      * reflexivity.
    + apply holds_app_r in Hh. rewrite <- Ew in Hh. exact Hh.
Qed.

(** X6: for a complete attribute with any number of top-level TLVs the
    tree has one [srv6_l3_service] child for every TLV of type 5, in
    order, each the result of parseSRv6L3ServiceTLV run on exactly the
    value of its TLV; TLVs of other types contribute nothing and none
    is dropped. *)
Theorem complete_attr_every_tlv_decoded (mem : memory)
  (tlvs : list top_tlv) (data : Z) :
  Forall complete_top tlvs ->
  holds mem data (wire_attr tlvs) ->
  let t := tree (decode_attr mem (Z.of_nat (List.length (wire_attr tlvs)))
                   data) in
  t = Node EmptyString (top_children mem data tlvs)
  /\ List.length (children t) = List.length (filter is_l3_service tlvs)
  /\ Forall (fun kc => fst kc = "srv6_l3_service") (children t).
Proof.
  intros Hc Hh t. subst t. rewrite (decode_complete_attr mem tlvs data Hc Hh).
  cbn [children]. split; [reflexivity|]. split.
  - apply top_children_length.
  - apply top_children_keys.
Qed.

Lemma six_tlvs_complete :
  Forall complete_top
    (repeat (L3Service 0 []) 5 ++ [OtherTlv 9 0 [1; 2]]).
Proof.
  unfold complete_top, is_byte, fits,
    BGP_PREFIX_SID_TLV_TYPE_SRV6_L3_SERVICE_TLV.
  repeat constructor; simpl; lia.
Qed.

Lemma complete_attr_every_tlv_decoded_witness :
  List.length
    (children
       (tree (decode_attr
                (buffer_mem
                   (wire_attr (repeat (L3Service 0 []) 5
                               ++ [OtherTlv 9 0 [1; 2]])))
                26 0)))
  = 5%nat.
Proof.
  exact (proj1 (proj2
           (complete_attr_every_tlv_decoded
              (buffer_mem (wire_attr (repeat (L3Service 0 []) 5
                                      ++ [OtherTlv 9 0 [1; 2]])))
              (repeat (L3Service 0 []) 5 ++ [OtherTlv 9 0 [1; 2]]) 0
              six_tlvs_complete (holds_buffer _)))).
Defined.

(** ** Bounds that hold for every input *)

Lemma subtlv_body_outer (mem : memory) (s : subtlv_walk) :
  outer_tlv_cnt (fst (subtlv_body mem s))
  = (if subtlv_cnt s + 1 >? 3 then outer_tlv_cnt s + 1 else outer_tlv_cnt s)
  /\ snd (subtlv_body mem s)
     = ((subtlv_cnt s + 1 >? 3) && (outer_tlv_cnt s + 1 >? 3)).
Proof.
  unfold subtlv_body.
  destruct (type _ =? _); destruct (subtlv_cnt s + 1 >? 3); split; reflexivity.
Qed.

Lemma subtlv_body_pt (mem : memory) (s : subtlv_walk) :
  sub_pt (fst (subtlv_body mem s)) = sub_pt s
  \/ exists st, sub_pt (fst (subtlv_body mem s))
                = add_child "sid_structure" (sid_structure_pt st) (sub_pt s).
Proof.
  unfold subtlv_body.
  destruct (type _ =? _); destruct (subtlv_cnt s + 1 >? 3); cbn [fst sub_pt];
    eauto.
Qed.

Lemma sid_structure_pt_keys (st : srv6_sid_structure_sub_sub_tlv) :
  keys (sid_structure_pt st) = sid_structure_keys.
Proof. reflexivity. Qed.

Lemma sid_information_pt_shape (i : srv6_sid_information_sub_tlv) :
  map fst (children (sid_information_pt i)) = sid_information_keys
  /\ Forall (fun kc => children (snd kc) = []) (children (sid_information_pt i)).
Proof. split; [reflexivity|]. repeat constructor. Qed.

Lemma header_loads_length (data : Z) : List.length (header_loads data) = 4%nat.
Proof. reflexivity. Qed.

Lemma sid_information_loads_length (data : Z) :
  List.length (sid_information_loads data) = 20%nat.
Proof. reflexivity. Qed.

(** The inner loop from [subtlv_cnt = 0] and an enclosing counter that
    is not negative: at most seven iterations. *)
Lemma inner_loop_bounds (mem : memory) (fuel : nat) (s r : subtlv_walk) :
  subtlv_cnt s = 0 -> 0 <= outer_tlv_cnt s -> sub_loads s = [] ->
  subtlv_loop mem fuel s = Some r ->
  0 <= subtlv_cnt r <= 7
  /\ (exists added,
         children (sub_pt r) = children (sub_pt s) ++ added
         /\ Forall structure_child added
         /\ Z.of_nat (List.length added) <= subtlv_cnt r)
  /\ Z.of_nat (List.length (sub_loads r)) <= 10 * subtlv_cnt r.
Proof.
  intros Hk Hc Hl Hrun. unfold subtlv_loop in Hrun.
  refine (while_do_post subtlv_cond (subtlv_body mem)
            (fun r =>
               0 <= subtlv_cnt r
               /\ outer_tlv_cnt r
                  = outer_tlv_cnt s + Z.max 0 (subtlv_cnt r - 3)
               /\ (3 < subtlv_cnt r -> outer_tlv_cnt r <= 3)
               /\ (exists added,
                      children (sub_pt r) = children (sub_pt s) ++ added
                      /\ Forall structure_child added
                      /\ Z.of_nat (List.length added) <= subtlv_cnt r)
               /\ Z.of_nat (List.length (sub_loads r)) <= 10 * subtlv_cnt r)
            (fun r =>
               0 <= subtlv_cnt r <= 7
               /\ (exists added,
                      children (sub_pt r) = children (sub_pt s) ++ added
                      /\ Forall structure_child added
                      /\ Z.of_nat (List.length added) <= subtlv_cnt r)
               /\ Z.of_nat (List.length (sub_loads r)) <= 10 * subtlv_cnt r)
            _ _ fuel s r _ Hrun).
  - intros s0 (H0 & Hout & Hle & (added & Ha & Hf & Hn) & Hloads) _.
    destruct (subtlv_body_outer mem s0) as [Eo Es].
    pose proof (subtlv_body_cnt mem s0) as Ek.
    assert (Hch : exists added',
               children (sub_pt (fst (subtlv_body mem s0)))
               = children (sub_pt s) ++ added'
               /\ Forall structure_child added'
               /\ Z.of_nat (List.length added') <= subtlv_cnt s0 + 1).
    { destruct (subtlv_body_pt mem s0) as [E | [st E]]; rewrite E.
      - exists added. split; [exact Ha|]. split; [exact Hf | lia].
      - exists (added ++ [("sid_structure", sid_structure_pt st)]).
        unfold add_child. cbn [children]. rewrite Ha, app_assoc.
        split; [reflexivity|]. split.
        + apply Forall_app. split; [exact Hf|]. repeat constructor.
        + rewrite length_app. simpl List.length. lia. }
    assert (Hld : Z.of_nat (List.length (sub_loads (fst (subtlv_body mem s0))))
                  <= 10 * (subtlv_cnt s0 + 1)).
    { rewrite subtlv_body_loads, !length_app, header_loads_length.
      destruct (type _ =? _); simpl List.length; lia. }
    rewrite Es.
    destruct (subtlv_cnt s0 + 1 >? 3) eqn:E3;
      [destruct (outer_tlv_cnt s0 + 1 >? 3) eqn:E4|]; cbn [andb];
      rewrite ?Ek, ?Eo.
    + apply Z.gtb_lt in E3, E4. split; [lia|]. split; [exact Hch | exact Hld].
    + apply Z.gtb_lt in E3. rewrite Z.gtb_ltb in E4. apply Z.ltb_ge in E4.
      split; [lia|]. split; [lia|]. split; [lia|].
      split; [exact Hch | exact Hld].
    + rewrite Z.gtb_ltb in E3. apply Z.ltb_ge in E3.
      split; [lia|]. split; [lia|]. split; [lia|].
      split; [exact Hch | exact Hld].
  - intros s0 (H0 & Hout & Hle & Hch & Hloads) _.
    split; [lia|]. split; [exact Hch | exact Hloads].
  - rewrite Hk, Hl. split; [lia|]. split; [lia|]. split; [lia|]. split.
    + exists []. rewrite app_nil_r. split; [reflexivity|].
      split; [constructor | simpl; lia].
    + simpl. lia.
Qed.

Lemma inner_walk_bounds (mem : memory) (subtlv : generic_tlv)
  (sub_data c0 : Z) :
  0 <= c0 ->
  sid_information_shape (sub_pt (inner_walk mem subtlv sub_data c0))
  /\ Z.of_nat (List.length (sub_loads (inner_walk mem subtlv sub_data c0)))
     <= 70.
Proof.
  intros Hc. unfold inner_walk. cbv zeta. unfold run_loop.
  set (s := mk_subtlv_walk _ _ _ _ _ _).
  destruct (subtlv_loop_terminates mem (subtlv_fuel (len subtlv - 21)) s)
    as [r Hr]; [reflexivity|].
  pose proof Hr as Hr'. unfold subtlv_loop in Hr'. rewrite Hr'.
  destruct (inner_loop_bounds mem _ s r eq_refl Hc eq_refl Hr)
    as (Hk & (added & Ha & Hf & Hn) & Hl).
  split; [|lia].
  exists (children (sub_pt s)), added.
  split; [exact Ha|].
  destruct (sid_information_pt_shape (read_sid_information mem sub_data))
    as [Hkeys Hleaf].
  split; [exact Hkeys|]. split; [exact Hleaf|]. split; [exact Hf | lia].
Qed.

Lemma tlv_body_pt (mem : memory) (s : tlv_walk) :
  tlv_pt (fst (tlv_body mem s)) = tlv_pt s
  \/ tlv_pt (fst (tlv_body mem s))
     = add_child "sid_information"
         (sub_pt (inner_walk mem (read_header mem (tlv_data s))
                    (tlv_data s + 4) (tlv_cnt s)))
         (tlv_pt s).
Proof. unfold tlv_body. destruct (type _ =? _); cbn [fst tlv_pt]; auto. Qed.

(** The sub-TLV loop from [tlv_cnt = 0]. *)
Lemma tlv_loop_bounds (mem : memory) (fuel : nat) (s r : tlv_walk) :
  tlv_cnt s = 0 -> tlv_pt s = empty -> tlv_loads s = [] ->
  tlv_loop mem fuel s = Some r ->
  (List.length (children (tlv_pt r)) <= 4)%nat
  /\ Forall information_child (children (tlv_pt r))
  /\ (List.length (tlv_loads r) <= 376)%nat.
Proof.
  intros Hk Hp Hl Hrun. unfold tlv_loop in Hrun.
  refine (while_do_post tlv_cond (tlv_body mem)
            (fun r =>
               0 <= tlv_cnt r <= 3
               /\ Z.of_nat (List.length (children (tlv_pt r))) <= tlv_cnt r
               /\ Forall information_child (children (tlv_pt r))
               /\ Z.of_nat (List.length (tlv_loads r)) <= 94 * tlv_cnt r)
            (fun r =>
               (List.length (children (tlv_pt r)) <= 4)%nat
               /\ Forall information_child (children (tlv_pt r))
               /\ (List.length (tlv_loads r) <= 376)%nat)
            _ _ fuel s r _ Hrun).
  - intros s0 (H0 & Hn & Hf & Hld) _.
    pose proof (tlv_body_cnt mem s0) as Hcnt.
    destruct (inner_walk_bounds mem (read_header mem (tlv_data s0))
                (tlv_data s0 + 4) (tlv_cnt s0)) as [Hshape Hin]; [lia|].
    assert (Hch : Z.of_nat (List.length
                              (children (tlv_pt (fst (tlv_body mem s0)))))
                  <= tlv_cnt s0 + 1
                  /\ Forall information_child
                       (children (tlv_pt (fst (tlv_body mem s0))))).
    { destruct (tlv_body_pt mem s0) as [E | E]; rewrite E.
      - split; [lia | exact Hf].
      - unfold add_child. cbn [children]. rewrite length_app. split.
        + simpl List.length. lia.
        + apply Forall_app. split; [exact Hf|].
          constructor; [|constructor]. split; [reflexivity | exact Hshape]. }
    assert (Hl' : Z.of_nat (List.length (tlv_loads (fst (tlv_body mem s0))))
                  <= 94 * (tlv_cnt s0 + 1)).
    { rewrite tlv_body_loads, !length_app, header_loads_length.
      destruct (type _ =? _).
      - rewrite length_app, sid_information_loads_length. lia.
      - simpl List.length. lia. }
    rewrite tlv_body_break.
    destruct (tlv_cnt (fst (tlv_body mem s0)) >? 3) eqn:E.
    + split; [lia|]. split; [tauto | lia].
    + rewrite Z.gtb_ltb in E. apply Z.ltb_ge in E.
      split; [lia|]. split; [lia|]. split; [tauto | lia].
  - intros s0 (H0 & Hn & Hf & Hld) _. split; [lia|]. split; [exact Hf | lia].
  - rewrite Hk, Hp, Hl. simpl. split; [lia|]. split; [lia|].
    split; [constructor | lia].
Qed.

Lemma parseSRv6L3ServiceTLV_bounds (mem : memory) (tlv_len data : Z) :
  (List.length (children (tree (parseSRv6L3ServiceTLV mem tlv_len data))) <= 4)
  %nat
  /\ Forall information_child
       (children (tree (parseSRv6L3ServiceTLV mem tlv_len data)))
  /\ (List.length (loads (parseSRv6L3ServiceTLV mem tlv_len data)) <= 376)%nat.
Proof.
  unfold parseSRv6L3ServiceTLV, run_loop. cbn [tree loads].
  set (s := mk_tlv_walk _ _ _ _ _).
  destruct (tlv_loop_terminates mem 4 s) as [r Hr]; [simpl; lia | simpl; lia |].
  pose proof Hr as Hr'. unfold tlv_loop in Hr'. rewrite Hr'.
  exact (tlv_loop_bounds mem 4 s r eq_refl eq_refl eq_refl Hr).
Qed.

(** X7: whatever the bytes and [tlv_len], the tree parseSRv6L3ServiceTLV
    returns has at most four children, every one of them a
    [sid_information] made of the four valued entries [sid_value],
    [service_sid_flags], [endpoint_behavior_codepoint] and
    [endpoint_behavior] followed by at most seven [sid_structure]
    children of six valued entries each. *)
Theorem sub_tlv_tree_shape (mem : memory) (tlv_len data : Z) :
  (List.length (children (tree (parseSRv6L3ServiceTLV mem tlv_len data))) <= 4)
  %nat
  /\ Forall information_child
       (children (tree (parseSRv6L3ServiceTLV mem tlv_len data))).
Proof.
  pose proof (parseSRv6L3ServiceTLV_bounds mem tlv_len data). tauto.
Qed.

Lemma attr_body_added (mem : memory) (s : attr_walk) :
  (List.length (children (attr_pt (fst (attr_body mem s))))
   <= List.length (children (attr_pt s)) + 1)%nat
  /\ (List.length (attr_loads (fst (attr_body mem s)))
      <= List.length (attr_loads s) + 380)%nat.
Proof.
  split.
  - destruct (attr_body_keeps mem s) as [added Ha].
    unfold attr_body. destruct (type _ =? _); cbn [fst attr_pt].
    + unfold add_child. cbn [children]. rewrite length_app.
      cbn [List.length]. lia.
    + lia.
  - rewrite attr_body_loads, !length_app, header_loads_length.
    destruct (type _ =? _).
    + destruct (parseSRv6L3ServiceTLV_bounds mem
                  (len (read_header mem (attr_data s)) - 1) (attr_data s + 4))
        as (_ & _ & Hb).
      lia.
    + cbn [List.length]. lia.
Qed.

(** X8: the work is bounded whatever the bytes: one call of
    parseSRv6L3ServiceTLV loads at most 376 bytes, and
    parseBGPPrefixSIDAttr with length [n] makes at most ceil(n/3)
    children and loads at most 380 bytes for each of its at most
    ceil(n/3) iterations. *)
Theorem decode_work_bounded (mem : memory) :
  (forall tlv_len data,
     (List.length (loads (parseSRv6L3ServiceTLV mem tlv_len data)) <= 376)%nat)
  /\ (forall n data,
        (List.length (children (tree (decode_attr mem n data)))
         <= Z.to_nat ((n + 2) / 3))%nat
        /\ (List.length (loads (decode_attr mem n data))
            <= 380 * Z.to_nat ((n + 2) / 3))%nat).
Proof.
  split.
  - intros tlv_len data.
    pose proof (parseSRv6L3ServiceTLV_bounds mem tlv_len data). tauto.
  - intros n data. unfold decode_attr. cbn [tree loads].
    assert (H : (fun r =>
                   (List.length (children (attr_pt r)) + attr_fuel (attr_len r)
                    <= attr_fuel n)%nat
                   /\ (List.length (attr_loads r)
                       + 380 * attr_fuel (attr_len r)
                       <= 380 * attr_fuel n)%nat)
                (run_loop attr_cond (attr_body mem) (attr_fuel n)
                   (mk_attr_walk n data empty []))).
    2: { unfold attr_fuel in *. cbv beta in H. lia. }
    apply run_loop_invariant.
    + intros s [Hc Hl] Hcond. unfold attr_cond in Hcond.
      destruct (attr_body_added mem s) as [Hc' Hl'].
      assert (Hf : (attr_fuel (attr_len (fst (attr_body mem s)))
                    < attr_fuel (attr_len s))%nat).
      { rewrite attr_body_len. pose proof (len_range mem (attr_data s)).
        apply fuel_step; lia. }
      lia.
    + simpl. lia.
Qed.

(** ** How far past the declared end the loads can go *)

Lemma below_weaken (hi hi' : Z) (l : list Z) :
  Forall (fun a => a < hi) l -> hi <= hi' -> Forall (fun a => a < hi') l.
Proof.
  intros H Hle. eapply Forall_impl; [|exact H]. cbv beta. intros a Ha. lia.
Qed.

Lemma within_below (lo hi hi' : Z) (l : list Z) :
  Forall (within lo hi) l -> hi <= hi' -> Forall (fun a => a < hi') l.
Proof.
  intros H Hle. eapply Forall_impl; [|exact H].
  unfold within. intros a Ha. lia.
Qed.

(** The inner loop loads below the end of its budget plus 10. *)
Lemma subtlv_loads_below (mem : memory) (hi : Z) (fuel : nat)
  (s : subtlv_walk) :
  sub_data s + subtlv_len s + 10 <= hi ->
  Forall (fun a => a < hi) (sub_loads s) ->
  Forall (fun a => a < hi)
    (sub_loads (run_loop subtlv_cond (subtlv_body mem) fuel s)).
Proof.
  intros Hhi Hl.
  apply (run_loop_invariant subtlv_cond (subtlv_body mem)
           (fun r => sub_data r + subtlv_len r + 10 <= hi
                     /\ Forall (fun a => a < hi) (sub_loads r)));
    [|tauto].
  intros s0 [H0 H1] Hc. unfold subtlv_cond in Hc.
  rewrite subtlv_body_data, subtlv_body_len, subtlv_body_loads.
  split; [lia|].
  apply Forall_app; split; [exact H1|]. apply Forall_app; split.
  - eapply within_below; [apply header_loads_within | lia].
  - destruct (type _ =? _); [|constructor].
    eapply within_below; [apply sid_structure_loads_within | lia].
Qed.

Lemma inner_walk_loads_below (mem : memory) (subtlv : generic_tlv)
  (d c0 : Z) :
  0 <= len subtlv <= 65535 ->
  Forall (fun a => a < d + 65544) (sub_loads (inner_walk mem subtlv d c0)).
Proof.
  intros Hlen. unfold inner_walk. cbv zeta.
  apply subtlv_loads_below; cbn [sub_data subtlv_len sub_loads];
    [lia | constructor].
Qed.

Lemma tlv_body_cnt_data (mem : memory) (s : tlv_walk) :
  tlv_data (fst (tlv_body mem s)) <= tlv_data s + 65538.
Proof.
  rewrite tlv_body_data. pose proof (len_range mem (tlv_data s)). lia.
Qed.

(** The sub-TLV loop from [tlv_cnt = 0]: the cursor advances by at most
    65538 for every count. *)
Lemma tlv_loads_below (mem : memory) (fuel : nat) (s r : tlv_walk) :
  tlv_cnt s = 0 -> tlv_loads s = [] ->
  tlv_loop mem fuel s = Some r ->
  Forall (fun a => a < tlv_data s + 262162) (tlv_loads r).
Proof.
  intros Hk Hl Hrun. unfold tlv_loop in Hrun.
  refine (while_do_post tlv_cond (tlv_body mem)
            (fun r =>
               0 <= tlv_cnt r <= 3
               /\ tlv_data r <= tlv_data s + 65538 * tlv_cnt r
               /\ Forall (fun a => a < tlv_data s + 262162) (tlv_loads r))
            (fun r => Forall (fun a => a < tlv_data s + 262162) (tlv_loads r))
            _ _ fuel s r _ Hrun).
  - intros s0 (H0 & Hd & Hf) _.
    pose proof (tlv_body_cnt mem s0) as Hcnt.
    pose proof (tlv_body_cnt_data mem s0) as Hdata.
    assert (Hl' : Forall (fun a => a < tlv_data s + 262162)
                    (tlv_loads (fst (tlv_body mem s0)))).
    { rewrite tlv_body_loads.
      apply Forall_app; split; [exact Hf|]. apply Forall_app; split.
      - eapply within_below; [apply header_loads_within | lia].
      - destruct (type _ =? _); [|constructor]. apply Forall_app; split.
        + eapply within_below; [apply sid_information_loads_within | lia].
        + eapply below_weaken;
            [apply inner_walk_loads_below; apply len_range | lia]. }
    rewrite tlv_body_break.
    destruct (tlv_cnt (fst (tlv_body mem s0)) >? 3) eqn:E; [exact Hl'|].
    rewrite Z.gtb_ltb in E. apply Z.ltb_ge in E.
    split; [lia|]. split; [lia | exact Hl'].
  - intros s0 (_ & _ & Hf) _. exact Hf.
  - rewrite Hk, Hl. split; [lia|]. split; [lia | constructor].
Qed.

Lemma parseSRv6L3ServiceTLV_loads_below (mem : memory) (tlv_len data : Z) :
  Forall (fun a => a < data + 262162)
    (loads (parseSRv6L3ServiceTLV mem tlv_len data)).
Proof.
  unfold parseSRv6L3ServiceTLV, run_loop. cbn [loads].
  set (s := mk_tlv_walk _ _ _ _ _).
  destruct (tlv_loop_terminates mem 4 s) as [r Hr]; [simpl; lia | simpl; lia |].
  pose proof Hr as Hr'. unfold tlv_loop in Hr'. rewrite Hr'.
  exact (tlv_loads_below mem 4 s r eq_refl eq_refl Hr).
Qed.

(** X9: however wrong the declared lengths, the loads stop at a
    distance that the code fixes: parseSRv6L3ServiceTLV loads below
    [data + 262162], and parseBGPPrefixSIDAttr with length [n] loads
    below [data + n + 262165], that is less than 262165 bytes past the
    declared end (nothing at all when [n <= 0]). *)
Theorem overread_window (mem : memory) :
  (forall tlv_len data,
     Forall (fun a => a < data + 262162)
       (loads (parseSRv6L3ServiceTLV mem tlv_len data)))
  /\ (forall n data,
        Forall (fun a => a < data + n + 262165)
          (loads (decode_attr mem n data)))
  /\ (forall n data, n <= 0 -> loads (decode_attr mem n data) = []).
Proof.
  split; [|split].
  - intros n data. apply parseSRv6L3ServiceTLV_loads_below.
  - intros n data. unfold decode_attr. cbn [loads].
    apply (run_loop_invariant attr_cond (attr_body mem)
             (fun r => attr_data r + attr_len r = data + n
                       /\ Forall (fun a => a < data + n + 262165)
                            (attr_loads r)));
      [|cbn [attr_data attr_len attr_loads]; split; [lia | constructor]].
    intros s [Hs Hf] Hc. unfold attr_cond in Hc.
    rewrite attr_body_data, attr_body_len, attr_body_loads.
    split; [lia|].
    apply Forall_app; split; [exact Hf|]. apply Forall_app; split.
    + eapply within_below; [apply header_loads_within | lia].
    + destruct (type _ =? _); [|constructor].
      eapply below_weaken;
        [apply parseSRv6L3ServiceTLV_loads_below | lia].
  - intros n data Hn. unfold decode_attr, run_loop.
    rewrite while_do_exit; [reflexivity|].
    unfold attr_cond. cbn [attr_len]. rewrite Z.gtb_ltb. apply Z.ltb_ge. lia.
Qed.

Lemma overread_window_witness : loads (decode_attr (buffer_mem []) 0 0) = [].
Proof.
  exact (proj2 (proj2 (overread_window (buffer_mem []))) 0 0 ltac:(lia)).
Defined.

(** ** A negative budget in the sub-TLV loop *)

(** X10: once [tlv_len] is negative the sub-TLV loop can only be left
    through its counter: it loads the header at its cursor, goes on
    lowering [tlv_len], and ends with [tlv_cnt] above 3.  A top-level
    TLV of type 5 with declared length 0 starts it that way, with
    [tlv_len = -1]. *)
Theorem negative_tlv_len_ends_by_counter (mem : memory) :
  (forall fuel s r,
     tlv_len s < 0 ->
     tlv_loop mem fuel s = Some r ->
     3 < tlv_cnt r
     /\ tlv_len r <= tlv_len s - 3
     /\ exists e, tlv_loads r = tlv_loads s ++ header_loads (tlv_data s) ++ e)
  /\ (forall s,
        type (read_header mem (attr_data s))
        = BGP_PREFIX_SID_TLV_TYPE_SRV6_L3_SERVICE_TLV ->
        len (read_header mem (attr_data s)) = 0 ->
        attr_pt (fst (attr_body mem s))
        = add_child "srv6_l3_service"
            (tree (parseSRv6L3ServiceTLV mem (-1) (attr_data s + 4)))
            (attr_pt s)).
Proof.
  split.
  - intros fuel s r Hneg Hrun. unfold tlv_loop in Hrun.
    refine (while_do_post tlv_cond (tlv_body mem)
              (fun r0 =>
                 tlv_len r0 <= tlv_len s
                 /\ (r0 = s
                     \/ exists e, tlv_loads r0
                                  = tlv_loads s ++ header_loads (tlv_data s)
                                    ++ e))
              (fun r =>
                 3 < tlv_cnt r
                 /\ tlv_len r <= tlv_len s - 3
                 /\ exists e, tlv_loads r
                              = tlv_loads s ++ header_loads (tlv_data s) ++ e)
              _ _ fuel s r _ Hrun).
    + intros s0 [Hle Hpre] _.
      assert (Hl : exists e, tlv_loads (fst (tlv_body mem s0))
                             = tlv_loads s ++ header_loads (tlv_data s) ++ e).
      { rewrite tlv_body_loads. destruct Hpre as [-> | [e He]].
        - eexists. reflexivity.
        - rewrite He. eexists. rewrite <- !app_assoc. reflexivity. }
      assert (Hlen : tlv_len (fst (tlv_body mem s0)) <= tlv_len s - 3).
      { rewrite tlv_body_len. pose proof (len_range mem (tlv_data s0)). lia. }
      rewrite tlv_body_break.
      destruct (tlv_cnt (fst (tlv_body mem s0)) >? 3) eqn:E.
      * apply Z.gtb_lt in E. split; [lia|]. split; [exact Hlen | exact Hl].
      * split; [lia|]. right. exact Hl.
    + intros s0 [Hle _] Hc. unfold tlv_cond in Hc.
      apply negb_false_iff, Z.eqb_eq in Hc. lia.
    + split; [lia|]. left. reflexivity.
  - intros s Ht Hl. rewrite attr_body_l3_service by exact Ht.
    rewrite Hl. reflexivity.
Qed.

Lemma negative_tlv_len_ends_by_counter_witness :
  exists r, tlv_loop (buffer_mem []) 4 (mk_tlv_walk (-1) 0 0 empty []) = Some r
            /\ 3 < tlv_cnt r.
Proof.
  destruct (tlv_loop (buffer_mem []) 4 (mk_tlv_walk (-1) 0 0 empty []))
    as [r|] eqn:E; [|vm_compute in E; discriminate E].
  exists r. split; [reflexivity|].
  exact (proj1 (proj1 (negative_tlv_len_ends_by_counter (buffer_mem []))
                  4%nat (mk_tlv_walk (-1) 0 0 empty []) r ltac:(simpl; lia) E)).
Defined.

(** ** Exact decoding within the reach of the counters *)

Lemma holds_load (mem : memory) (data : Z) (bytes : list Z) (k : Z) :
  holds mem data bytes -> 0 <= k < Z.of_nat (List.length bytes) ->
  load mem (data + k) = byte_of (nth (Z.to_nat k) bytes 0).
Proof.
  intros H Hk. unfold load, byte_of.
  replace (data + k) with (data + Z.of_nat (Z.to_nat k)) by lia.
  rewrite H by lia. reflexivity.
Qed.

Lemma read_sid_information_eq (mem : memory) (d : Z) :
  read_sid_information mem d
  = mk_sid_information
      (map (fun i => load mem (d + Z.of_nat i)) (seq 0 16))
      (load mem (d + 16)) (load mem (d + 17) * 256 + load mem (d + 18))
      (load mem (d + 19)).
Proof.
  unfold read_sid_information, readData, uint8_of, uint16_of.
  cbn -[Z.add Z.mul load].
  rewrite !Z.add_0_r. replace (d + 17 + 1) with (d + 18) by lia.
  f_equal. lia.
Qed.

Lemma read_sid_information_holds (mem : memory) (d : Z) (fixed : list Z) :
  holds mem d fixed -> List.length fixed = 20%nat ->
  sid_information_pt (read_sid_information mem d)
  = information_node fixed [].
Proof.
  intros Hh Hlen. rewrite read_sid_information_eq.
  do 21 (destruct fixed as [|? fixed]; try discriminate Hlen).
  assert (Hl : forall k, 0 <= k < 20 ->
                 load mem (d + k)
                 = byte_of (nth (Z.to_nat k) _ 0))
    by (intros k Hk; apply (holds_load mem d _ k Hh); simpl; lia).
  cbn [map seq]. change (Z.of_nat 0) with 0.
  rewrite Z.add_0_r.
  rewrite <- (Z.add_0_r d) at 1.
  repeat match goal with
         | |- context [load mem (d + Z.of_nat ?n)] =>
             let k := eval cbv in (Z.of_nat n) in
             change (Z.of_nat n) with k
         end.
  rewrite !Hl by lia. reflexivity.
Qed.

Lemma read_sid_structure_holds (mem : memory) (d : Z) (value : list Z) :
  holds mem d value -> (6 <= List.length value)%nat ->
  sid_structure_pt (read_sid_structure mem d) = structure_node value.
Proof.
  intros Hh Hlen.
  assert (Hl : forall k, 0 <= k < 6 ->
                 load mem (d + k) = byte_of (nth (Z.to_nat k) value 0))
    by (intros k Hk; apply (holds_load mem d _ k Hh); lia).
  unfold read_sid_structure. rewrite <- (Z.add_0_r d) at 1.
  rewrite !Hl by lia. reflexivity.
Qed.

Lemma wire_nonempty_sub_sub (t : sub_sub_tlv) (rest : list sub_sub_tlv) :
  (4 <= List.length (flat_map wire_sub_sub (t :: rest)))%nat.
Proof.
  cbn [flat_map]. rewrite length_app. destruct t. simpl. lia.
Qed.

Lemma wire_nonempty_sub (t : sub_tlv) (rest : list sub_tlv) :
  (4 <= List.length (flat_map wire_sub (t :: rest)))%nat.
Proof.
  cbn [flat_map]. rewrite length_app. destruct t; simpl; lia.
Qed.

(** The inner loop over at most three complete sub-sub-TLVs: all are
    decoded and the enclosing counter is left alone. *)
Lemma inner_loop_exact (mem : memory) (subsubs : list sub_sub_tlv)
  (fuel : nat) (s r : subtlv_walk) :
  Forall complete_sub_sub subsubs -> (List.length subsubs <= 3)%nat ->
  holds mem (sub_data s) (flat_map wire_sub_sub subsubs) ->
  subtlv_len s = Z.of_nat (List.length (flat_map wire_sub_sub subsubs)) ->
  subtlv_cnt s = 0 ->
  subtlv_loop mem fuel s = Some r ->
  outer_tlv_cnt r = outer_tlv_cnt s
  /\ children (sub_pt r) = children (sub_pt s) ++ structure_children subsubs
  /\ PTree.data (sub_pt r) = PTree.data (sub_pt s).
Proof.
  intros Hc Hfew Hh Hlen Hk Hrun. unfold subtlv_loop in Hrun.
  refine (while_do_post subtlv_cond (subtlv_body mem)
            (fun r0 =>
               exists done rest,
                 subsubs = done ++ rest
                 /\ Forall complete_sub_sub rest
                 /\ holds mem (sub_data r0) (flat_map wire_sub_sub rest)
                 /\ subtlv_len r0
                    = Z.of_nat (List.length (flat_map wire_sub_sub rest))
                 /\ subtlv_cnt r0 = Z.of_nat (List.length done)
                 /\ outer_tlv_cnt r0 = outer_tlv_cnt s
                 /\ children (sub_pt r0)
                    = children (sub_pt s) ++ structure_children done
                 /\ PTree.data (sub_pt r0) = PTree.data (sub_pt s))
            (fun r =>
               outer_tlv_cnt r = outer_tlv_cnt s
               /\ children (sub_pt r)
                  = children (sub_pt s) ++ structure_children subsubs
               /\ PTree.data (sub_pt r) = PTree.data (sub_pt s))
            _ _ fuel s r _ Hrun).
  - intros s0 (done & rest & Hs & Hcr & Hh0 & Hl0 & Hk0 & Ho & Hch & Hd) Hcond.
    unfold subtlv_cond in Hcond.
    destruct rest as [|[ty rv v] rest']; [simpl in Hl0; lia|].
    cbn [flat_map wire_sub_sub] in Hh0, Hl0.
    inversion_clear Hcr as [|? ? Hx Hcr']. destruct Hx as (Hty & Hfit & Hsix).
    destruct (holds_header _ _ _ _ _ _ Hh0 Hty Hfit) as [Etype Elen].
    rewrite length_app, wire_tlv_length in Hl0.
    assert (Hdone : (List.length done + 1 <= 3)%nat).
    { rewrite Hs, length_app in Hfew. simpl in Hfew. lia. }
    destruct (subtlv_body_outer mem s0) as [Eo Es].
    replace (subtlv_cnt s0 + 1 >? 3) with false in Eo, Es
      by (symmetry; rewrite Z.gtb_ltb; apply Z.ltb_ge; lia).
    rewrite Es. cbn [andb].
    exists (done ++ [SubSubTlv ty rv v]), rest'.
    rewrite subtlv_body_data, subtlv_body_len, subtlv_body_cnt, Eo, Elen.
    split; [rewrite <- app_assoc; exact Hs|]. split; [exact Hcr'|]. split.
    { apply holds_app_r in Hh0. rewrite wire_tlv_length in Hh0.
      replace (sub_data s0 + (1 + Z.of_nat (List.length v) + 3))
        with (sub_data s0 + Z.of_nat (4 + List.length v)) by lia.
      exact Hh0. }
    split; [lia|]. split; [rewrite length_app; simpl; lia|].
    split; [exact Ho|].
    unfold structure_children. rewrite flat_map_app. cbn [flat_map].
    rewrite app_nil_r. fold (structure_children done).
    unfold subtlv_body. rewrite Etype.
    replace (subtlv_cnt s0 + 1 >? 3) with false
      by (symmetry; rewrite Z.gtb_ltb; apply Z.ltb_ge; lia).
    destruct (ty =? SRV6_SID_STRUCTURE_SUB_SUB_TLV) eqn:E; cbn [fst sub_pt].
    + apply Z.eqb_eq in E. specialize (Hsix E).
      rewrite (read_sid_structure_holds mem _ v);
        [|exact (holds_value _ _ _ _ _ _ Hh0) | exact Hsix].
      unfold add_child. cbn [children PTree.data].
      rewrite Hch, app_assoc. split; [reflexivity | exact Hd].
    + rewrite app_nil_r. split; [exact Hch | exact Hd].
  - intros s0 (done & rest & Hs & Hcr & Hh0 & Hl0 & Hk0 & Ho & Hch & Hd) Hcond.
    unfold subtlv_cond in Hcond. rewrite Z.gtb_ltb in Hcond.
    apply Z.ltb_ge in Hcond.
    destruct rest as [|t rest'].
    + rewrite app_nil_r in Hs. subst done. tauto.
    + pose proof (wire_nonempty_sub_sub t rest'). lia.
  - exists [], subsubs. cbn [app List.length structure_children flat_map].
    rewrite app_nil_r. repeat split; try assumption; try reflexivity.
Qed.

Lemma inner_walk_exact (mem : memory) (subtlv : generic_tlv) (d c0 : Z)
  (fixed : list Z) (subsubs : list sub_sub_tlv) :
  List.length fixed = 20%nat ->
  Forall complete_sub_sub subsubs -> (List.length subsubs <= 3)%nat ->
  holds mem d (fixed ++ flat_map wire_sub_sub subsubs) ->
  len subtlv
  = 1 + Z.of_nat (List.length (fixed ++ flat_map wire_sub_sub subsubs)) ->
  outer_tlv_cnt (inner_walk mem subtlv d c0) = c0
  /\ sub_pt (inner_walk mem subtlv d c0) = information_node fixed subsubs.
Proof.
  intros Hfix Hc Hfew Hh Hlen. unfold inner_walk. cbv zeta. unfold run_loop.
  set (s := mk_subtlv_walk _ _ _ _ _ _).
  destruct (subtlv_loop_terminates mem (subtlv_fuel (len subtlv - 21)) s)
    as [r Hr]; [reflexivity|].
  pose proof Hr as Hr'. unfold subtlv_loop in Hr'. rewrite Hr'.
  rewrite length_app, Hfix in Hlen.
  assert (Hh' : holds mem (sub_data s) (flat_map wire_sub_sub subsubs)).
  { apply holds_app_r in Hh. rewrite Hfix in Hh. exact Hh. }
  assert (Hl' : subtlv_len s
                = Z.of_nat (List.length (flat_map wire_sub_sub subsubs))).
  { unfold s. cbn [subtlv_len]. lia. }
  destruct (inner_loop_exact mem subsubs _ s r Hc Hfew Hh' Hl' eq_refl Hr)
    as (Ho & Hch & Hd).
  split; [exact Ho|].
  rewrite (node_eta (sub_pt r)), Hch, Hd. unfold s. cbn [sub_pt].
  rewrite (read_sid_information_holds mem d fixed);
    [reflexivity | exact (holds_app_l _ _ _ _ Hh) | exact Hfix].
Qed.

Lemma tlv_loop_exact (mem : memory) (subs : list sub_tlv) (fuel : nat)
  (s r : tlv_walk) :
  Forall complete_sub subs -> (List.length subs <= 4)%nat ->
  Forall few_subsubs subs ->
  holds mem (tlv_data s) (flat_map wire_sub subs) ->
  tlv_len s = Z.of_nat (List.length (flat_map wire_sub subs)) ->
  tlv_cnt s = 0 -> tlv_pt s = empty ->
  tlv_loop mem fuel s = Some r ->
  tlv_pt r = Node EmptyString (information_children subs).
Proof.
  intros Hc Hfew Hfs Hh Hlen Hk Hp Hrun. unfold tlv_loop in Hrun.
  refine (while_do_post tlv_cond (tlv_body mem)
            (fun r0 =>
               exists done rest,
                 subs = done ++ rest
                 /\ Forall complete_sub rest /\ Forall few_subsubs rest
                 /\ holds mem (tlv_data r0) (flat_map wire_sub rest)
                 /\ tlv_len r0 = Z.of_nat (List.length (flat_map wire_sub rest))
                 /\ tlv_cnt r0 = Z.of_nat (List.length done)
                 /\ tlv_pt r0 = Node EmptyString (information_children done))
            (fun r => tlv_pt r = Node EmptyString (information_children subs))
            _ _ fuel s r _ Hrun).
  - intros s0 (done & rest & Hs & Hcr & Hfr & Hh0 & Hl0 & Hk0 & Hpt) Hcond.
    unfold tlv_cond in Hcond. apply negb_true_iff, Z.eqb_neq in Hcond.
    destruct rest as [|x rest']; [simpl in Hl0; lia|].
    cbn [flat_map] in Hh0, Hl0.
    inversion_clear Hcr as [|? ? Hx Hcr']. inversion_clear Hfr as [|? ? Hy Hfr'].
    assert (Hbody :
              tlv_len (fst (tlv_body mem s0))
              = Z.of_nat (List.length (flat_map wire_sub rest'))
              /\ holds mem (tlv_data (fst (tlv_body mem s0)))
                   (flat_map wire_sub rest')
              /\ tlv_cnt (fst (tlv_body mem s0)) = tlv_cnt s0 + 1
              /\ tlv_pt (fst (tlv_body mem s0))
                 = Node EmptyString (information_children (done ++ [x]))).
    { unfold information_children. rewrite flat_map_app. cbn [flat_map].
      rewrite app_nil_r. fold (information_children done).
      destruct x as [rv fixed subsubs | ty rv v];
        cbn [wire_sub] in Hh0, Hl0; simpl in Hx, Hy.
      - destruct Hx as (Hfix & Hss & Hfit).
        assert (Hb : is_byte SRV6_SID_INFORMATION_SUB_TLV)
          by (unfold is_byte, SRV6_SID_INFORMATION_SUB_TLV; lia).
        destruct (holds_header _ _ _ _ _ _ Hh0 Hb Hfit) as [Etype Elen].
        rewrite length_app, wire_tlv_length in Hl0.
        destruct (inner_walk_exact mem (read_header mem (tlv_data s0))
                    (tlv_data s0 + 4) (tlv_cnt s0) fixed subsubs Hfix Hss Hy
                    (holds_value _ _ _ _ _ _ Hh0) Elen) as [Ho Hi].
        rewrite tlv_body_len, tlv_body_data, Elen.
        split; [lia|]. split.
        { apply holds_app_r in Hh0. rewrite wire_tlv_length in Hh0.
          match goal with
          | |- holds mem ?a _ =>
              replace a with
                (tlv_data s0
                 + Z.of_nat (4 + List.length
                                   (fixed ++ flat_map wire_sub_sub subsubs)))
                by lia
          end.
          exact Hh0. }
        unfold tlv_body. rewrite Etype, Z.eqb_refl. cbn [fst tlv_cnt tlv_pt].
        rewrite Ho, Hi, Hpt. split; reflexivity.
      - destruct Hx as (Hty & Hne & Hfit).
        destruct (holds_header _ _ _ _ _ _ Hh0 Hty Hfit) as [Etype Elen].
        rewrite length_app, wire_tlv_length in Hl0.
        rewrite tlv_body_len, tlv_body_data, Elen.
        split; [lia|]. split.
        { apply holds_app_r in Hh0. rewrite wire_tlv_length in Hh0.
          replace (tlv_data s0 + (1 + Z.of_nat (List.length v) + 3))
            with (tlv_data s0 + Z.of_nat (4 + List.length v)) by lia.
          exact Hh0. }
        unfold tlv_body. rewrite Etype.
        replace (ty =? SRV6_SID_INFORMATION_SUB_TLV) with false
          by (symmetry; apply Z.eqb_neq; exact Hne).
        cbn [fst tlv_cnt tlv_pt]. rewrite app_nil_r.
        split; [reflexivity | exact Hpt]. }
    destruct Hbody as (Bl & Bh & Bc & Bp).
    rewrite tlv_body_break, Bc.
    destruct (tlv_cnt s0 + 1 >? 3) eqn:E.
    + apply Z.gtb_lt in E. rewrite Bp.
      assert (rest' = []).
      { rewrite Hs, length_app in Hfew. simpl in Hfew.
        destruct rest'; [reflexivity | simpl in Hfew; lia]. }
      subst rest'. rewrite Hs. reflexivity.
    + exists (done ++ [x]), rest'.
      split; [rewrite <- app_assoc; exact Hs|]. split; [exact Hcr'|].
      split; [exact Hfr'|]. split; [exact Bh|]. split; [exact Bl|].
      split; [rewrite length_app; simpl; lia | exact Bp].
  - intros s0 (done & rest & Hs & Hcr & Hfr & Hh0 & Hl0 & Hk0 & Hpt) Hcond.
    unfold tlv_cond in Hcond. apply negb_false_iff, Z.eqb_eq in Hcond.
    destruct rest as [|t rest'].
    + rewrite app_nil_r in Hs. subst done. exact Hpt.
    + pose proof (wire_nonempty_sub t rest'). lia.
  - exists [], subs. cbn [app List.length information_children flat_map].
    repeat split; assumption.
Qed.

Lemma parseSRv6L3ServiceTLV_exact (mem : memory) (subs : list sub_tlv)
  (data : Z) :
  Forall complete_sub subs -> (List.length subs <= 4)%nat ->
  Forall few_subsubs subs ->
  holds mem data (flat_map wire_sub subs) ->
  tree (parseSRv6L3ServiceTLV mem
          (Z.of_nat (List.length (flat_map wire_sub subs))) data)
  = Node EmptyString (information_children subs).
Proof.
  intros Hc Hfew Hfs Hh. unfold parseSRv6L3ServiceTLV, run_loop. cbn [tree].
  set (s := mk_tlv_walk _ _ _ _ _).
  destruct (tlv_loop_terminates mem 4 s) as [r Hr]; [simpl; lia | simpl; lia |].
  pose proof Hr as Hr'. unfold tlv_loop in Hr'. rewrite Hr'.
  exact (tlv_loop_exact mem subs 4 s r Hc Hfew Hfs Hh eq_refl eq_refl eq_refl
           Hr).
Qed.

(** X11: for an SRv6 L3 Service value made of at most four complete
    sub-TLVs, each SID Information with at most three sub-sub-TLVs,
    parseSRv6L3ServiceTLV returns exactly one [sid_information] per SID
    Information sub-TLV, in order, with the four fields read from its 20
    fixed bytes and one [sid_structure] per SID Structure sub-sub-TLV;
    sub-TLVs and sub-sub-TLVs of other types, and all reserved bytes,
    leave no trace. *)
Theorem sub_tlvs_decoded_exactly (mem : memory) (subs : list sub_tlv)
  (data : Z) :
  Forall complete_sub subs -> (List.length subs <= 4)%nat ->
  Forall few_subsubs subs ->
  holds mem data (flat_map wire_sub subs) ->
  tree (parseSRv6L3ServiceTLV mem
          (Z.of_nat (List.length (flat_map wire_sub subs))) data)
  = Node EmptyString (information_children subs).
Proof. apply parseSRv6L3ServiceTLV_exact. Qed.

Lemma sample_subs_complete :
  Forall complete_sub
    [SidInformation 0 (sample_sid ++ [0; 0; 18; 0])
       [SubSubTlv 9 0 [1]; SubSubTlv 1 0 [32; 16; 16; 0; 0; 0]];
     OtherSubTlv 7 0 []].
Proof.
  unfold complete_sub, complete_sub_sub, fits, is_byte,
    SRV6_SID_STRUCTURE_SUB_SUB_TLV, SRV6_SID_INFORMATION_SUB_TLV.
  repeat constructor; simpl; try lia; intros; lia.
Qed.

Lemma sub_tlvs_decoded_exactly_witness :
  let subs :=
    [SidInformation 0 (sample_sid ++ [0; 0; 18; 0])
       [SubSubTlv 9 0 [1]; SubSubTlv 1 0 [32; 16; 16; 0; 0; 0]];
     OtherSubTlv 7 0 []] in
  keys (tree (parseSRv6L3ServiceTLV (buffer_mem (flat_map wire_sub subs))
                43 0))
  = ["sid_information"].
Proof.
  cbv zeta.
  exact (f_equal keys
           (sub_tlvs_decoded_exactly _ _ 0 sample_subs_complete
              ltac:(simpl; lia)
              ltac:(repeat constructor; simpl; lia)
              (holds_buffer _))).
Defined.

Lemma top_children_exact (mem : memory) (tlvs : list top_tlv) :
  forall data,
    Forall complete_top tlvs -> Forall few_subs tlvs ->
    holds mem data (wire_attr tlvs) ->
    top_children mem data tlvs = service_children tlvs.
Proof.
  induction tlvs as [|t rest IH]; intros data Hc Hf Hh; [reflexivity|].
  inversion_clear Hc as [|? ? Ht Hc']. inversion_clear Hf as [|? ? Hft Hf'].
  unfold wire_attr in Hh. cbn [flat_map] in Hh.
  cbn [top_children service_children flat_map].
  fold (service_children rest).
  rewrite (IH _ Hc' Hf' (holds_app_r _ _ _ _ Hh)). f_equal.
  destruct t as [r subs | ty r v]; [|reflexivity].
  simpl in Ht, Hft. cbn [wire_top] in Hh.
  rewrite (parseSRv6L3ServiceTLV_exact mem subs (data + 4));
    [reflexivity | tauto | tauto | tauto |].
  exact (holds_value _ _ _ _ _ _ Hh).
Qed.

(** X12: a complete attribute whose SRv6 L3 Service TLVs stay within
    the reach of the counters (at most four sub-TLVs, at most three
    sub-sub-TLVs in each SID Information) is decoded exactly, whatever
    the number of top-level TLVs: the tree is the list of its
    [srv6_l3_service] nodes, each the list of its [sid_information]
    nodes, each with its four fields and its [sid_structure] nodes. *)
Theorem complete_attr_decoded_exactly (mem : memory) (tlvs : list top_tlv)
  (data : Z) :
  Forall complete_top tlvs -> Forall few_subs tlvs ->
  holds mem data (wire_attr tlvs) ->
  tree (decode_attr mem (Z.of_nat (List.length (wire_attr tlvs))) data)
  = Node EmptyString (service_children tlvs).
Proof.
  intros Hc Hf Hh.
  rewrite (decode_complete_attr mem tlvs data Hc Hh).
  rewrite (top_children_exact mem tlvs data Hc Hf Hh). reflexivity.
Qed.

Lemma complete_attr_decoded_exactly_witness :
  tree (decode_attr (buffer_mem sample_attr) 38 0)
  = Node EmptyString (service_children sample_tlvs).
Proof.
  refine (complete_attr_decoded_exactly (buffer_mem sample_attr) sample_tlvs 0
            sample_tlvs_complete _ (holds_buffer sample_attr)).
  repeat constructor; simpl; lia.
Defined.

(** ** What the inner loop costs the enclosing counter *)

(** X13: the inner loop raises the enclosing [tlv_cnt] by one for every
    sub-sub-TLV after the third: started with [subtlv_cnt = 0], it
    leaves [tlv_cnt] higher by max(0, subtlv_cnt - 3), whatever the
    bytes; so a SID Information sub-TLV with more than three
    sub-sub-TLVs uses up places of the four that the sub-TLV loop
    has. *)
Theorem inner_loop_charges_tlv_cnt (mem : memory) :
  (forall fuel s r,
     subtlv_cnt s = 0 ->
     subtlv_loop mem fuel s = Some r ->
     0 <= subtlv_cnt r
     /\ outer_tlv_cnt r = outer_tlv_cnt s + Z.max 0 (subtlv_cnt r - 3))
  /\ (forall subtlv d c0,
        outer_tlv_cnt (inner_walk mem subtlv d c0)
        = c0 + Z.max 0 (subtlv_cnt (inner_walk mem subtlv d c0) - 3)).
Proof.
  assert (H : forall fuel s r,
             subtlv_cnt s = 0 ->
             subtlv_loop mem fuel s = Some r ->
             0 <= subtlv_cnt r
             /\ outer_tlv_cnt r
                = outer_tlv_cnt s + Z.max 0 (subtlv_cnt r - 3)).
  { intros fuel s r Hk Hrun. unfold subtlv_loop in Hrun. revert Hrun.
    apply (while_do_invariant subtlv_cond (subtlv_body mem)
             (fun r => 0 <= subtlv_cnt r
                       /\ outer_tlv_cnt r
                          = outer_tlv_cnt s + Z.max 0 (subtlv_cnt r - 3)));
      [|rewrite Hk; lia].
    intros s0 [H0 Ho] _. destruct (subtlv_body_outer mem s0) as [Eo _].
    rewrite subtlv_body_cnt, Eo.
    destruct (subtlv_cnt s0 + 1 >? 3) eqn:E.
    - apply Z.gtb_lt in E. lia.
    - rewrite Z.gtb_ltb in E. apply Z.ltb_ge in E. lia. }
  split; [exact H|].
  intros subtlv d c0. unfold inner_walk. cbv zeta. unfold run_loop.
  set (s := mk_subtlv_walk _ _ _ _ _ _).
  destruct (subtlv_loop_terminates mem (subtlv_fuel (len subtlv - 21)) s)
    as [r Hr]; [reflexivity|].
  pose proof Hr as Hr'. unfold subtlv_loop in Hr'. rewrite Hr'.
  exact (proj2 (H _ s r eq_refl Hr)).
Qed.

Lemma inner_loop_charges_tlv_cnt_witness :
  exists r,
    subtlv_loop (buffer_mem eight_structures) 8
      (mk_subtlv_walk 80 28 0 0 empty []) = Some r
    /\ subtlv_cnt r = 7 /\ outer_tlv_cnt r = 4.
Proof.
  destruct (subtlv_loop (buffer_mem eight_structures) 8
              (mk_subtlv_walk 80 28 0 0 empty [])) as [r|] eqn:E;
    [|vm_compute in E; discriminate E].
  exists r. split; [reflexivity|].
  pose proof (proj1 (inner_loop_charges_tlv_cnt (buffer_mem eight_structures))
                8%nat (mk_subtlv_walk 80 28 0 0 empty []) r eq_refl E)
    as [_ Ho].
  assert (Hk : subtlv_cnt r = 7)
    by (vm_compute in E; injection E as <-; reflexivity).
  split; [exact Hk|]. rewrite Ho, Hk. reflexivity.
Defined.

(** * Whole attributes *)

(** ** Unrecognized TLVs between the others *)

Lemma decode_attr_tree_node (mem : memory) (n data : Z) :
  tree (decode_attr mem n data)
  = Node EmptyString (children (tree (decode_attr mem n data))).
Proof.
  destruct (Z.ltb_spec 0 n) as [Hn|Hn].
  - destruct (decode_attr_unfold mem n data Hn) as [Ht _]. cbv zeta in Ht.
    rewrite Ht. reflexivity.
  - unfold decode_attr, run_loop. rewrite while_do_exit; [reflexivity|].
    unfold attr_cond. cbn [attr_len]. rewrite Z.gtb_ltb. apply Z.ltb_ge. lia.
Qed.

(** A first TLV of another type than 5 costs the four loads of its
    header and leaves the tree to the rest of the attribute. *)
Lemma decode_attr_skip (mem : memory) (n data : Z) :
  0 < n ->
  type (read_header mem data) <> BGP_PREFIX_SID_TLV_TYPE_SRV6_L3_SERVICE_TLV ->
  tree (decode_attr mem n data)
  = tree (decode_attr mem (n - (len (read_header mem data) + 3))
            (data + (len (read_header mem data) + 3)))
  /\ loads (decode_attr mem n data)
     = header_loads data
       ++ loads (decode_attr mem (n - (len (read_header mem data) + 3))
                   (data + (len (read_header mem data) + 3))).
Proof.
  intros Hn Hty.
  destruct (decode_attr_unfold mem n data Hn) as [Ht Hl].
  cbv zeta in Ht, Hl. rewrite attr_body_len, attr_body_data in Ht, Hl.
  cbn [attr_len attr_data] in Ht, Hl.
  destruct (attr_body_skip mem (mk_attr_walk n data empty [])) as [Ep El];
    [exact Hty|].
  rewrite Ep in Ht. rewrite El in Hl. cbn [attr_pt attr_loads attr_data] in *.
  split; [|exact Hl].
  rewrite Ht. cbn [children empty app]. symmetry. apply decode_attr_tree_node.
Qed.

Lemma top_children_app (mem : memory) (before after : list top_tlv) :
  forall data,
    top_children mem data (before ++ after)
    = top_children mem data before
      ++ top_children mem
           (data + Z.of_nat (List.length (wire_attr before))) after.
Proof.
  induction before as [|t rest IH]; intros data.
  - cbn [app top_children wire_attr flat_map List.length].
    replace (data + Z.of_nat 0) with data by lia. reflexivity.
  - cbn [app top_children]. rewrite IH, <- app_assoc. do 3 f_equal.
    unfold wire_attr. cbn [flat_map]. rewrite length_app. lia.
Qed.

Lemma top_children_unrecognized (mem : memory) (tlvs : list top_tlv) :
  forall data, Forall unrecognized tlvs -> top_children mem data tlvs = [].
Proof.
  induction tlvs as [|t rest IH]; intros data H; [reflexivity|].
  inversion_clear H as [|? ? Ht Hrest]. cbn [top_children].
  rewrite (IH _ Hrest). destruct t; [contradiction | reflexivity].
Qed.

(** The loop over a complete attribute is left with the budget used up
    and the cursor at the end of the attribute. *)
Lemma complete_attr_consumed (mem : memory) (tlvs : list top_tlv) (data : Z) :
  Forall complete_top tlvs ->
  holds mem data (wire_attr tlvs) ->
  let n := Z.of_nat (List.length (wire_attr tlvs)) in
  exists r,
    attr_loop mem (attr_fuel n) (mk_attr_walk n data empty []) = Some r
    /\ attr_len r = 0 /\ attr_data r = data + n.
Proof.
  intros Hc Hh n.
  destruct (attr_loop_terminates mem (attr_fuel n)
              (mk_attr_walk n data empty [])) as [r Hr]; [reflexivity|].
  exists r. split; [exact Hr|]. unfold attr_loop in Hr.
  assert (Hinv : attr_inv mem data (data + n) r).
  { revert Hr. apply (while_do_invariant attr_cond (attr_body mem)
                        (attr_inv mem data (data + n)) (attr_inv_step mem _ _)).
    unfold attr_inv. cbn [attr_data attr_loads attr_len].
    split; [lia|]. split; [constructor|].
    exists tlvs. split; [exact Hc|]. split; [exact Hh|]. split; reflexivity. }
  apply (while_do_no_break attr_cond (attr_body mem) _ _ _
           (attr_body_no_break mem)) in Hr.
  unfold attr_cond in Hr. rewrite Z.gtb_ltb in Hr. apply Z.ltb_ge in Hr.
  destruct Hinv as (_ & _ & rest & _ & _ & Hlen & Hend). lia.
Qed.

(** C6: every TLV the top-level loop processes moves the cursor by
    length+3 bytes (the four header bytes and length-1 bytes of value)
    and lowers the budget by length+3, and never leaves the loop; over a
    complete attribute the loop ends with the budget at 0 and the cursor
    at the end.  A TLV of another type than 5 at the head costs the four
    loads of its header and nothing else, the tree being that of the
    rest of the attribute, decoded from length+3 bytes further.  So in a
    complete attribute every TLV of type 5 has its [srv6_l3_service]
    child, also those that come after an unrecognized TLV, and an
    attribute made of unrecognized TLVs only gives the empty tree. *)
Theorem top_level_tlv_consumed (mem : memory) :
  (forall s,
     attr_data (fst (attr_body mem s)) =
     attr_data s + 4 + (len (read_header mem (attr_data s)) - 1)
     /\ attr_len (fst (attr_body mem s)) =
        attr_len s - (len (read_header mem (attr_data s)) + 3)
     /\ snd (attr_body mem s) = false)
  /\ (forall n data,
        0 < n ->
        type (read_header mem data)
        <> BGP_PREFIX_SID_TLV_TYPE_SRV6_L3_SERVICE_TLV ->
        tree (decode_attr mem n data)
        = tree (decode_attr mem (n - (len (read_header mem data) + 3))
                  (data + (len (read_header mem data) + 3)))
        /\ loads (decode_attr mem n data)
           = header_loads data
             ++ loads (decode_attr mem (n - (len (read_header mem data) + 3))
                         (data + (len (read_header mem data) + 3))))
  /\ (forall tlvs data,
        Forall complete_top tlvs ->
        holds mem data (wire_attr tlvs) ->
        let n := Z.of_nat (List.length (wire_attr tlvs)) in
        (exists r,
           attr_loop mem (attr_fuel n) (mk_attr_walk n data empty []) = Some r
           /\ attr_len r = 0 /\ attr_data r = data + n)
        /\ tree (decode_attr mem n data)
           = Node EmptyString (top_children mem data tlvs)
        /\ List.length (children (tree (decode_attr mem n data)))
           = List.length (filter is_l3_service tlvs)
        /\ (Forall unrecognized tlvs ->
            tree (decode_attr mem n data) = empty
            /\ get_children "srv6_l3_service" (tree (decode_attr mem n data))
               = []))
  /\ (forall before u after data,
        Forall complete_top (before ++ u :: after) ->
        unrecognized u ->
        holds mem data (wire_attr (before ++ u :: after)) ->
        children
          (tree (decode_attr mem
                   (Z.of_nat (List.length (wire_attr (before ++ u :: after))))
                   data))
        = top_children mem data before
          ++ top_children mem
               (data + Z.of_nat (List.length (wire_attr before))
                + Z.of_nat (List.length (wire_top u)))
               after).
Proof.
  split; [|split; [|split]].
  - intros s. split; [rewrite attr_body_data; lia|].
    split; [apply attr_body_len | apply attr_body_no_break].
  - intros n data. apply decode_attr_skip.
  - intros tlvs data Hc Hh n. subst n.
    split; [exact (complete_attr_consumed mem tlvs data Hc Hh)|].
    rewrite (decode_complete_attr mem tlvs data Hc Hh). cbn [children].
    split; [reflexivity|]. split; [apply top_children_length|].
    intros Hu. rewrite (top_children_unrecognized mem tlvs data Hu).
    split; reflexivity.
  - intros before u after data Hc Hu Hh.
    rewrite (decode_complete_attr mem _ data Hc Hh). cbn [children].
    rewrite top_children_app. f_equal.
    destruct u as [r subs | ty r v]; [contradiction|].
    cbn [top_children app]. reflexivity.
Qed.

Lemma type_99_then_sample_complete :
  Forall complete_top ([] ++ OtherTlv 99 0 [1; 2; 3] :: sample_tlvs).
Proof.
  constructor; [|exact sample_tlvs_complete].
  unfold complete_top, is_byte, fits,
    BGP_PREFIX_SID_TLV_TYPE_SRV6_L3_SERVICE_TLV. simpl. lia.
Qed.

(** A TLV of type 99 in front of the sample attribute: the SRv6 L3
    Service TLV behind it is decoded, from address 11. *)
Lemma top_level_tlv_consumed_witness :
  children
    (tree (decode_attr (buffer_mem (wire_tlv 99 0 [1; 2; 3] ++ sample_attr))
             45 0))
  = [("srv6_l3_service",
      tree (parseSRv6L3ServiceTLV
              (buffer_mem (wire_tlv 99 0 [1; 2; 3] ++ sample_attr)) 34 11))].
Proof.
  exact (proj2 (proj2 (proj2
           (top_level_tlv_consumed
              (buffer_mem (wire_tlv 99 0 [1; 2; 3] ++ sample_attr)))))
           [] (OtherTlv 99 0 [1; 2; 3]) sample_tlvs 0
           type_99_then_sample_complete I (holds_buffer _)).
Defined.

(** ** What the result depends on *)

Section Related.

Context {St : Type}.
Variable cond : St -> bool.
Variables body body' : St -> St * bool.
Variable R : St -> St -> Prop.

Hypothesis cond_related : forall s s', R s s' -> cond s = cond s'.
Hypothesis body_related :
  forall s s', R s s' ->
    R (fst (body s)) (fst (body' s')) /\ snd (body s) = snd (body' s').

(** Two loops whose bodies keep a relation between their states run
    alike and are left in related states. *)
Lemma while_do_related (fuel : nat) :
  forall s s', R s s' ->
    match while_do cond body fuel s, while_do cond body' fuel s' with
    | Some r, Some r' => R r r'
    | None, None => True
    | _, _ => False
    end.
Proof.
  induction fuel as [|fuel IH]; intros s s' HR; simpl;
    rewrite <- (cond_related s s' HR); destruct (cond s); auto.
  destruct (body_related s s' HR) as [HR' Hs].
  destruct (body s) as [s1 b], (body' s') as [s1' b']. simpl in HR', Hs.
  subst b'. destruct b; [exact HR' | apply IH; exact HR'].
Qed.

Lemma run_loop_related (fuel : nat) (s s' : St) :
  R s s' -> R (run_loop cond body fuel s) (run_loop cond body' fuel s').
Proof.
  intros HR. unfold run_loop. pose proof (while_do_related fuel s s' HR) as H.
  destruct (while_do cond body fuel s), (while_do cond body' fuel s');
    tauto.
Qed.

End Related.

Lemma readData_down_moved (data d : Z) (n : nat) :
  readData_down (data + d) n = map (fun a => a + d) (readData_down data n).
Proof.
  induction n as [|n IH]; [reflexivity|].
  cbn [readData_down map]. f_equal; [lia | exact IH].
Qed.

Lemma readData_up_moved (data d : Z) (n : nat) :
  forall i,
    readData_up (data + d) i n = map (fun a => a + d) (readData_up data i n).
Proof.
  induction n as [|n IH]; intros i; [reflexivity|].
  cbn [readData_up map]. f_equal; [lia | apply IH].
Qed.

Lemma readData_loads_moved (data d : Z) (size : nat) (order : bool) :
  readData_loads (data + d) size order
  = map (fun a => a + d) (readData_loads data size order).
Proof.
  unfold readData_loads.
  destruct order; [apply readData_down_moved | apply readData_up_moved].
Qed.

Lemma readData_moved (mem : memory) (d data : Z) (size : nat) (order : bool) :
  readData (moved d mem) data size order = readData mem (data + d) size order.
Proof.
  unfold readData. rewrite readData_loads_moved, map_map. reflexivity.
Qed.

Lemma read_header_moved (mem : memory) (d data : Z) :
  read_header (moved d mem) data = read_header mem (data + d).
Proof.
  unfold read_header. rewrite !readData_moved.
  replace (data + 1 + d) with (data + d + 1) by lia.
  replace (data + 3 + d) with (data + d + 3) by lia. reflexivity.
Qed.

Lemma header_loads_moved (d data : Z) :
  header_loads (data + d) = map (fun a => a + d) (header_loads data).
Proof.
  unfold header_loads. rewrite !map_app, <- !readData_loads_moved.
  replace (data + 1 + d) with (data + d + 1) by lia.
  replace (data + 3 + d) with (data + d + 3) by lia. reflexivity.
Qed.

Lemma read_sid_structure_moved (mem : memory) (d data : Z) :
  read_sid_structure (moved d mem) data = read_sid_structure mem (data + d).
Proof.
  unfold read_sid_structure, load, moved.
  replace (data + 1 + d) with (data + d + 1) by lia.
  replace (data + 2 + d) with (data + d + 2) by lia.
  replace (data + 3 + d) with (data + d + 3) by lia.
  replace (data + 4 + d) with (data + d + 4) by lia.
  replace (data + 5 + d) with (data + d + 5) by lia. reflexivity.
Qed.

Lemma sid_structure_loads_moved (d data : Z) :
  sid_structure_loads (data + d)
  = map (fun a => a + d) (sid_structure_loads data).
Proof.
  unfold sid_structure_loads. cbn [map].
  replace (data + 1 + d) with (data + d + 1) by lia.
  replace (data + 2 + d) with (data + d + 2) by lia.
  replace (data + 3 + d) with (data + d + 3) by lia.
  replace (data + 4 + d) with (data + d + 4) by lia.
  replace (data + 5 + d) with (data + d + 5) by lia. reflexivity.
Qed.

Lemma read_sid_information_moved (mem : memory) (d data : Z) :
  read_sid_information (moved d mem) data
  = read_sid_information mem (data + d).
Proof.
  unfold read_sid_information. rewrite !readData_moved.
  replace (data + 16 + d) with (data + d + 16) by lia.
  replace (data + 17 + d) with (data + d + 17) by lia.
  replace (data + 19 + d) with (data + d + 19) by lia. reflexivity.
Qed.

Lemma sid_information_loads_moved (d data : Z) :
  sid_information_loads (data + d)
  = map (fun a => a + d) (sid_information_loads data).
Proof.
  unfold sid_information_loads. rewrite !map_app, <- !readData_loads_moved.
  replace (data + 16 + d) with (data + d + 16) by lia.
  replace (data + 17 + d) with (data + d + 17) by lia.
  replace (data + 19 + d) with (data + d + 19) by lia. reflexivity.
Qed.

Lemma subtlv_body_moved (mem : memory) (d : Z) (s s' : subtlv_walk) :
  subtlv_moved d s s' ->
  subtlv_moved d (fst (subtlv_body (moved d mem) s))
    (fst (subtlv_body mem s'))
  /\ snd (subtlv_body (moved d mem) s) = snd (subtlv_body mem s').
Proof.
  intros (Hl & Hd & Hc & Ho & Hp & Hlo). unfold subtlv_moved.
  rewrite !subtlv_body_len, !subtlv_body_data, !subtlv_body_loads.
  rewrite read_header_moved, Hl, Hd, Hlo.
  replace (sub_data s + d + 4) with (sub_data s + 4 + d) by lia.
  rewrite header_loads_moved, sid_structure_loads_moved, !map_app.
  unfold subtlv_body.
  rewrite read_header_moved, read_sid_structure_moved, Hd, Hc, Ho, Hp.
  replace (sub_data s + d + 4) with (sub_data s + 4 + d) by lia.
  destruct (type _ =? _); destruct (subtlv_cnt s + 1 >? 3);
    cbn [fst snd subtlv_cnt outer_tlv_cnt sub_pt map];
    (split; [|reflexivity]); repeat split; lia.
Qed.

Lemma subtlv_cond_moved (d : Z) (s s' : subtlv_walk) :
  subtlv_moved d s s' -> subtlv_cond s = subtlv_cond s'.
Proof. intros (Hl & _). unfold subtlv_cond. rewrite Hl. reflexivity. Qed.

Lemma inner_walk_moved (mem : memory) (d : Z) (subtlv : generic_tlv)
  (sd c : Z) :
  subtlv_moved d (inner_walk (moved d mem) subtlv sd c)
    (inner_walk mem subtlv (sd + d) c).
Proof.
  unfold inner_walk. cbv zeta.
  apply (run_loop_related subtlv_cond (subtlv_body (moved d mem))
           (subtlv_body mem) (subtlv_moved d) (subtlv_cond_moved d)
           (subtlv_body_moved mem d)).
  unfold subtlv_moved.
  cbn [subtlv_len sub_data subtlv_cnt outer_tlv_cnt sub_pt sub_loads map].
  rewrite read_sid_information_moved. repeat split. lia.
Qed.

Lemma tlv_body_moved (mem : memory) (d : Z) (s s' : tlv_walk) :
  tlv_moved d s s' ->
  tlv_moved d (fst (tlv_body (moved d mem) s)) (fst (tlv_body mem s'))
  /\ snd (tlv_body (moved d mem) s) = snd (tlv_body mem s').
Proof.
  intros (Hl & Hd & Hc & Hp & Hlo).
  assert (H : tlv_moved d (fst (tlv_body (moved d mem) s))
                (fst (tlv_body mem s'))).
  { unfold tlv_moved.
    rewrite !tlv_body_len, !tlv_body_data, !tlv_body_loads.
    rewrite read_header_moved, Hl, Hd, Hc, Hlo.
    replace (tlv_data s + d + 4) with (tlv_data s + 4 + d) by lia.
    pose proof (inner_walk_moved mem d (read_header mem (tlv_data s + d))
                  (tlv_data s + 4) (tlv_cnt s)) as (_ & _ & _ & Ho & Hsp & Hsl).
    rewrite header_loads_moved, sid_information_loads_moved, !map_app.
    split; [reflexivity|]. split; [lia|]. split; [|split].
    - unfold tlv_body. rewrite read_header_moved, Hd, Hc.
      replace (tlv_data s + d + 4) with (tlv_data s + 4 + d) by lia.
      destruct (type _ =? _); cbn [fst tlv_cnt]; [rewrite Ho|]; reflexivity.
    - unfold tlv_body. rewrite read_header_moved, Hd, Hc, Hp.
      replace (tlv_data s + d + 4) with (tlv_data s + 4 + d) by lia.
      destruct (type _ =? _); cbn [fst tlv_pt]; [rewrite Hsp|]; reflexivity.
    - destruct (type _ =? _); [|reflexivity].
      rewrite !map_app, Hsl. reflexivity. }
  split; [exact H|]. rewrite !tlv_body_break.
  destruct H as (_ & _ & E & _). rewrite E. reflexivity.
Qed.

Lemma tlv_cond_moved (d : Z) (s s' : tlv_walk) :
  tlv_moved d s s' -> tlv_cond s = tlv_cond s'.
Proof. intros (Hl & _). unfold tlv_cond. rewrite Hl. reflexivity. Qed.

Lemma parseSRv6L3ServiceTLV_moved (mem : memory) (d tlv_len data : Z) :
  tree (parseSRv6L3ServiceTLV mem tlv_len (data + d))
  = tree (parseSRv6L3ServiceTLV (moved d mem) tlv_len data)
  /\ loads (parseSRv6L3ServiceTLV mem tlv_len (data + d))
     = map (fun a => a + d)
         (loads (parseSRv6L3ServiceTLV (moved d mem) tlv_len data)).
Proof.
  unfold parseSRv6L3ServiceTLV. cbn [tree loads].
  pose proof (run_loop_related tlv_cond (tlv_body (moved d mem))
                (tlv_body mem) (tlv_moved d) (tlv_cond_moved d)
                (tlv_body_moved mem d) 4
                (mk_tlv_walk tlv_len data 0 empty [])
                (mk_tlv_walk tlv_len (data + d) 0 empty [])) as H.
  destruct H as (_ & _ & _ & Hp & Hl); [repeat split|]. tauto.
Qed.

Lemma attr_body_moved (mem : memory) (d : Z) (s s' : attr_walk) :
  attr_moved d s s' ->
  attr_moved d (fst (attr_body (moved d mem) s)) (fst (attr_body mem s'))
  /\ snd (attr_body (moved d mem) s) = snd (attr_body mem s').
Proof.
  intros (Hl & Hd & Hp & Hlo).
  rewrite !attr_body_no_break. split; [|reflexivity]. unfold attr_moved.
  rewrite !attr_body_len, !attr_body_data, !attr_body_loads.
  rewrite read_header_moved, Hl, Hd, Hlo.
  replace (attr_data s + d + 4) with (attr_data s + 4 + d) by lia.
  pose proof (parseSRv6L3ServiceTLV_moved mem d
                (len (read_header mem (attr_data s + d)) - 1)
                (attr_data s + 4)) as [Ht Hls].
  rewrite header_loads_moved, !map_app.
  split; [reflexivity|]. split; [lia|]. split.
  - unfold attr_body. rewrite read_header_moved, Hd, Hp.
    replace (attr_data s + d + 4) with (attr_data s + 4 + d) by lia.
    destruct (type _ =? _); cbn [fst attr_pt]; [rewrite Ht|]; reflexivity.
  - destruct (type _ =? _); [rewrite Hls|]; reflexivity.
Qed.

Lemma attr_cond_moved (d : Z) (s s' : attr_walk) :
  attr_moved d s s' -> attr_cond s = attr_cond s'.
Proof. intros (Hl & _). unfold attr_cond. rewrite Hl. reflexivity. Qed.

(** Decoding [d] bytes further on is decoding the memory seen from
    there. *)
Lemma decode_attr_moved (mem : memory) (d attr_len data : Z) :
  tree (decode_attr mem attr_len (data + d))
  = tree (decode_attr (moved d mem) attr_len data)
  /\ loads (decode_attr mem attr_len (data + d))
     = map (fun a => a + d) (loads (decode_attr (moved d mem) attr_len data)).
Proof.
  unfold decode_attr. cbn [tree loads].
  pose proof (run_loop_related attr_cond (attr_body (moved d mem))
                (attr_body mem) (attr_moved d) (attr_cond_moved d)
                (attr_body_moved mem d) (attr_fuel attr_len)
                (mk_attr_walk attr_len data empty [])
                (mk_attr_walk attr_len (data + d) empty [])) as H.
  destruct H as (_ & _ & Hp & Hl); [repeat split|]. tauto.
Qed.

(** The decode of a memory that holds, from [data'] on, what the first
    holds from [data] on at the addresses the first decode loads. *)
Lemma decode_attr_elsewhere (mem mem' : memory) (attr_len data data' : Z) :
  (forall a, In a (loads (decode_attr mem attr_len data)) ->
             load mem' (a - data + data') = load mem a) ->
  tree (decode_attr mem' attr_len data') = tree (decode_attr mem attr_len data)
  /\ loads (decode_attr mem' attr_len data')
     = map (fun a => a - data + data') (loads (decode_attr mem attr_len data)).
Proof.
  intros H.
  assert (E : decode_attr (moved (data' - data) mem') attr_len data
              = decode_attr mem attr_len data).
  { apply decode_attr_agree. apply Forall_forall. intros a Ha.
    rewrite <- (H a Ha). unfold load, moved. do 2 f_equal. lia. }
  destruct (decode_attr_moved mem' (data' - data) attr_len data) as [Ht Hl].
  replace (data + (data' - data)) with data' in Ht, Hl by lia.
  rewrite Ht, Hl, E. split; [reflexivity|].
  apply map_ext. intros a. lia.
Qed.

Lemma holds_same_loads (mem mem' : memory) (data data' : Z) (bytes : list Z)
  (a : Z) :
  holds mem data bytes -> holds mem' data' bytes ->
  within data (data + Z.of_nat (List.length bytes)) a ->
  load mem' (a - data + data') = load mem a.
Proof.
  intros H H' Ha. unfold within in Ha. unfold load.
  replace a with (data + Z.of_nat (Z.to_nat (a - data))) at 2 by lia.
  replace (a - data + data') with (data' + Z.of_nat (Z.to_nat (a - data)))
    by lia.
  rewrite H, H' by lia. reflexivity.
Qed.

Lemma decode_attr_loads_window (mem : memory) (n data : Z) :
  Forall (within data (data + Z.max n 0 + 262165))
    (loads (decode_attr mem n data)).
Proof.
  unfold decode_attr. cbn [loads].
  apply (run_loop_invariant attr_cond (attr_body mem)
           (fun r => data <= attr_data r
                     /\ attr_data r + attr_len r = data + n
                     /\ Forall (within data (data + Z.max n 0 + 262165))
                          (attr_loads r)));
    [|cbn [attr_data attr_len attr_loads]; split; [lia|];
      split; [lia | constructor]].
  intros s (Hlo & Hs & Hf) Hc. unfold attr_cond in Hc.
  rewrite attr_body_data, attr_body_len, attr_body_loads.
  pose proof (len_range mem (attr_data s)) as Hlen.
  split; [lia|]. split; [lia|].
  apply Forall_app; split; [exact Hf|]. apply Forall_app; split.
  - eapply within_weaken; [apply header_loads_within | lia | lia].
  - destruct (type _ =? _); [|constructor].
    apply Forall_forall. intros a Ha. unfold within.
    pose proof (parseSRv6L3ServiceTLV_loads_below mem
                  (len (read_header mem (attr_data s)) - 1)
                  (attr_data s + 4)) as Hb.
    assert (Hg : Forall (Z.le (attr_data s + 4))
                   (loads (parseSRv6L3ServiceTLV mem
                             (len (read_header mem (attr_data s)) - 1)
                             (attr_data s + 4)))).
    { unfold parseSRv6L3ServiceTLV. cbn [loads].
      apply tlv_loads_ge; cbn [tlv_data tlv_loads]; [lia | constructor]. }
    rewrite Forall_forall in Hb, Hg.
    specialize (Hb a Ha). specialize (Hg a Ha). cbv beta in Hb. lia.
Qed.

(** Against C8 as stated.  Two memories hold the same 32 bytes of the
    buffer from address 0 and differ behind it; decoded with the length
    32 they give different trees, the six values of the [sid_structure]
    being read from the addresses 32 to 37: 0 in one, 7 in the other. *)
Lemma same_buffer_different_trees :
  holds (buffer_mem truncated_attr) 0 truncated_attr
  /\ holds (buffer_mem (truncated_attr ++ [7; 7; 7; 7; 7; 7])) 0 truncated_attr
  /\ List.length truncated_attr = 32%nat
  /\ attr_prefix_sid
       (parseBGPPrefixSIDAttr (buffer_mem truncated_attr) 32 0
          (mk_parsed_update_data empty tt))
     <> attr_prefix_sid
          (parseBGPPrefixSIDAttr
             (buffer_mem (truncated_attr ++ [7; 7; 7; 7; 7; 7])) 32 0
             (mk_parsed_update_data empty tt))
  /\ map (fun bytes =>
            option_map (get "locator_block_length")
              (get_child "sid_structure"
                 (hd empty
                    (get_children "sid_information"
                       (hd empty
                          (get_children "srv6_l3_service"
                             (tree (decode_attr (buffer_mem bytes) 32 0))))))))
       [truncated_attr; truncated_attr ++ [7; 7; 7; 7; 7; 7]]
     = [Some (Some "0"); Some (Some "7")].
Proof.
  split; [apply holds_buffer|].
  split; [exact (holds_app_l _ _ _ _ (holds_buffer _))|].
  split; [reflexivity|]. split; [|reflexivity].
  intros H. vm_compute in H. discriminate H.
Qed.

(** C8, as the code has it: the tree a call stores is fixed by the
    declared length and by the bytes at the addresses the walk loads,
    whatever [parsed_data] held before and wherever the bytes lie in
    memory: the same bytes at another address give the same tree and
    the same loads, shifted.  The loads all fall in the window from
    [data] to less than 262165 bytes past the declared end, so the bytes
    of that window fix the tree.  When the buffer holds a complete
    attribute decoded with its own length, the bytes of the buffer and
    the length fix the tree: every memory holding these bytes, at any
    address, gives the same tree. *)
Theorem decode_deterministic {Others : Type} (mem : memory)
  (attr_len data : Z) (p : parsed_update_data Others) :
  (forall (mem' : memory) (p' : parsed_update_data Others),
     (forall a, In a (loads (decode_attr mem attr_len data)) ->
                load mem' a = load mem a) ->
     decode_attr mem' attr_len data = decode_attr mem attr_len data
     /\ attr_prefix_sid (parseBGPPrefixSIDAttr mem' attr_len data p')
        = attr_prefix_sid (parseBGPPrefixSIDAttr mem attr_len data p))
  /\ (forall (mem' : memory) (p' : parsed_update_data Others),
        (forall a, data <= a < data + Z.max attr_len 0 + 262165 ->
                   load mem' a = load mem a) ->
        attr_prefix_sid (parseBGPPrefixSIDAttr mem' attr_len data p')
        = attr_prefix_sid (parseBGPPrefixSIDAttr mem attr_len data p))
  /\ (forall (mem' : memory) (data' : Z) (p' : parsed_update_data Others),
        (forall a, In a (loads (decode_attr mem attr_len data)) ->
                   load mem' (a - data + data') = load mem a) ->
        attr_prefix_sid (parseBGPPrefixSIDAttr mem' attr_len data' p')
        = attr_prefix_sid (parseBGPPrefixSIDAttr mem attr_len data p)
        /\ loads (decode_attr mem' attr_len data')
           = map (fun a => a - data + data')
               (loads (decode_attr mem attr_len data)))
  /\ (forall (tlvs : list top_tlv) (mem' : memory) (data' : Z)
             (p' : parsed_update_data Others),
        Forall complete_top tlvs ->
        attr_len = Z.of_nat (List.length (wire_attr tlvs)) ->
        holds mem data (wire_attr tlvs) ->
        holds mem' data' (wire_attr tlvs) ->
        attr_prefix_sid (parseBGPPrefixSIDAttr mem' attr_len data' p')
        = attr_prefix_sid (parseBGPPrefixSIDAttr mem attr_len data p)).
Proof.
  split; [|split; [|split]].
  - intros mem' p' H.
    assert (E : decode_attr mem' attr_len data = decode_attr mem attr_len data)
      by (apply decode_attr_agree, Forall_forall; exact H).
    split; [exact E|]. unfold parseBGPPrefixSIDAttr. cbn [attr_prefix_sid].
    rewrite E. reflexivity.
  - intros mem' p' H. unfold parseBGPPrefixSIDAttr. cbn [attr_prefix_sid].
    rewrite (decode_attr_agree mem mem'); [reflexivity|].
    eapply Forall_impl; [|apply decode_attr_loads_window].
    intros a Ha. apply H. exact Ha.
  - intros mem' data' p' H. unfold parseBGPPrefixSIDAttr.
    cbn [attr_prefix_sid]. apply decode_attr_elsewhere. exact H.
  - intros tlvs mem' data' p' Hc -> Hh Hh'. unfold parseBGPPrefixSIDAttr.
    cbn [attr_prefix_sid]. apply decode_attr_elsewhere.
    intros a Ha. apply (holds_same_loads mem mem' data data' (wire_attr tlvs));
      [exact Hh | exact Hh' |].
    pose proof (decode_attr_loads_within tlvs mem data Hc Hh) as Hw.
    rewrite Forall_forall in Hw. exact (Hw a Ha).
Qed.

(** The sample attribute laid out from address 2 between other bytes
    gives the tree it gives from address 0. *)
Lemma decode_deterministic_witness :
  attr_prefix_sid
    (parseBGPPrefixSIDAttr (buffer_mem ([99; 99] ++ sample_attr ++ [99; 99]))
       38 2 (mk_parsed_update_data (leaf "old") tt))
  = attr_prefix_sid
      (parseBGPPrefixSIDAttr (buffer_mem sample_attr) 38 0
         (mk_parsed_update_data empty tt)).
Proof.
  refine (proj2 (proj2 (proj2
            (decode_deterministic (buffer_mem sample_attr) 38 0
               (mk_parsed_update_data empty tt))))
            sample_tlvs (buffer_mem ([99; 99] ++ sample_attr ++ [99; 99])) 2
            (mk_parsed_update_data (leaf "old") tt)
            sample_tlvs_complete eq_refl (holds_buffer sample_attr) _).
  intros i Hi. change (List.length (wire_attr sample_tlvs)) with 38%nat in Hi.
  do 38 (destruct i as [|i]; [reflexivity|]). lia.
Defined.

(** ** Siblings over a whole attribute *)

Lemma top_children_all_keys (mem : memory) (tlvs : list top_tlv) :
  forall data,
    map fst (top_children mem data tlvs)
    = repeat "srv6_l3_service" (List.length (filter is_l3_service tlvs))
    /\ filter (fun kc => String.eqb (fst kc) "srv6_l3_service")
         (top_children mem data tlvs)
       = top_children mem data tlvs.
Proof.
  induction tlvs as [|t rest IH]; intros data; [split; reflexivity|].
  destruct (IH (data + Z.of_nat (List.length (wire_top t)))) as [Hk Hf].
  cbn [top_children filter]. rewrite map_app, filter_app, Hk, Hf.
  destruct t; split; reflexivity.
Qed.

Lemma structure_children_siblings (subsubs : list sub_sub_tlv) :
  map fst (structure_children subsubs)
  = repeat "sid_structure" (List.length (filter is_sid_structure subsubs))
  /\ map snd (filter (fun kc => String.eqb (fst kc) "sid_structure")
                (structure_children subsubs))
     = map structure_of (filter is_sid_structure subsubs).
Proof.
  induction subsubs as [|t rest [IHk IHc]]; [split; reflexivity|].
  unfold structure_children in *. cbn [flat_map filter].
  rewrite map_app, filter_app, map_app, IHk, IHc.
  destruct t as [ty r v]. cbn [is_sid_structure].
  destruct (ty =? SRV6_SID_STRUCTURE_SUB_SUB_TLV); split; reflexivity.
Qed.

Lemma information_node_siblings (r : Z) (fixed : list Z)
  (subsubs : list sub_sub_tlv) :
  information_siblings (information_node fixed subsubs)
    (SidInformation r fixed subsubs).
Proof.
  destruct (structure_children_siblings subsubs) as [Hk Hc].
  unfold information_siblings. split; [reflexivity|].
  unfold information_node, keys, get_children. cbn [children].
  rewrite map_app, filter_app, map_app, Hk, Hc. split; reflexivity.
Qed.

Lemma information_children_siblings (subs : list sub_tlv) :
  service_siblings (Node EmptyString (information_children subs))
    (L3Service 0 subs).
Proof.
  unfold service_siblings, keys, get_children. cbn [children].
  induction subs as [|t rest [IHk IHc]]; [split; [reflexivity | constructor]|].
  unfold information_children in *. cbn [flat_map filter].
  rewrite map_app, filter_app, map_app, IHk.
  destruct t as [r fixed subsubs | ty r v]; cbn [is_sid_information].
  - split; [reflexivity|]. cbn [filter fst String.eqb map app snd].
    constructor; [apply information_node_siblings | exact IHc].
  - split; [reflexivity | exact IHc].
Qed.

Lemma service_children_siblings (tlvs : list top_tlv) :
  Forall2 service_siblings
    (get_children "srv6_l3_service" (Node EmptyString (service_children tlvs)))
    (filter is_l3_service tlvs).
Proof.
  unfold get_children. cbn [children].
  induction tlvs as [|t rest IH]; [constructor|].
  unfold service_children in *. cbn [flat_map filter].
  rewrite filter_app, map_app.
  destruct t as [r subs | ty r v]; cbn [is_l3_service]; [|exact IH].
  constructor; [|exact IH]. exact (information_children_siblings subs).
Qed.

Lemma five_informations_complete : Forall complete_top five_informations.
Proof.
  unfold five_informations, complete_top, complete_sub, fits.
  repeat constructor; simpl; lia.
Qed.

(** Against C10 as stated.  A complete SRv6 L3 Service TLV with five
    SID Information sub-TLVs gives four [sid_information] children,
    those of the first four: the sub-TLV loop is left when [tlv_cnt]
    passes 3, and the fifth sub-TLV appends nothing. *)
Lemma fifth_sid_information_dropped :
  Forall complete_top five_informations
  /\ List.length (wire_attr five_informations) = 124%nat
  /\ map keys
       (get_children "srv6_l3_service"
          (tree (decode_attr (buffer_mem (wire_attr five_informations))
                   124 0)))
     = [["sid_information"; "sid_information"; "sid_information";
         "sid_information"]]
  /\ map (get "endpoint_behavior_codepoint")
       (get_children "sid_information"
          (hd empty
             (get_children "srv6_l3_service"
                (tree (decode_attr (buffer_mem (wire_attr five_informations))
                         124 0)))))
     = [Some "1"; Some "2"; Some "3"; Some "4"].
Proof.
  split; [exact five_informations_complete|].
  split; [reflexivity|]. split; vm_compute; reflexivity.
Qed.

(** C10, as the code has it.  On every input each of the three loops
    ends having only appended children under its own key to the node it
    builds: what was there stays in place and nothing is overwritten.
    In a complete attribute every TLV of type 5, whatever their number,
    has its own [srv6_l3_service] child, in input order; and within the
    reach of the sibling counters (at most four sub-TLVs in an SRv6 L3
    Service TLV, at most three sub-sub-TLVs in a SID Information) every
    SID Information sub-TLV has its own [sid_information] child and
    every SID Structure sub-sub-TLV its own [sid_structure] child, in
    input order under the repeated key. *)
Theorem siblings_appended (mem : memory) :
  (forall n data pt l, exists r added,
     attr_loop mem (attr_fuel n) (mk_attr_walk n data pt l) = Some r
     /\ children (attr_pt r) = children pt ++ added
     /\ Forall (fun kc => fst kc = "srv6_l3_service") added)
  /\ (forall n data pt l, exists r added,
        tlv_loop mem 4 (mk_tlv_walk n data 0 pt l) = Some r
        /\ children (tlv_pt r) = children pt ++ added
        /\ Forall (fun kc => fst kc = "sid_information") added)
  /\ (forall s, exists r added,
        subtlv_loop mem (subtlv_fuel (subtlv_len s)) s = Some r
        /\ children (sub_pt r) = children (sub_pt s) ++ added
        /\ Forall (fun kc => fst kc = "sid_structure") added)
  /\ (forall tlvs data,
        Forall complete_top tlvs ->
        holds mem data (wire_attr tlvs) ->
        let t := tree (decode_attr mem
                         (Z.of_nat (List.length (wire_attr tlvs))) data) in
        keys t
        = repeat "srv6_l3_service" (List.length (filter is_l3_service tlvs))
        /\ get_children "srv6_l3_service" t
           = map snd (top_children mem data tlvs)
        /\ (Forall few_subs tlvs ->
            Forall2 service_siblings (get_children "srv6_l3_service" t)
              (filter is_l3_service tlvs))).
Proof.
  split; [|split; [|split]].
  - intros n data pt l.
    destruct (attr_loop_terminates mem (attr_fuel n)
                (mk_attr_walk n data pt l)) as [r Hr]; [reflexivity|].
    destruct (while_do_appends attr_cond (attr_body mem) attr_pt
                "srv6_l3_service" (attr_body_appends mem) _ _ _ Hr)
      as (added & Ha & Hk).
    exists r, added. split; [exact Hr|]. split; [exact Ha | exact Hk].
  - intros n data pt l.
    destruct (tlv_loop_terminates mem 4 (mk_tlv_walk n data 0 pt l))
      as [r Hr]; [simpl; lia | simpl; lia |].
    destruct (while_do_appends tlv_cond (tlv_body mem) tlv_pt
                "sid_information" (tlv_body_appends mem) _ _ _ Hr)
      as (added & Ha & Hk).
    exists r, added. split; [exact Hr|]. split; [exact Ha | exact Hk].
  - intros s.
    destruct (subtlv_loop_terminates mem (subtlv_fuel (subtlv_len s)) s)
      as [r Hr]; [reflexivity|].
    destruct (while_do_appends subtlv_cond (subtlv_body mem) sub_pt
                "sid_structure" (subtlv_body_appends mem) _ _ _ Hr)
      as (added & Ha & Hk).
    exists r, added. split; [exact Hr|]. split; [exact Ha | exact Hk].
  - intros tlvs data Hc Hh t. subst t.
    rewrite (decode_complete_attr mem tlvs data Hc Hh).
    destruct (top_children_all_keys mem tlvs data) as [Hk Hf].
    unfold keys, get_children. cbn [children]. rewrite Hf.
    split; [exact Hk|]. split; [reflexivity|].
    intros Hfew.
    pose proof (top_children_exact mem tlvs data Hc Hfew Hh) as E.
    pose proof (service_children_siblings tlvs) as H.
    unfold get_children in H. cbn [children] in H.
    rewrite <- E, Hf in H. exact H.
Qed.

Lemma four_by_three_complete :
  Forall complete_top four_by_three /\ Forall few_subs four_by_three.
Proof.
  unfold four_by_three, complete_top, complete_sub, complete_sub_sub,
    few_subs, few_subsubs, fits, is_byte, SRV6_SID_STRUCTURE_SUB_SUB_TLV.
  split; repeat constructor; simpl; lia.
Qed.

(** Four SID Information sub-TLVs of three SID Structure sub-sub-TLVs
    each, the most the counters let through, all have their child. *)
Lemma siblings_appended_witness :
  keys (tree (decode_attr (buffer_mem (wire_attr four_by_three)) 224 0))
  = ["srv6_l3_service"; "srv6_l3_service"]
  /\ Forall2 service_siblings
       (get_children "srv6_l3_service"
          (tree (decode_attr (buffer_mem (wire_attr four_by_three)) 224 0)))
       four_by_three.
Proof.
  pose proof (proj2 (proj2 (proj2
                (siblings_appended (buffer_mem (wire_attr four_by_three)))))
                four_by_three 0 (proj1 four_by_three_complete)
                (holds_buffer _)) as H.
  cbv zeta in H. destruct H as (Hk & _ & Hs).
  split; [exact Hk | exact (Hs (proj2 four_by_three_complete))].
Defined.
